(** * nixio/cmd/upgrade.py: the in-place file format upgrade of NIX files

    A shallow embedding of the upgrade script.  The script works on HDF5
    files through h5py; the part of h5py it uses is modelled in [H5]
    (attributes, a tree of groups and datasets addressed by path strings),
    the Python built-ins it uses in [Py], and the script itself, function
    by function, in [Upgrade]. *)

From Stdlib Require Import ZArith Lia Ascii Floats.SpecFloat.
From stdpp Require Import base option list strings gmap pretty lexico.

Local Open Scope Z_scope.

(** ** Python values, exceptions and built-ins *)
Module Py.

Inductive exn :=
| KeyError | ValueError | TypeError | IndexError
| AttributeError | OSError | EOFError.

(** The outcome of an expression that may raise. *)
Inductive res (A : Type) :=
| Ok (a : A)
| Raise (e : exn).
Arguments Ok {A} a.
Arguments Raise {A} e.

Definition rbind {A B} (r : res A) (k : A -> res B) : res B :=
  match r with
  | Ok a => k a
  | Raise e => Raise e
  end.

Definition of_option {A} (e : exn) (o : option A) : res A :=
  match o with
  | Some a => Ok a
  | None => Raise e
  end.

(** Elements of the tuples the script compares: version numbers, or the
    one-character strings that [tuple] makes of a string attribute. *)
Inductive pyval :=
| PInt (z : Z)
| PStr (s : string).

(** [x == y]; an int never equals a str. *)
Definition py_eq (x y : pyval) : bool :=
  match x, y with
  | PInt a, PInt b => a =? b
  | PStr a, PStr b => bool_decide (a = b)
  | _, _ => false
  end.

(** [x >= y]; ordering an int against a str raises TypeError. *)
Definition py_ge (x y : pyval) : res bool :=
  match x, y with
  | PInt a, PInt b => Ok (b <=? a)
  | PStr a, PStr b =>
      Ok (match String.compare a b with Lt => false | _ => true end)
  | _, _ => Raise TypeError
  end.

(** [a >= b] on tuples: the first position where the items differ decides;
    when one tuple is a prefix of the other the lengths decide. *)
Fixpoint tuple_ge (a b : list pyval) : res bool :=
  match a, b with
  | x :: a', y :: b' => if py_eq x y then tuple_ge a' b' else py_ge x y
  | _, [] => Ok true
  | [], _ :: _ => Ok false
  end.

(** [str(v)] *)
Definition str (v : pyval) : string :=
  match v with
  | PInt z => pretty z
  | PStr s => s
  end.

(** [sep.join(l)] *)
Fixpoint join (sep : string) (l : list string) : string :=
  match l with
  | [] => ""
  | [x] => x
  | x :: rest => x +:+ sep +:+ join sep rest
  end.

(** [s.split(sep)] for a one-character separator: never empty. *)
Fixpoint split (sep : ascii) (s : string) : list string :=
  match s with
  | EmptyString => [EmptyString]
  | String c s' =>
      if decide (c = sep) then EmptyString :: split sep s'
      else match split sep s' with
           | h :: t => String c h :: t
           | [] => [String c EmptyString]
           end
  end.

(** [l[-1]] *)
Definition getitem_last {A} (l : list A) : res A := of_option IndexError (last l).

Definition lower_ascii (c : ascii) : ascii :=
  let n := nat_of_ascii c in
  if ((65 <=? n) && (n <=? 90))%nat then ascii_of_nat (n + 32) else c.

(** [s.lower()] on ASCII text. *)
Fixpoint lower (s : string) : string :=
  match s with
  | EmptyString => EmptyString
  | String c s' => String (lower_ascii c) (lower s')
  end.

(** [len(set(l))]: an item joins the set unless it equals ([==]) one that
    is already there.  The items of an array are distinct objects, so
    identity never short-cuts the comparison (two NaN rows are two
    members). *)
Definition set_add {A} (eqb : A -> A -> bool) (acc : list A) (x : A) : list A :=
  if existsb (eqb x) acc then acc else acc ++ [x].

Definition set_of {A} (eqb : A -> A -> bool) (l : list A) : list A :=
  fold_left (set_add eqb) l [].

End Py.
Export Py.

Declare Scope res_scope.
Delimit Scope res_scope with res.
Notation "x <~ c1 ;; c2" := (rbind c1 (fun x => c2))
  (at level 100, c1 at next level, right associativity) : res_scope.
Local Open Scope res_scope.

(** ** The HDF5 container as h5py presents it *)
Module H5.

(** Attribute values: scalars and integer arrays. *)
Inductive attrval :=
| AInt (z : Z)
| AFloat (f : spec_float)
| AStr (s : string)
| AInts (l : list Z).

(** Homogeneous one-dimensional arrays, one element per row. *)
Inductive ndarray :=
| IntArr (l : list Z)
| FloatArr (l : list spec_float)
| StrArr (l : list string).

Inductive dtype := int64 | float64 | vlen_str.

Definition dtype_of (a : ndarray) : dtype :=
  match a with
  | IntArr _ => int64
  | FloatArr _ => float64
  | StrArr _ => vlen_str
  end.

Definition arr_len (a : ndarray) : nat :=
  match a with
  | IntArr l => length l
  | FloatArr l => length l
  | StrArr l => length l
  end.

(** A dataset has a simple row type, or a compound one: named fields, each
    a column over the rows. *)
Inductive dsdata :=
| Simple (a : ndarray)
| Compound (fields : list (string * ndarray)).

Record dataset := Dset {
  ds_data : dsdata;
  ds_attrs : gmap string attrval
}.

(** [len(ds.dtype)]: the number of fields, zero for a simple row type. *)
Definition dtype_len (d : dataset) : nat :=
  match ds_data d with
  | Simple _ => 0
  | Compound fields => length fields
  end.

Local Unset Elimination Schemes.
Inductive node :=
| Group (members : list (string * node))
| Dataset (d : dataset).
Local Set Elimination Schemes.

(** Induction over the tree: the members of a group satisfy the property. *)
Definition node_tree_ind (P : node -> Prop)
    (Hgroup : forall ms, Forall (fun kn => P kn.2) ms -> P (Group ms))
    (Hdataset : forall d, P (Dataset d)) : forall n, P n :=
  fix rec (n : node) : P n :=
    match n with
    | Group ms =>
        Hgroup ms
          ((fix all (ms : list (string * node)) : Forall (fun kn => P kn.2) ms :=
              match ms with
              | [] => List.Forall_nil _
              | kn :: rest => List.Forall_cons _ kn rest (rec kn.2) (all rest)
              end) ms)
    | Dataset d => Hdataset d
    end.

Record h5file := H5File {
  attrs : gmap string attrval;
  root : list (string * node)
}.

Definition empty_file : h5file := H5File ∅ [].

(** *** Association lists of group members *)
Section members.
Context {A : Type}.

Fixpoint assoc (k : string) (ms : list (string * A)) : option A :=
  match ms with
  | [] => None
  | (k', v) :: rest => if decide (k = k') then Some v else assoc k rest
  end.

Fixpoint assoc_remove (k : string) (ms : list (string * A)) : list (string * A) :=
  match ms with
  | [] => []
  | (k', v) :: rest =>
      if decide (k = k') then assoc_remove k rest else (k', v) :: assoc_remove k rest
  end.

Fixpoint assoc_replace (k : string) (v : A) (ms : list (string * A)) : list (string * A) :=
  match ms with
  | [] => []
  | (k', v') :: rest =>
      if decide (k = k') then (k', v) :: rest else (k', v') :: assoc_replace k v rest
  end.
End members.

(** *** Paths *)

(** The components of a path string: empty components (leading, doubled or
    trailing slashes) and [.] are skipped. *)
Definition is_component (c : string) : bool :=
  negb (bool_decide (c = "")) && negb (bool_decide (c = ".")).

Definition resolve (path : string) : list string :=
  filter (fun c => is_component c = true) (split "/" path).

(** [obj.name]: the absolute path of the object reached through the links
    [cs] from the root. *)
Fixpoint h5_name (cs : list string) : string :=
  match cs with
  | [] => ""
  | c :: cs' => "/" +:+ c +:+ h5_name cs'
  end.

(** [node[cs]] *)
Fixpoint get_node (cs : list string) (n : node) : option node :=
  match cs with
  | [] => Some n
  | c :: cs' =>
      match n with
      | Group ms => match assoc c ms with
                    | Some n' => get_node cs' n'
                    | None => None
                    end
      | Dataset _ => None
      end
  end.

(** [del node[cs]]: unlink the object; [None] when there is none. *)
Fixpoint del_node (cs : list string) (n : node) : option node :=
  match cs, n with
  | [], _ => None
  | _, Dataset _ => None
  | [c], Group ms =>
      match assoc c ms with
      | Some _ => Some (Group (assoc_remove c ms))
      | None => None
      end
  | c :: cs', Group ms =>
      match assoc c ms with
      | Some n' =>
          match del_node cs' n' with
          | Some n'' => Some (Group (assoc_replace c n'' ms))
          | None => None
          end
      | None => None
      end
  end.

(** The groups on the way [cs], none of which exists yet. *)
Fixpoint new_groups (cs : list string) : node :=
  match cs with
  | [] => Group []
  | c :: cs' => Group [(c, new_groups cs')]
  end.

(** [node.require_group(cs)]: create the groups on the way that do not
    exist yet; TypeError when the way leads to or through a dataset. *)
Fixpoint require_group (cs : list string) (n : node) : res node :=
  match n with
  | Dataset _ => Raise TypeError
  | Group ms =>
      match cs with
      | [] => Ok n
      | c :: cs' =>
          match assoc c ms with
          | Some n' =>
              n'' <~ require_group cs' n';;
              Ok (Group (assoc_replace c n'' ms))
          | None => Ok (Group (ms ++ [(c, new_groups cs')]))
          end
      end
  end.

(** Link the new object [x] at [cs] below a group that exists; ValueError
    when the name is taken, KeyError when the group is not there. *)
Fixpoint link_node (cs : list string) (x : node) (n : node) : res node :=
  match cs, n with
  | [], _ => Raise ValueError
  | _, Dataset _ => Raise KeyError
  | [c], Group ms =>
      match assoc c ms with
      | Some _ => Raise ValueError
      | None => Ok (Group (ms ++ [(c, x)]))
      end
  | c :: cs', Group ms =>
      match assoc c ms with
      | Some n' =>
          n'' <~ link_node cs' x n';;
          Ok (Group (assoc_replace c n'' ms))
      | None => Raise KeyError
      end
  end.

(** Replace the object at [cs], which exists, by [x]. *)
Fixpoint set_node (cs : list string) (x : node) (n : node) : option node :=
  match cs, n with
  | [], _ => Some x
  | _, Dataset _ => None
  | c :: cs', Group ms =>
      match assoc c ms with
      | Some n' =>
          match set_node cs' x n' with
          | Some n'' => Some (Group (assoc_replace c n'' ms))
          | None => None
          end
      | None => None
      end
  end.

(** [group.visititems(f)]: every object below the group, each with its
    absolute name, a member before the members below it. *)
Fixpoint visit (name : string) (n : node) : list (string * node) :=
  match n with
  | Dataset _ => []
  | Group ms =>
      (fix members (ms : list (string * node)) : list (string * node) :=
         match ms with
         | [] => []
         | (k, c) :: rest =>
             let nm := name +:+ "/" +:+ k in
             (nm, c) :: visit nm c ++ members rest
         end) ms
  end.

(** *** Files *)

Definition with_root (hfile : h5file) (r : res node) : res h5file :=
  n <~ r;;
  match n with
  | Group ms => Ok (H5File (attrs hfile) ms)
  | Dataset _ => Raise TypeError
  end.

(** [hfile[path]] *)
Definition getitem (path : string) (hfile : h5file) : res node :=
  of_option KeyError (get_node (resolve path) (Group (root hfile))).

(** [del hfile[path]] *)
Definition delitem (path : string) (hfile : h5file) : res h5file :=
  with_root hfile (of_option KeyError (del_node (resolve path) (Group (root hfile)))).

(** [obj[field]]: a column of a compound dataset (ValueError when the row
    type has no such field), or the rows of the member dataset of that name
    when [obj] is a group. *)
Definition getfield (obj : node) (field : string) : res ndarray :=
  match obj with
  | Dataset d =>
      match ds_data d with
      | Compound fields => of_option ValueError (assoc field fields)
      | Simple _ => Raise ValueError
      end
  | Group ms =>
      match assoc field ms with
      | None => Raise KeyError
      | Some (Dataset (Dset (Simple a) _)) => Ok a
      | Some _ => Raise TypeError
      end
  end.

(** [obj.attrs[key] = v] for the dataset [obj] at [path]. *)
Definition set_attr (path key : string) (v : attrval) (hfile : h5file) : res h5file :=
  match get_node (resolve path) (Group (root hfile)) with
  | Some (Dataset d) =>
      with_root hfile
        (of_option KeyError
           (set_node (resolve path)
              (Dataset (Dset (ds_data d) (<[key := v]> (ds_attrs d))))
              (Group (root hfile))))
  | _ => Raise KeyError
  end.

(** [hfile.attrs[key] = v] *)
Definition set_root_attr (key : string) (v : attrval) (hfile : h5file) : res h5file :=
  Ok (H5File (<[key := v]> (attrs hfile)) (root hfile)).

Definition make_groups (cs : list string) (hfile : h5file) : res h5file :=
  with_root hfile (require_group cs (Group (root hfile))).

(** Link the new dataset [d] at [path]. *)
Definition link (path : string) (d : dataset) (hfile : h5file) : res h5file :=
  with_root hfile (link_node (resolve path) (Dataset d) (Group (root hfile))).

End H5.
Export H5.

(** ** The script *)
Module Upgrade.

(** What the script imports and this file does not define: constants and
    helpers of [nixio], and the conversions of numpy that parse or
    truncate.  [create_id n] is the [n]-th identifier the process draws and
    [now_int n] the [n]-th reading of its clock. *)
Class Imports := {
  HDF_FF_VERSION : list Z;
  is_uuid : attrval -> bool;
  create_id : nat -> string;
  now_int : nat -> Z;
  time_to_str : Z -> string;
  numpy_cast : dtype -> ndarray -> res ndarray
}.

(** The files on disk by name, the identifiers drawn and the clock
    readings taken so far, and the terminal. *)
Record world := World {
  files : gmap string h5file;
  ids : nat;
  ticks : nat;
  stdout : list string;
  stdin : list string
}.

(** Statements: they change the world and may raise; what was written
    before an exception stays written. *)
Definition M (A : Type) : Type := world -> world * res A.

Definition ret {A} (a : A) : M A := fun w => (w, Ok a).
Definition raise {A} (e : exn) : M A := fun w => (w, Raise e).
Definition bind {A B} (m : M A) (k : A -> M B) : M B :=
  fun w =>
    match m w with
    | (w', Ok a) => k a w'
    | (w', Raise e) => (w', Raise e)
    end.

(** An expression that only reads the world. *)
Definition reading {A} (f : world -> res A) : M A := fun w => (w, f w).
Definition lift {A} (r : res A) : M A := fun w => (w, r).

Declare Scope M_scope.
Delimit Scope M_scope with M.
Notation "x <- c1 ;; c2" := (bind c1 (fun x => c2))
  (at level 100, c1 at next level, right associativity) : M_scope.
Notation "c1 ;; c2" := (bind c1 (fun _ => c2))
  (at level 100, right associativity) : M_scope.
Local Open Scope M_scope.

(** [for x in l: body(x)] *)
Fixpoint for_each {A} (body : A -> M unit) (l : list A) : M unit :=
  match l with
  | [] => ret tt
  | x :: rest => body x;; for_each body rest
  end.

Definition print (s : string) : M unit :=
  fun w => (World (files w) (ids w) (ticks w) (stdout w ++ [s]) (stdin w), Ok tt).

(** *** h5py files *)

(** [h5py.File(fname, mode="r")] *)
Definition open_r (fname : string) (w : world) : res h5file :=
  of_option OSError (files w !! fname).

Definition put_file (fname : string) (hfile : h5file) : M unit :=
  fun w => (World (<[fname := hfile]> (files w)) (ids w) (ticks w) (stdout w) (stdin w), Ok tt).

(** [h5py.File(fname, mode="a")]: the file is created when it is not there. *)
Definition open_a (fname : string) : M h5file :=
  fun w =>
    match files w !! fname with
    | Some hfile => (w, Ok hfile)
    | None => ((put_file fname empty_file w).1, Ok empty_file)
    end.

(** A write to the open file [fname]. *)
Definition modify (fname : string) (f : h5file -> res h5file) : M unit :=
  hfile <- reading (open_r fname);;
  hfile' <- lift (f hfile);;
  put_file fname hfile'.

(** The integer [z] as a double. *)
Definition float_of_Z (z : Z) : spec_float := binary_normalize 53 1024 z 0 false.

(** [numpy.asarray(data, dtype=dt)] *)
Definition asarray (I : Imports) (dt : dtype) (data : ndarray) : res ndarray :=
  match dt, data with
  | int64, IntArr _ => Ok data
  | float64, FloatArr _ => Ok data
  | float64, IntArr l => Ok (FloatArr (map float_of_Z l))
  | vlen_str, _ => Ok data
  | _, _ => numpy_cast dt data
  end.

(** [hfile.create_dataset(name, dtype=dt, data=data)]: the groups on the
    way are made, the data converted, the dataset linked and the data
    written; only strings can be written to a string dataset, which is left
    with empty rows otherwise. *)
Definition create_dataset `{Imports} (fname name : string) (dt : dtype) (data : ndarray) : M unit :=
  modify fname (make_groups (removelast (resolve name)));;
  arr <- lift (asarray _ dt data);;
  match dt, arr with
  | vlen_str, (IntArr _ | FloatArr _) =>
      modify fname (link name (Dset (Simple (StrArr (replicate (arr_len arr) ""))) ∅));;
      raise TypeError
  | _, _ => modify fname (link name (Dset (Simple arr) ∅))
  end.

(** [nix.util.create_id()] *)
Definition new_id `{Imports} : M string :=
  fun w => (World (files w) (S (ids w)) (ticks w) (stdout w) (stdin w), Ok (create_id (ids w))).

(** [nix.util.now_int()] *)
Definition now `{Imports} : M Z :=
  fun w => (World (files w) (ids w) (S (ticks w)) (stdout w) (stdin w), Ok (now_int (ticks w))).

(** *** Truth values *)

Definition float_nonzero (f : spec_float) : bool := negb (SFeqb f (S754_zero false)).
Definition str_nonempty (s : string) : bool := negb (bool_decide (s = "")).

(** [bool(v)] of an attribute value; an array of several items has none. *)
Definition truthy (v : attrval) : res bool :=
  match v with
  | AInt z => Ok (negb (z =? 0))
  | AFloat f => Ok (float_nonzero f)
  | AStr s => Ok (str_nonempty s)
  | AInts [] => Ok false
  | AInts [z] => Ok (negb (z =? 0))
  | AInts _ => Raise ValueError
  end.

(** [any(a)] *)
Definition any (a : ndarray) : bool :=
  match a with
  | IntArr l => existsb (fun z => negb (z =? 0)) l
  | FloatArr l => existsb float_nonzero l
  | StrArr l => existsb str_nonempty l
  end.

(** [len(set(a))] *)
Definition len_set (a : ndarray) : nat :=
  match a with
  | IntArr l => length (set_of Z.eqb l)
  | FloatArr l => length (set_of SFeqb l)
  | StrArr l => length (set_of (fun x y => bool_decide (x = y)) l)
  end.

(** [a[0]] *)
Definition getitem0 (a : ndarray) : res attrval :=
  match a with
  | IntArr l => of_option IndexError (AInt <$> head l)
  | FloatArr l => of_option IndexError (AFloat <$> head l)
  | StrArr l => of_option IndexError (AStr <$> head l)
  end.

(** [tuple(v)] *)
Definition tuple (v : attrval) : res (list pyval) :=
  match v with
  | AInts l => Ok (map PInt l)
  | AStr s => Ok (map (fun c => PStr (String c EmptyString)) (String.list_ascii_of_string s))
  | AInt _ | AFloat _ => Raise TypeError
  end.

(** *** upgrade.py *)

Section script.
Context `{Imports}.

Definition get_file_version (fname : string) (w : world) : res (list pyval) :=
  hfile <~ open_r fname w;;
  version <~ of_option KeyError (attrs hfile !! "version");;
  tuple version.

Definition has_valid_file_id (fname : string) (w : world) : res bool :=
  hfile <~ open_r fname w;;
  match attrs hfile !! "id" with
  | None => Ok false
  | Some fileid =>
      t <~ truthy fileid;;
      if t && is_uuid fileid then Ok true else Ok false
  end.

(** The closures the script schedules; each binds the file name, and
    [update_props] also the list [props] found when it was made. *)
Inductive task :=
| add_id (fname : string)
| update_props (fname : string) (props : list string)
| update_ver (fname : string).

Definition lib_verstr : string := join "." (map (fun v => str (PInt v)) HDF_FF_VERSION).

(** [t.__doc__] *)
Definition doc (t : task) : string :=
  match t with
  | add_id _ => "Add a UUID to the file header"
  | update_props _ props => "Update " +:+ pretty (length props) +:+ " properties"
  | update_ver _ => "Update the file format version to " +:+ lib_verstr
  end.

Definition add_file_id (fname : string) : task := add_id fname.

(** The callback of the traversal. *)
Definition find_props (props : list string) (name : string) (group : node) : list string :=
  match group with
  | Dataset d => if (0 <? dtype_len d)%nat then props ++ [name] else props
  | Group _ => props
  end.

(** [sections.visititems(find_props)], [sections] being [hfile["metadata"]] *)
Definition scan (sections : node) : list string :=
  fold_left (fun props ng => find_props props ng.1 ng.2) (visit "/metadata" sections) [].

Definition update_property_values (fname : string) (w : world) : res task :=
  hfile <~ open_r fname w;;
  sections <~ getitem "metadata" hfile;;
  match sections with
  | Group _ => Ok (update_props fname (scan sections))
  | Dataset _ => Raise AttributeError
  end.

Definition create_property (fname name : string) (dt : dtype) (data : ndarray) : M unit :=
  create_dataset fname name dt data;;
  leaf <- lift (getitem_last (split "/" name));;
  modify fname (set_attr name "name" (AStr leaf));;
  entity_id <- new_id;;
  modify fname (set_attr name "entity_id" (AStr entity_id));;
  created_at <- now;;
  modify fname (set_attr name "created_at" (AStr (time_to_str created_at)));;
  updated_at <- now;;
  modify fname (set_attr name "updated_at" (AStr (time_to_str updated_at))).

(** The body of the loop of [update_props], for one [propname]. *)
Definition update_prop (fname propname : string) : M unit :=
  hfile <- open_a fname;;
  prop <- lift (getitem propname hfile);;
  uncertainty <- lift (getfield prop "uncertainty");;
  reference <- lift (getfield prop "reference");;
  filename <- lift (getfield prop "filename");;
  encoder <- lift (getfield prop "encoder");;
  checksum <- lift (getfield prop "checksum");;
  values <- lift (getfield prop "value");;
  let dt := dtype_of values in
  modify fname (delitem propname);;
  create_property fname propname dt values;;
  (if (1 <? len_set uncertainty)%nat then
     create_property fname (propname +:+ ".uncertainty") float64 uncertainty
   else if any uncertainty then
     u0 <- lift (getitem0 uncertainty);;
     modify fname (set_attr propname "uncertainty" u0)
   else ret tt);;
  (if any reference then
     create_property fname (propname +:+ ".reference") vlen_str reference
   else ret tt);;
  (if any filename then
     create_property fname (propname +:+ ".filename") vlen_str filename
   else ret tt);;
  (if any encoder then
     create_property fname (propname +:+ ".encoder") vlen_str encoder
   else ret tt);;
  (if any checksum then
     create_property fname (propname +:+ ".checksum") vlen_str checksum
   else ret tt).

Definition update_format_version (fname : string) : task := update_ver fname.

(** Calling a task. *)
Definition call (t : task) : M unit :=
  match t with
  | add_id fname =>
      open_a fname;;
      fileid <- new_id;;
      modify fname (set_root_attr "id" (AStr fileid))
  | update_props fname props => for_each (update_prop fname) props
  | update_ver fname =>
      open_a fname;;
      modify fname (set_root_attr "version" (AInts HDF_FF_VERSION))
  end.

(** [collect_tasks] returns [None] for a file that is up to date. *)
Definition collect_tasks (fname : string) : M (option (list task)) :=
  file_ver <- reading (get_file_version fname);;
  let file_verstr := join "." (map str file_ver) in
  up_to_date <- lift (tuple_ge file_ver (map PInt HDF_FF_VERSION));;
  if (up_to_date : bool) then
    print (fname +:+ ": Up to date (" +:+ file_verstr +:+ ")");;
    ret None
  else
    valid <- reading (has_valid_file_id fname);;
    tasks <- (if negb valid then
                normalize <- reading (update_property_values fname);;
                ret [add_file_id fname; normalize]
              else ret []);;
    let tasks := tasks ++ [update_format_version fname] in
    print (fname +:+ ": " +:+ file_verstr +:+ " -> " +:+ lib_verstr);;
    print ("  - " +:+ join "
  - " (map doc tasks) +:+ "
");;
    ret (Some tasks).

(** The command line: [--force] and the files. *)
Record args := Args {
  force : bool;
  file : list string
}.

(** [tasks[fname] = tasklist] on a dict, which keeps the order of first
    insertion. *)
Definition dict_set {A} (k : string) (v : A) (d : list (string * A)) : list (string * A) :=
  match assoc k d with
  | Some _ => assoc_replace k v d
  | None => d ++ [(k, v)]
  end.

(** The first loop of [main]: plan every file. *)
Fixpoint plan_all (filenames : list string) (tasks : list (string * list task))
    : M (list (string * list task)) :=
  match filenames with
  | [] => ret tasks
  | fname :: rest =>
      tasklist <- collect_tasks fname;;
      match tasklist with
      | None | Some [] => plan_all rest tasks
      | Some tasklist => plan_all rest (dict_set fname tasklist tasks)
      end
  end.

Definition warning : string := "
PLEASE READ CAREFULLY

If you choose to continue, the changes listed above will be applied to the
respective files. This will make the files unreadable by older NIX library
versions. Although this procedure is generally fast and safe, interrupting it
may leave files in a corrupted state.

MAKE SURE YOUR FILES AND DATA ARE BACKED UP BEFORE CONTINUING.
        ".

Definition is_answer (conf : string) : bool :=
  bool_decide (conf ∈ ["y"; "n"; "yes"; "no"]).

(** The loop around [input]: each round prints the prompt and takes one
    line of [lines], the input left; at its end [input] raises EOFError. *)
Fixpoint ask (lines : list string) : M string :=
  match lines with
  | [] =>
      print "Continue with changes? [yes/no] ";;
      raise EOFError
  | line :: rest =>
      print "Continue with changes? [yes/no] ";;
      (fun w => (World (files w) (ids w) (ticks w) (stdout w) rest, Ok tt));;
      let conf := lower line in
      if is_answer conf then ret conf else ask rest
  end.

Definition main (a : args) : M unit :=
  tasks <- plan_all (file a) [];;
  match tasks with
  | [] => ret tt
  | _ =>
      conf <- (if negb (force a) then
                 print warning;;
                 fun w => ask (stdin w) w
               else ret "yes");;
      if bool_decide (conf ∈ ["y"; "yes"]) then
        for_each (fun ft : string * list task =>
                    print ("Processing " +:+ ft.1 +:+ " ");;
                    for_each call ft.2;;
                    print "done") tasks
      else ret tt
  end.

End script.

End Upgrade.

Import Upgrade.
Local Open Scope res_scope.

(** ** Notions the statements are written in *)

(** A link name as HDF5 admits it: not empty, not [.], without a slash. *)
Fixpoint has_slash (s : string) : bool :=
  match s with
  | EmptyString => false
  | String c s' => bool_decide (c = "/"%char) || has_slash s'
  end.

Definition link_name (c : string) : Prop :=
  is_component c = true /\ has_slash c = false.

(** The members of the group at [p]. *)
Fixpoint members_at (p : list string) (ms : list (string * node)) : option (list (string * node)) :=
  match p with
  | [] => Some ms
  | c :: p' =>
      match assoc c ms with
      | Some (Group sub) => members_at p' sub
      | _ => None
      end
  end.

(** The tree with the members of the group at [p] replaced by [ms']. *)
Fixpoint graft (p : list string) (ms' : list (string * node)) (ms : list (string * node))
    : list (string * node) :=
  match p with
  | [] => ms'
  | c :: p' =>
      match assoc c ms with
      | Some (Group sub) => assoc_replace c (Group (graft p' ms' sub)) ms
      | _ => ms
      end
  end.

(** The attributes [create_property] stamps on the record it creates, the
    process having drawn [i] identifiers and read the clock [t] times. *)
Definition stamp `{Imports} (leaf : string) (i t : nat) : gmap string attrval :=
  <["updated_at" := AStr (time_to_str (now_int (S t)))]>
    (<["created_at" := AStr (time_to_str (now_int t))]>
       (<["entity_id" := AStr (create_id i)]>
          (<["name" := AStr leaf]> ∅))).

(** *** What [update_prop] makes of the group that holds the record

    The members [x] of that group, with the counters of identifiers and
    clock readings, before and after. *)
Definition lstate : Type := list (string * node) * nat * nat.

Section normalized.
Context `{Imports}.

Definition new_record (name : string) (arr : ndarray) (i t : nat) : node :=
  Dataset (Dset (Simple arr) (stamp name i t)).

Definition add_sibling (c suf : string) (arr : ndarray) (s : lstate) : lstate :=
  let '(x, i, t) := s in
  (x ++ [(c +:+ suf, new_record (c +:+ suf) arr i t)], S i, S (S t)).

Definition when (b : bool) (f : lstate -> lstate) (s : lstate) : lstate :=
  if b then f s else s.

Definition set_member_attr (c key : string) (v : attrval) (s : lstate) : lstate :=
  let '(x, i, t) := s in
  match assoc c x with
  | Some (Dataset d) =>
      (assoc_replace c (Dataset (Dset (ds_data d) (<[key := v]> (ds_attrs d)))) x, i, t)
  | _ => s
  end.

Definition replace_base (c : string) (values : ndarray) (s : lstate) : lstate :=
  let '(x, i, t) := s in
  (assoc_remove c x ++ [(c, new_record c values i t)], S i, S (S t)).

Definition split_uncertainty (c : string) (unc uarr : ndarray) (s : lstate) : lstate :=
  if (1 <? len_set unc)%nat then add_sibling c ".uncertainty" uarr s
  else if any unc then
    match getitem0 unc with
    | Ok u0 => set_member_attr c "uncertainty" u0 s
    | Raise _ => s
    end
  else s.

Definition normalized (c : string) (values unc uarr : ndarray)
    (reference filename encoder checksum : list string) (s : lstate) : lstate :=
  when (any (StrArr checksum)) (add_sibling c ".checksum" (StrArr checksum))
    (when (any (StrArr encoder)) (add_sibling c ".encoder" (StrArr encoder))
       (when (any (StrArr filename)) (add_sibling c ".filename" (StrArr filename))
          (when (any (StrArr reference)) (add_sibling c ".reference" (StrArr reference))
             (split_uncertainty c unc uarr (replace_base c values s))))).

End normalized.

(** The world in which the group at [p] of the file [fname] has the members
    and the counters the values of [s]. *)
Definition local_world (fname : string) (fs : gmap string h5file) (a : gmap string attrval)
    (root0 : list (string * node)) (p : list string) (o inp : list string) (s : lstate) : world :=
  World (<[fname := H5File a (graft p s.1.1 root0)]> fs) s.1.2 s.2 o inp.

Definition suffixes : list string :=
  [".uncertainty"; ".reference"; ".filename"; ".encoder"; ".checksum"].

(** A tree as HDF5 keeps it: the names in a group are link names, each
    given once. *)
Local Unset Elimination Schemes.
Inductive wf_node : node -> Prop :=
| wf_dataset d : wf_node (Dataset d)
| wf_group ms :
    NoDup ms.*1 ->
    Forall (fun kn => link_name kn.1) ms ->
    Forall (fun kn => wf_node kn.2) ms ->
    wf_node (Group ms).
Local Set Elimination Schemes.

(** *** Invariants of a file across statements *)

(** The file [fname] is there and [Q] holds of it. *)
Definition on_file (fname : string) (Q : h5file -> Prop) (w : world) : Prop :=
  exists hfile, files w !! fname = Some hfile /\ Q hfile.

(** A write that keeps [Q] when it succeeds. *)
Definition keeps (Q : h5file -> Prop) (f : h5file -> res h5file) : Prop :=
  forall hfile hfile', Q hfile -> f hfile = Ok hfile' -> Q hfile'.

(** A statement that keeps [P], whether it returns or raises. *)
Definition preserves {A} (P : world -> Prop) (m : M A) : Prop :=
  forall w, P w -> P (m w).1.

(** The world with the root attribute [id] of the file [fname] removed. *)
Definition drop_id (fname : string) (w : world) : world :=
  World (alter (fun hfile => H5File (delete "id" (attrs hfile)) (root hfile)) fname (files w))
    (ids w) (ticks w) (stdout w) (stdin w).

(** [h5py.File(fname)[path]], as a test of the outcome would read it. *)
Definition object_at (fname path : string) (w : world) : res node :=
  hfile <~ open_r fname w;;
  getitem path hfile.

(** The columns of a legacy record. *)
Record legacy_columns := Columns {
  value : ndarray;
  uncertainty : ndarray;
  reference : list string;
  filename : list string;
  encoder : list string;
  checksum : list string
}.

(** A dataset of the legacy row type: the value, a numeric uncertainty and
    four columns of strings. *)
Definition is_legacy (d : dataset) (cols : legacy_columns) : Prop :=
  exists fields,
    ds_data d = Compound fields /\
    assoc "value" fields = Some (value cols) /\
    assoc "uncertainty" fields = Some (uncertainty cols) /\
    assoc "reference" fields = Some (StrArr (reference cols)) /\
    assoc "filename" fields = Some (StrArr (filename cols)) /\
    assoc "encoder" fields = Some (StrArr (encoder cols)) /\
    assoc "checksum" fields = Some (StrArr (checksum cols)) /\
    dtype_of (uncertainty cols) <> vlen_str.

(** The file [fname] has a legacy record named [c] in the group at [p],
    and none of the names the normalization may give to a sibling is
    taken. *)
Definition candidate_at (w : world) (fname : string) (p : list string) (c : string)
    (cols : legacy_columns) : Prop :=
  Forall link_name (p ++ [c]) /\
  (exists d, object_at fname (h5_name (p ++ [c])) w = Ok (Dataset d) /\ is_legacy d cols) /\
  (forall suf, suf ∈ suffixes -> object_at fname (h5_name (p ++ [c]) +:+ suf) w = Raise KeyError).

(** The uncertainty column as doubles. *)
Definition as_float (a : ndarray) : ndarray :=
  match a with
  | IntArr l => FloatArr (map float_of_Z l)
  | _ => a
  end.

(** The dataset [d] is at [q] in the file. *)
Definition has_dataset (q : list string) (d : dataset) (hfile : h5file) : Prop :=
  get_node q (Group (root hfile)) = Some (Dataset d).

(** The root attributes of the file satisfy [R]. *)
Definition has_attrs (R : gmap string attrval -> Prop) (hfile : h5file) : Prop :=
  R (attrs hfile).

(** C6 as the specification words it: the files given besides [bad] end up
    as they do in a run that is not given [bad]. *)
Definition continues_past (bad : string) (a : args) `{Imports} (w : world) : Prop :=
  forall fname,
    fname ∈ file a -> fname <> bad ->
    files (main a w).1 !! fname =
    files (main (Args (force a) (filter (fun f => f <> bad) (file a))) w).1 !! fname.

(** What the callback of the traversal adds for one object. *)
Definition candidate (ng : string * node) : option string :=
  match ng.2 with
  | Dataset d => if (0 <? dtype_len d)%nat then Some ng.1 else None
  | Group _ => None
  end.

(** The attributes of the base record after the uncertainty was dealt
    with. *)
Definition base_attrs `{Imports} (c : string) (unc : ndarray) (i t : nat) : gmap string attrval :=
  if (1 <? len_set unc)%nat then stamp c i t
  else if any unc then
    match getitem0 unc with
    | Ok u0 => <["uncertainty" := u0]> (stamp c i t)
    | Raise _ => stamp c i t
    end
  else stamp c i t.

(** None of the names of a sibling of [c] is taken. *)
Definition free_names (c : string) (s : lstate) : Prop :=
  forall suf, suf ∈ suffixes -> assoc (c +:+ suf) s.1.1 = None.

Definition version_is (v : list Z) : gmap string attrval -> Prop :=
  fun a => a !! "version" = Some (AInts v).

(** [w'] differs from [w] at most in what was printed. *)
Definition untouched (w w' : world) : Prop :=
  files w' = files w /\ ids w' = ids w /\ ticks w' = ticks w /\ stdin w' = stdin w.

(** The rows of a column as attribute values, and [u == v] on them. *)
Definition row_values (a : ndarray) : list attrval :=
  match a with
  | IntArr l => AInt <$> l
  | FloatArr l => AFloat <$> l
  | StrArr l => AStr <$> l
  end.

Definition attr_eqb (u v : attrval) : bool :=
  match u, v with
  | AInt a, AInt b => Z.eqb a b
  | AFloat a, AFloat b => SFeqb a b
  | AStr a, AStr b => bool_decide (a = b)
  | _, _ => false
  end.

(** The names [update_prop] may write to in the group of the record [c]. *)
Definition touched_names (c : string) : list string :=
  c :: ((fun suf => c +:+ suf) <$> suffixes).

(** The record [c] in the group at [p] has been normalized: the objects
    at the names of the record and of its siblings are those [update_prop]
    made of the legacy columns [cols], from the stage [s] of the group and
    of the counters. *)
Definition normalized_with `{Imports} (w : world) (fname : string) (p : list string) (c : string)
    (cols : legacy_columns) (s : lstate) : Prop :=
  Forall link_name (p ++ [c]) /\
  free_names c s /\
  forall k, k ∈ touched_names c ->
    object_at fname (h5_name (p ++ [k])) w =
    of_option KeyError
      (assoc k (normalized c (value cols) (uncertainty cols) (as_float (uncertainty cols))
                  (reference cols) (filename cols) (encoder cols) (checksum cols) s).1.1).

Definition normalized_at `{Imports} (w : world) (fname : string) (p : list string) (c : string)
    (cols : legacy_columns) : Prop :=
  exists s, normalized_with w fname p c cols s.

(** A legacy record to normalize: the group, the name, the columns. *)
Definition record_path (r : list string * string * legacy_columns) : list string :=
  r.1.1 ++ [r.1.2].

(** The file the closure [t] binds. *)
Definition task_file (t : task) : string :=
  match t with
  | add_id fname | update_props fname _ | update_ver fname => fname
  end.

(** The file [fname] is [o]: a file, or none. *)
Definition file_is (fname : string) (o : option h5file) (w : world) : Prop :=
  files w !! fname = o.

(** What [input] prints before it reads. *)
Definition prompt : string := "Continue with changes? [yes/no] ".

(** The line [collect_tasks] prints for a file that is up to date. *)
Definition up_to_date_line `{Imports} (w : world) (fname : string) : string :=
  fname +:+ ": Up to date (" +:+
  match get_file_version fname w with
  | Ok file_ver => join "." (map str file_ver)
  | Raise _ => ""
  end +:+ ")".

(** An answer that lets the run go on. *)
Definition is_yes (line : string) : bool := bool_decide (lower line ∈ ["y"; "yes"]).

(** The six columns [update_props] reads of a record. *)
Definition legacy_fields : list string :=
  ["uncertainty"; "reference"; "filename"; "encoder"; "checksum"; "value"].

(** The tasks planned for a file bind that file, and the files planned are
    among those given. *)
Definition bound_to (filenames : list string) (tasks : list (string * list task)) : Prop :=
  Forall (fun ft => ft.1 ∈ filenames /\ Forall (fun t => task_file t = ft.1) ft.2) tasks.

(** A dataset [update_props] cannot read as a legacy record: its row type
    is simple, or lacks one of the six columns. *)
Definition lacks_column (d : dataset) : Prop :=
  match ds_data d with
  | Simple _ => True
  | Compound fields => exists field, field ∈ legacy_fields /\ assoc field fields = None
  end.

(** Whether [update_props] makes the sibling of suffix [suf] of a legacy
    record with the columns [cols]. *)
Definition calls_for (cols : legacy_columns) (suf : string) : bool :=
  if decide (suf = ".uncertainty") then (1 <? len_set (uncertainty cols))%nat
  else if decide (suf = ".reference") then any (StrArr (reference cols))
  else if decide (suf = ".filename") then any (StrArr (filename cols))
  else if decide (suf = ".encoder") then any (StrArr (encoder cols))
  else if decide (suf = ".checksum") then any (StrArr (checksum cols))
  else false.

(** The stage [s] of a group in which the record [c] was replaced by its
    value column, and the names of siblings taken in [x0] are as in [x0]. *)
Definition replaced_in (c : string) (values : ndarray) (x0 : list (string * node)) (s : lstate)
    : Prop :=
  (exists a, assoc c s.1.1 = Some (Dataset (Dset (Simple values) a))) /\
  (forall suf, suf ∈ suffixes -> is_Some (assoc (c +:+ suf) x0) ->
               assoc (c +:+ suf) s.1.1 = assoc (c +:+ suf) x0).

(** The metadata is in the legacy format throughout: a well-formed tree in
    which every dataset of a compound row type is a legacy record, none of
    whose sibling names is taken. *)
Definition legacy_records (w : world) (fname : string) (metadata : list (string * node)) : Prop :=
  wf_node (Group metadata) /\
  forall cs d,
    get_node cs (Group metadata) = Some (Dataset d) -> (0 < dtype_len d)%nat ->
    exists p c cols, "metadata" :: cs = p ++ [c] /\ candidate_at w fname p c cols.

(** A file the script can bring up to date: its version is a tuple of
    integers, and when that is below the target, either it has a valid
    identifier, or its metadata is in the legacy format throughout. *)
Definition upgradable `{Imports} (w : world) (fname : string) : Prop :=
  exists hfile v,
    files w !! fname = Some hfile /\
    attrs hfile !! "version" = Some (AInts v) /\
    (lexico v HDF_FF_VERSION ->
     has_valid_file_id fname w = Ok true \/
     has_valid_file_id fname w = Ok false /\
     exists metadata, assoc "metadata" (root hfile) = Some (Group metadata) /\
                      legacy_records w fname metadata).

(** [P] reads nothing of the world but the file [fname]. *)
Definition reads_only (fname : string) (P : world -> Prop) : Prop :=
  forall w w', files w !! fname = files w' !! fname -> P w -> P w'.

(** The user lets the run go on: with [--force], or by the first answer. *)
Definition consents (a : args) (w : world) : Prop :=
  force a = true \/
  exists skipped line rest,
    stdin w = skipped ++ line :: rest /\
    Forall (fun l => is_answer (lower l) = false) skipped /\
    is_yes line = true.

(** The records of [fname] that the run from [w0] to [w'] had to rewrite
    are rewritten: when the file was below the target version and had no
    valid identifier in [w0], each dataset of its metadata that had a
    compound row type is normalized in [w']. *)
Definition records_rewritten `{Imports} (w0 w' : world) (fname : string) : Prop :=
  forall hfile v metadata cs d,
    files w0 !! fname = Some hfile ->
    attrs hfile !! "version" = Some (AInts v) ->
    lexico v HDF_FF_VERSION ->
    has_valid_file_id fname w0 = Ok false ->
    assoc "metadata" (root hfile) = Some (Group metadata) ->
    get_node cs (Group metadata) = Some (Dataset d) ->
    (0 < dtype_len d)%nat ->
    exists p c cols, "metadata" :: cs = p ++ [c] /\ is_legacy d cols /\
                     normalized_at w' fname p c cols.

(** The second loop of [main]: run the tasks, file by file. *)
Definition run_all_tasks `{Imports} (tasks : list (string * list task)) : M unit :=
  for_each (fun ft : string * list task =>
              bind (print ("Processing " +:+ ft.1 +:+ " "))
                (fun _ => bind (for_each call ft.2) (fun _ => print "done"))) tasks.

(** ** A library instance and files to run the script on *)
Module Sample.

Definition hex_digit (c : ascii) : bool :=
  let n := nat_of_ascii c in
  ((48 <=? n) && (n <=? 57) || (97 <=? n) && (n <=? 102) || (65 <=? n) && (n <=? 70))%nat.

(** Groups of hexadecimal digits of the given lengths, separated by dashes. *)
Fixpoint hex_groups (groups : list nat) (s : list ascii) : bool :=
  match groups with
  | [] => false
  | [g] => bool_decide (length s = g) && forallb hex_digit s
  | g :: rest =>
      bool_decide (length (take g s) = g) && forallb hex_digit (take g s) &&
      match drop g s with
      | c :: s' => bool_decide (c = "-"%char) && hex_groups rest s'
      | [] => false
      end
  end.

(** Modelled from the spec: [nix.util.is_uuid] is not part of the sources
    at hand; a syntactically valid UUID is taken to be a string of the
    form 8-4-4-4-12 in hexadecimal digits. *)
Definition canonical_uuid (v : attrval) : bool :=
  match v with
  | AStr s => hex_groups [8; 4; 4; 4; 12]%nat (String.list_ascii_of_string s)
  | _ => false
  end.

(** Identifiers by a counter, a clock that advances by one second at each
    reading, version 1.2.0 as the target. *)
#[global] Instance lib : Imports := {|
  HDF_FF_VERSION := [1; 2; 0];
  is_uuid := canonical_uuid;
  create_id := fun n =>
    "00000000-0000-4000-8000-00000000" +:+ (if (n <? 10)%nat then "000" else "00") +:+ pretty n;
  now_int := fun n => 1600000000 + Z.of_nat n;
  time_to_str := fun t => pretty t;
  numpy_cast := fun _ _ => Raise ValueError
|}.

Definition zero : spec_float := S754_zero false.
Definition one : spec_float := S754_finite false 4503599627370496 (-52).
Definition two : spec_float := S754_finite false 4503599627370496 (-51).

(** A legacy record of three rows. *)
Definition legacy (uncertainty : ndarray) (reference : list string) : node :=
  Dataset (Dset (Compound [("value", IntArr [10; 20; 30]);
                           ("uncertainty", uncertainty);
                           ("reference", StrArr reference);
                           ("filename", StrArr [""; ""; ""]);
                           ("encoder", StrArr [""; ""; ""]);
                           ("checksum", StrArr [""; ""; ""])])
             {["entity_id" := AStr "legacy"]}).

Definition columns (uncertainty : ndarray) (reference : list string) : legacy_columns :=
  Columns (IntArr [10; 20; 30]) uncertainty reference [""; ""; ""] [""; ""; ""] [""; ""; ""].

Definition section_members : list (string * node) :=
  [("zeros", legacy (FloatArr [zero; zero; zero]) [""; "a"; ""]);
   ("fives", legacy (IntArr [5; 5; 5]) [""; ""; ""]);
   ("mixed", legacy (IntArr [1; 2; 2]) [""; ""; ""]);
   ("plain", Dataset (Dset (Simple (IntArr [1])) ∅))].

Definition metadata : list (string * node) := [("session", Group section_members)].

Definition tree : list (string * node) := [("metadata", Group metadata); ("data", Group [])].

(** A file of version 1.1.0 without identifier. *)
Definition legacy_file : h5file := H5File {["version" := AInts [1; 1; 0]]} tree.

(** The same, with a valid identifier. *)
Definition stale_file : h5file :=
  H5File (<["id" := AStr "4a6e8483-0a9a-464d-bdd9-b39818334bcd"]> {["version" := AInts [1; 1; 0]]})
    tree.

(** The same, with an empty identifier. *)
Definition blank_id_file : h5file :=
  H5File (<["id" := AStr ""]> {["version" := AInts [1; 1; 0]]}) tree.

(** An upgraded file. *)
Definition current_file : h5file :=
  H5File (<["id" := AStr "4a6e8483-0a9a-464d-bdd9-b39818334bcd"]> {["version" := AInts [1; 2; 0]]})
    [("metadata", Group []); ("data", Group [])].

(** A file without version attribute. *)
Definition headless_file : h5file := H5File ∅ tree.

(** The legacy file after a record [late] was added to its section. *)
Definition late : dataset :=
  Dset (Compound [("value", IntArr [7]); ("uncertainty", FloatArr [zero]);
                  ("reference", StrArr ["r"]); ("filename", StrArr [""]);
                  ("encoder", StrArr [""]); ("checksum", StrArr [""])]) ∅.

Definition later_file : h5file :=
  H5File {["version" := AInts [1; 1; 0]]}
    [("metadata", Group [("session", Group (section_members ++ [("late", Dataset late)]))]);
     ("data", Group [])].

Definition w_later : world := World {["old.nix" := later_file]} 0 0 [] [].

Definition disk : gmap string h5file :=
  {["old.nix" := legacy_file; "stale.nix" := stale_file; "blank.nix" := blank_id_file;
    "new.nix" := current_file; "bad.nix" := headless_file]}.

Definition w0 : world := World disk 0 0 [] [].

(** The files on disk, and lines waiting on the standard input. *)
Definition w_asked (lines : list string) : world := World disk 0 0 [] lines.

(** A file of version 1.1.0 with nothing in it. *)
Definition bare_file : h5file := H5File {["version" := AInts [1; 1; 0]]} [].

Definition w_bare : world := World {["bare.nix" := bare_file]} 0 0 [] [].

(** A legacy record beside a dataset that has the name of its sibling. *)
Definition crowded_file : h5file :=
  H5File {["version" := AInts [1; 1; 0]]}
    [("metadata",
      Group [("session",
              Group [("mixed", legacy (IntArr [1; 2; 2]) [""; "b"; ""]);
                     ("mixed.uncertainty", Dataset (Dset (Simple (IntArr [0])) ∅))])])].

Definition w_crowded : world := World {["crowded.nix" := crowded_file]} 0 0 [] [].

(** The legacy records of [legacy_file]. *)
Definition records : list (list string * string * legacy_columns) :=
  [(["metadata"; "session"], "zeros", columns (FloatArr [zero; zero; zero]) [""; "a"; ""]);
   (["metadata"; "session"], "fives", columns (IntArr [5; 5; 5]) [""; ""; ""]);
   (["metadata"; "session"], "mixed", columns (IntArr [1; 2; 2]) [""; ""; ""])].

End Sample.

(** * Lemmas

    ** Path strings *)
Section path_strings.
Local Close Scope Z_scope.
Lemma append_cons c (s t : string) : String c s +:+ t = String c (s +:+ t).
Proof. reflexivity. Qed.

Lemma append_nil_l (s : string) : "" +:+ s = s.
Proof. reflexivity. Qed.

Lemma append_nil_r (s : string) : s +:+ "" = s.
Proof. induction s as [|c s IH]; [done|]. by rewrite append_cons, IH. Qed.

Lemma append_assoc (a b c : string) : (a +:+ b) +:+ c = a +:+ (b +:+ c).
Proof. induction a as [|x a IH]; [done|]. by rewrite !append_cons, IH. Qed.

Lemma split_nonempty sep s : split sep s <> [].
Proof. induction s as [|c s IH]; simpl; [done|]. case_decide; [done|]. by destruct (split sep s). Qed.

Lemma split_app_noslash a s :
  has_slash a = false ->
  split "/" (a +:+ s) =
    match split "/" s with
    | h :: t => (a +:+ h) :: t
    | [] => []
    end.
Proof.
  induction a as [|c a IH]; intros Ha.
  - rewrite append_nil_l. by destruct (split "/" s).
  - simpl in Ha. apply orb_false_iff in Ha as [Hc Ha]. apply bool_decide_eq_false in Hc.
    rewrite append_cons. simpl.
    case_decide; [done|]. rewrite (IH Ha). pose proof (split_nonempty "/" s).
    by destruct (split "/" s).
Qed.

Lemma split_noslash a : has_slash a = false -> split "/" a = [a].
Proof.
  intros Ha. rewrite <-(append_nil_r a) at 1. rewrite (split_app_noslash _ _ Ha). simpl.
  by rewrite append_nil_r.
Qed.

Lemma h5_name_app p q : h5_name (p ++ q) = h5_name p +:+ h5_name q.
Proof.
  induction p as [|c p IH]; simpl; [done|]. by rewrite IH, !append_assoc.
Qed.

(** [name + suffix] names the member whose own name has the suffix appended. *)
Lemma h5_name_suffix p c suf : h5_name (p ++ [c]) +:+ suf = h5_name (p ++ [c +:+ suf]).
Proof.
  rewrite !h5_name_app. simpl. by rewrite !append_nil_r, !append_assoc.
Qed.

Lemma split_h5_name cs :
  Forall link_name cs ->
  split "/" (h5_name cs) = match cs with [] => [""] | _ => "" :: cs end.
Proof.
  induction 1 as [|c cs [_ Hc] Hcs IH]; simpl; [done|].
  rewrite ?append_cons, ?append_nil_l.
  rewrite (split_app_noslash _ _ Hc), IH. destruct cs; simpl; by rewrite ?append_nil_r.
Qed.

Lemma resolve_h5_name cs : Forall link_name cs -> resolve (h5_name cs) = cs.
Proof.
  intros Hcs. unfold resolve. rewrite (split_h5_name _ Hcs).
  assert (filter (fun c => is_component c = true) cs = cs) as Hfil.
  { induction Hcs as [|c cs [Hc _] _ IH]; [done|]. rewrite filter_cons_True by done. by rewrite IH. }
  destruct cs; [done|]. rewrite filter_cons_False by (by simpl). done.
Qed.

Lemma last_split_h5_name p c :
  Forall link_name (p ++ [c]) -> getitem_last (split "/" (h5_name (p ++ [c]))) = Ok c.
Proof.
  intros Hcs. rewrite (split_h5_name _ Hcs). unfold getitem_last.
  destruct (p ++ [c]) eqn:E; [by destruct p|]. rewrite <-E.
  change ("" :: p ++ [c]) with (("" :: p) ++ [c]). by rewrite last_snoc.
Qed.

Lemma has_slash_app a b : has_slash (a +:+ b) = has_slash a || has_slash b.
Proof. induction a as [|c a IH]; [done|]. rewrite append_cons. simpl. by rewrite IH, orb_assoc. Qed.

Lemma link_name_suffix c suf :
  link_name c -> has_slash suf = false -> suf <> "" -> link_name (c +:+ suf).
Proof.
  intros [Hc Hs] Hsuf Hne. split.
  - unfold is_component. destruct c as [|x c]; [done|].
    rewrite andb_true_iff, !negb_true_iff, !bool_decide_eq_false.
    rewrite append_cons. split; [done|]. intros E. injection E as _ E.
    destruct c; [by rewrite append_nil_l in E|by rewrite append_cons in E].
  - by rewrite has_slash_app, Hs, Hsuf.
Qed.

End path_strings.

(** ** Members of groups and the tree *)
Section trees.
Local Close Scope Z_scope.
Local Open Scope res_scope.

Section assoc.
Context {A : Type}.
Implicit Types (l r : list (string * A)) (k : string) (v : A).

Lemma assoc_app k l r :
  assoc k (l ++ r) = match assoc k l with Some v => Some v | None => assoc k r end.
Proof. induction l as [|[k' v'] l IH]; simpl; [done|]. by case_decide. Qed.

Lemma assoc_remove_eq k l : assoc k (assoc_remove k l) = None.
Proof. induction l as [|[k' v'] l IH]; simpl; [done|]. case_decide; simpl; [done|]. by case_decide. Qed.

Lemma assoc_remove_ne k k' l : k <> k' -> assoc k' (assoc_remove k l) = assoc k' l.
Proof.
  intros Hne. induction l as [|[k0 v0] l IH]; simpl; [done|].
  repeat (case_decide; simpl); subst; congruence.
Qed.

Lemma assoc_replace_eq k v l : is_Some (assoc k l) -> assoc k (assoc_replace k v l) = Some v.
Proof.
  induction l as [|[k0 v0] l IH]; simpl; [by intros [? ?]|].
  repeat (case_decide; simpl); subst; try congruence. auto.
Qed.

Lemma assoc_replace_ne k k' v l : k <> k' -> assoc k' (assoc_replace k v l) = assoc k' l.
Proof.
  intros Hne. induction l as [|[k0 v0] l IH]; simpl; [done|].
  repeat (case_decide; simpl); subst; congruence.
Qed.

Lemma assoc_replace_id k v l : assoc k l = Some v -> assoc_replace k v l = l.
Proof.
  induction l as [|[k0 v0] l IH]; simpl; [done|].
  case_decide; subst; [congruence|]. intros ?. f_equal. auto.
Qed.

Lemma assoc_replace_replace k v1 v2 l :
  assoc_replace k v2 (assoc_replace k v1 l) = assoc_replace k v2 l.
Proof.
  induction l as [|[k0 v0] l IH]; simpl; [done|].
  repeat (case_decide; simpl); subst; congruence.
Qed.

Lemma assoc_replace_snoc k v0 v l :
  assoc k l = None -> assoc_replace k v (l ++ [(k, v0)]) = l ++ [(k, v)].
Proof.
  induction l as [|[k1 v1] l IH]; simpl.
  - by rewrite decide_True.
  - case_decide; [done|]. intros ?. f_equal. auto.
Qed.

Lemma assoc_snoc_eq k v l : assoc k l = None -> assoc k (l ++ [(k, v)]) = Some v.
Proof. intros E. rewrite assoc_app, E. simpl. by rewrite decide_True. Qed.

Lemma assoc_snoc_ne k k' v l : k <> k' -> assoc k' (l ++ [(k, v)]) = assoc k' l.
Proof. intros Hne. rewrite assoc_app. destruct (assoc k' l); [done|]. simpl. by rewrite decide_False. Qed.
End assoc.

Implicit Types (p q : list string) (ms x : list (string * node)).

Lemma get_node_members p ms x :
  get_node p (Group ms) = Some (Group x) <-> members_at p ms = Some x.
Proof.
  revert ms. induction p as [|c p IH]; intros ms; simpl.
  - split; congruence.
  - destruct (assoc c ms) as [[sub|d]|]; [apply IH| |done].
    destruct p; simpl; split; congruence.
Qed.

Lemma get_node_snoc p c ms x :
  members_at p ms = Some x -> get_node (p ++ [c]) (Group ms) = assoc c x.
Proof.
  revert ms. induction p as [|c' p IH]; intros ms; simpl.
  - intros [= ->]. by destruct (assoc c x).
  - destruct (assoc c' ms) as [[sub|d]|]; [apply IH|done..].
Qed.

Lemma members_at_graft p ms x x' :
  members_at p ms = Some x -> members_at p (graft p x' ms) = Some x'.
Proof.
  revert ms. induction p as [|c p IH]; intros ms; simpl; [done|].
  destruct (assoc c ms) as [[sub|d]|] eqn:E; [|done..]. intros Hx.
  rewrite assoc_replace_eq by (by rewrite E). eauto.
Qed.

Lemma graft_graft p ms x x1 x2 :
  members_at p ms = Some x -> graft p x2 (graft p x1 ms) = graft p x2 ms.
Proof.
  revert ms. induction p as [|c p IH]; intros ms; simpl; [done|].
  destruct (assoc c ms) as [[sub|d]|] eqn:E; [|done..]. intros Hx.
  rewrite assoc_replace_eq by (by rewrite E).
  by rewrite assoc_replace_replace, (IH _ Hx).
Qed.

Lemma graft_id p ms x : members_at p ms = Some x -> graft p x ms = ms.
Proof.
  revert ms. induction p as [|c p IH]; intros ms; simpl; [congruence|].
  destruct (assoc c ms) as [[sub|d]|] eqn:E; [|done..]. intros Hx.
  rewrite (IH _ Hx). by apply assoc_replace_id.
Qed.

Lemma del_node_snoc p c ms x :
  members_at p ms = Some x -> is_Some (assoc c x) ->
  del_node (p ++ [c]) (Group ms) = Some (Group (graft p (assoc_remove c x) ms)).
Proof.
  revert ms. induction p as [|c' p IH]; intros ms; simpl.
  - intros [= ->] [? ->]. done.
  - destruct (assoc c' ms) as [[sub|d]|] eqn:E; [|done..]. intros Hx Hc.
    rewrite (IH _ Hx Hc). by destruct (p ++ [c]) eqn:E'; [destruct p|].
Qed.

Lemma set_node_snoc p c y ms x :
  members_at p ms = Some x -> is_Some (assoc c x) ->
  set_node (p ++ [c]) y (Group ms) = Some (Group (graft p (assoc_replace c y x) ms)).
Proof.
  revert ms. induction p as [|c' p IH]; intros ms; simpl.
  - intros [= ->] [? ->]. done.
  - destruct (assoc c' ms) as [[sub|d]|] eqn:E; [|done..]. intros Hx Hc.
    by rewrite (IH _ Hx Hc).
Qed.

Lemma link_node_snoc p c y ms x :
  members_at p ms = Some x -> assoc c x = None ->
  link_node (p ++ [c]) y (Group ms) = Ok (Group (graft p (x ++ [(c, y)]) ms)).
Proof.
  revert ms. induction p as [|c' p IH]; intros ms; simpl.
  - intros [= ->] ->. done.
  - destruct (assoc c' ms) as [[sub|d]|] eqn:E; [|done..]. intros Hx Hc.
    rewrite (IH _ Hx Hc). by destruct (p ++ [c]) eqn:E'; [destruct p|].
Qed.

Lemma require_group_exists p ms x :
  members_at p ms = Some x -> require_group p (Group ms) = Ok (Group ms).
Proof.
  revert ms. induction p as [|c p IH]; intros ms; simpl; [done|].
  destruct (assoc c ms) as [[sub|d]|] eqn:E; [|done..]. intros Hx.
  rewrite (IH _ Hx). simpl. by rewrite (assoc_replace_id _ _ _ E).
Qed.

End trees.

(** ** Writes to a file, statement by statement *)
Section statements.
Local Close Scope Z_scope.
Local Open Scope res_scope.
Local Open Scope M_scope.

Implicit Types (p q : list string) (ms x : list (string * node)) (hfile : h5file).

(** File level *)
Lemma delitem_ok path p c hfile x :
  resolve path = p ++ [c] -> members_at p (root hfile) = Some x -> is_Some (assoc c x) ->
  delitem path hfile = Ok (H5File (attrs hfile) (graft p (assoc_remove c x) (root hfile))).
Proof.
  intros Hp Hx Hc. unfold delitem. by rewrite Hp, (del_node_snoc _ _ _ _ Hx Hc).
Qed.

Lemma set_attr_ok path key v p c hfile x d :
  resolve path = p ++ [c] -> members_at p (root hfile) = Some x -> assoc c x = Some (Dataset d) ->
  set_attr path key v hfile =
    Ok (H5File (attrs hfile)
          (graft p (assoc_replace c (Dataset (Dset (ds_data d) (<[key := v]> (ds_attrs d)))) x)
             (root hfile))).
Proof.
  intros Hp Hx Hc. unfold set_attr. rewrite Hp, (get_node_snoc _ _ _ _ Hx), Hc.
  by rewrite (set_node_snoc _ _ _ _ _ Hx) by (by rewrite Hc).
Qed.

Lemma link_ok path d p c hfile x :
  resolve path = p ++ [c] -> members_at p (root hfile) = Some x -> assoc c x = None ->
  link path d hfile = Ok (H5File (attrs hfile) (graft p (x ++ [(c, Dataset d)]) (root hfile))).
Proof.
  intros Hp Hx Hc. unfold link. by rewrite Hp, (link_node_snoc _ _ _ _ _ Hx Hc).
Qed.

Lemma make_groups_ok p hfile x :
  members_at p (root hfile) = Some x -> make_groups p hfile = Ok hfile.
Proof.
  intros Hx. unfold make_groups. rewrite (require_group_exists _ _ _ Hx). by destruct hfile.
Qed.

(** Statements *)
Lemma bind_ok {A B} (m : M A) (k : A -> M B) w w' a :
  m w = (w', Ok a) -> bind m k w = k a w'.
Proof. unfold bind. by intros ->. Qed.

Lemma bind_raise {A B} (m : M A) (k : A -> M B) w w' e :
  m w = (w', Raise e) -> bind m k w = (w', Raise e).
Proof. unfold bind. by intros ->. Qed.

Lemma modify_ins fname f fs i t o inp hfile hfile' :
  f hfile = Ok hfile' ->
  modify fname f (World (<[fname := hfile]> fs) i t o inp) =
    (World (<[fname := hfile']> fs) i t o inp, Ok tt).
Proof.
  intros Hf. unfold modify, bind, reading, lift, open_r, put_file. simpl.
  rewrite lookup_insert_eq. simpl. rewrite Hf. simpl. by rewrite insert_insert_eq.
Qed.

Lemma modify_raise fname f fs i t o inp hfile e :
  f hfile = Raise e ->
  modify fname f (World (<[fname := hfile]> fs) i t o inp) =
    (World (<[fname := hfile]> fs) i t o inp, Raise e).
Proof.
  intros Hf. unfold modify, bind, reading, lift, open_r, put_file. simpl.
  rewrite lookup_insert_eq. simpl. by rewrite Hf.
Qed.

Lemma open_a_ins fname fs i t o inp hfile :
  open_a fname (World (<[fname := hfile]> fs) i t o inp) =
    (World (<[fname := hfile]> fs) i t o inp, Ok hfile).
Proof. unfold open_a. simpl. by rewrite lookup_insert_eq. Qed.

Section create.
Context `{Imports}.

Lemma create_dataset_ok fname fs i t o inp hfile p c x dt data arr :
  Forall link_name (p ++ [c]) ->
  members_at p (root hfile) = Some x ->
  assoc c x = None ->
  asarray _ dt data = Ok arr ->
  (dt = vlen_str -> exists l, arr = StrArr l) ->
  create_dataset fname (h5_name (p ++ [c])) dt data (World (<[fname := hfile]> fs) i t o inp) =
    (World (<[fname := H5File (attrs hfile)
                          (graft p (x ++ [(c, Dataset (Dset (Simple arr) ∅))]) (root hfile))]> fs)
       i t o inp, Ok tt).
Proof.
  intros Hwf Hx Hc Harr Hstr. unfold create_dataset.
  rewrite (resolve_h5_name _ Hwf), removelast_last.
  erewrite bind_ok by (apply modify_ins, (make_groups_ok _ _ _ Hx)).
  rewrite Harr. erewrite bind_ok by reflexivity.
  assert (link (h5_name (p ++ [c])) (Dset (Simple arr) ∅) hfile =
          Ok (H5File (attrs hfile) (graft p (x ++ [(c, Dataset (Dset (Simple arr) ∅))]) (root hfile))))
    as Hlink by (apply link_ok; auto using resolve_h5_name).
  destruct dt; try (by apply modify_ins).
  destruct (Hstr eq_refl) as [l ->]. by apply modify_ins.
Qed.

Lemma create_property_ok fname fs i t o inp hfile p c x dt data arr :
  Forall link_name (p ++ [c]) ->
  members_at p (root hfile) = Some x ->
  assoc c x = None ->
  asarray _ dt data = Ok arr ->
  (dt = vlen_str -> exists l, arr = StrArr l) ->
  create_property fname (h5_name (p ++ [c])) dt data (World (<[fname := hfile]> fs) i t o inp) =
    (World (<[fname := H5File (attrs hfile)
                          (graft p (x ++ [(c, Dataset (Dset (Simple arr) (stamp c i t)))])
                             (root hfile))]> fs)
       (S i) (S (S t)) o inp, Ok tt).
Proof.
  intros Hwf Hx Hc Harr Hstr. unfold create_property.
  erewrite bind_ok by (by eapply create_dataset_ok).
  rewrite (last_split_h5_name _ _ Hwf). erewrite bind_ok by reflexivity.
  pose proof (resolve_h5_name _ Hwf) as Hres.
  pose proof (members_at_graft p (root hfile) x) as Hg.
  repeat
    (erewrite bind_ok;
     [|first [ reflexivity
             | apply modify_ins; eapply set_attr_ok;
               [exact Hres| apply Hg, Hx | apply assoc_snoc_eq, Hc] ]];
     simpl; rewrite ?(graft_graft _ _ _ _ _ Hx), ?(assoc_replace_snoc _ _ _ _ Hc)).
  erewrite modify_ins.
  2:{ eapply set_attr_ok; [exact Hres| apply Hg, Hx | apply assoc_snoc_eq, Hc]. }
  simpl. by rewrite ?(graft_graft _ _ _ _ _ Hx), ?(assoc_replace_snoc _ _ _ _ Hc).
Qed.
End create.

End statements.

(** ** The loop body of [update_props] on a legacy record *)
Section loop_body.
Local Close Scope Z_scope.
Local Open Scope res_scope.
Local Open Scope M_scope.

Implicit Types (p q : list string) (ms x : list (string * node)) (hfile : h5file) (s : lstate).

Lemma suffix_ok suf : suf ∈ suffixes -> has_slash suf = false /\ suf <> "".
Proof.
  unfold suffixes. rewrite !elem_of_cons, elem_of_nil.
  intros [->|[->|[->|[->|[->|[]]]]]]; by split.
Qed.

Lemma suffix_members :
  ".uncertainty" ∈ suffixes /\ ".reference" ∈ suffixes /\ ".filename" ∈ suffixes /\
  ".encoder" ∈ suffixes /\ ".checksum" ∈ suffixes.
Proof. unfold suffixes. rewrite !elem_of_cons. tauto. Qed.

Lemma sibling_ne c suf : suf <> "" -> c +:+ suf <> c.
Proof.
  intros Hne E. apply Hne. rewrite <-(append_nil_r c) in E at 2.
  by apply (inj (String.append c)) in E.
Qed.

Lemma sibling_inj c suf suf' : suf <> suf' -> c +:+ suf <> c +:+ suf'.
Proof. intros Hne E. by apply Hne, (inj (String.append c)). Qed.

Section normalize.
Context `{Imports}.
Context (fname : string) (fs : gmap string h5file) (a : gmap string attrval)
        (root0 x0 : list (string * node)) (p : list string) (c : string) (o inp : list string).
Hypothesis Hx0 : members_at p root0 = Some x0.
Hypothesis Hwf : Forall link_name (p ++ [c]).

Local Abbreviation lw := (local_world fname fs a root0 p o inp).

Lemma link_name_sibling suf : suf ∈ suffixes -> Forall link_name (p ++ [c +:+ suf]).
Proof.
  intros [? ?]%suffix_ok. destruct (proj1 (Forall_app _ _ _) Hwf) as [Hp Hc]. apply Forall_app. split; [done|].
  rewrite Forall_singleton in Hc. apply Forall_singleton. by apply link_name_suffix.
Qed.

Lemma create_property_local c' x i t dt data arr :
  Forall link_name (p ++ [c']) ->
  assoc c' x = None ->
  asarray _ dt data = Ok arr ->
  (dt = vlen_str -> exists l, arr = StrArr l) ->
  create_property fname (h5_name (p ++ [c'])) dt data (lw (x, i, t)) =
    (lw (x ++ [(c', new_record c' arr i t)], S i, S (S t)), Ok tt).
Proof.
  intros Hc' Hfree Harr Hstr. unfold local_world. simpl.
  erewrite create_property_ok; eauto using members_at_graft.
  simpl. by rewrite (graft_graft _ _ _ _ _ Hx0).
Qed.

Lemma set_attr_local path key v x i t d :
  resolve path = p ++ [c] ->
  assoc c x = Some (Dataset d) ->
  modify fname (set_attr path key v) (lw (x, i, t)) =
    (lw (set_member_attr c key v (x, i, t)), Ok tt).
Proof.
  intros Hp Hc. unfold local_world, set_member_attr. rewrite Hc. simpl.
  erewrite modify_ins; [|eapply set_attr_ok; eauto using members_at_graft].
  simpl. by rewrite (graft_graft _ _ _ _ _ Hx0).
Qed.

Lemma sibling_step suf l s :
  suf ∈ suffixes ->
  assoc (c +:+ suf) s.1.1 = None ->
  (if any (StrArr l)
   then create_property fname (h5_name (p ++ [c]) +:+ suf) vlen_str (StrArr l)
   else ret tt) (lw s) =
    (lw (when (any (StrArr l)) (add_sibling c suf (StrArr l)) s), Ok tt).
Proof.
  intros Hsuf Hfree. destruct s as [[x i] t]. unfold when. destruct (any (StrArr l)); [|done].
  rewrite h5_name_suffix. apply create_property_local; eauto using link_name_sibling.
Qed.

(** Freedom of the sibling names along the way *)
Lemma free_when (b : bool) f k s :
  (assoc k s.1.1 = None -> assoc k (f s).1.1 = None) ->
  assoc k s.1.1 = None -> assoc k (when b f s).1.1 = None.
Proof. unfold when. destruct b; auto. Qed.

Lemma free_add_sibling suf suf' arr s :
  suf <> suf' ->
  assoc (c +:+ suf) s.1.1 = None -> assoc (c +:+ suf) (add_sibling c suf' arr s).1.1 = None.
Proof.
  destruct s as [[x i] t]. simpl. intros Hne Hfree.
  rewrite assoc_snoc_ne; [done|]. by apply sibling_inj.
Qed.

Lemma free_set_member_attr suf key v s :
  suf <> "" ->
  assoc (c +:+ suf) s.1.1 = None -> assoc (c +:+ suf) (set_member_attr c key v s).1.1 = None.
Proof.
  destruct s as [[x i] t]. simpl. intros Hne Hfree.
  destruct (assoc c x) as [[?|d]|]; simpl; try done.
  rewrite assoc_replace_ne; [done|]. intros E. by apply (sibling_ne c suf).
Qed.

Lemma free_replace_base suf values s :
  suf <> "" ->
  assoc (c +:+ suf) s.1.1 = None -> assoc (c +:+ suf) (replace_base c values s).1.1 = None.
Proof.
  destruct s as [[x i] t]. simpl. intros Hne Hfree.
  assert (c <> c +:+ suf) by (intros E; by apply (sibling_ne c suf)).
  rewrite assoc_snoc_ne by done. by rewrite assoc_remove_ne.
Qed.

Lemma free_split_uncertainty suf unc uarr s :
  suf <> "" -> suf <> ".uncertainty" ->
  assoc (c +:+ suf) s.1.1 = None -> assoc (c +:+ suf) (split_uncertainty c unc uarr s).1.1 = None.
Proof.
  intros Hne Hne' Hfree. unfold split_uncertainty.
  destruct (1 <? len_set unc)%nat; [by apply free_add_sibling|].
  destruct (any unc); [|done]. destruct (getitem0 unc); [|done].
  by apply free_set_member_attr.
Qed.

Lemma any_getitem0 arr : any arr = true -> exists u0, getitem0 arr = Ok u0.
Proof. destruct arr as [[|? ?]|[|? ?]|[|? ?]]; simpl; try done; eauto. Qed.

Lemma base_of_replace values s :
  assoc c (replace_base c values s).1.1 = Some (new_record c values s.1.2 s.2).
Proof. destruct s as [[x i] t]. simpl. apply assoc_snoc_eq, assoc_remove_eq. Qed.

Lemma uncertainty_step propname unc uarr values s0 :
  propname = h5_name (p ++ [c]) ->
  asarray _ float64 unc = Ok uarr ->
  assoc (c +:+ ".uncertainty") s0.1.1 = None ->
  let s := replace_base c values s0 in
  (if (1 <? len_set unc)%nat then
     create_property fname (propname +:+ ".uncertainty") float64 unc
   else if any unc then
     u0 <- lift (getitem0 unc);;
     modify fname (set_attr propname "uncertainty" u0)
   else ret tt) (lw s) = (lw (split_uncertainty c unc uarr s), Ok tt).
Proof.
  intros -> Harr Hfree s. unfold split_uncertainty.
  assert (assoc (c +:+ ".uncertainty") s.1.1 = None) as Hf by (by apply free_replace_base).
  pose proof (base_of_replace values s0) as Hb. fold s in Hb.
  destruct s as [[x i] t]. simpl in Hf, Hb.
  destruct (1 <? len_set unc)%nat.
  - rewrite h5_name_suffix.
    apply create_property_local; [apply link_name_sibling, suffix_members|done..].
  - destruct (any unc) eqn:Hany; [|done].
    destruct (any_getitem0 _ Hany) as [u0 ->]. erewrite bind_ok by reflexivity.
    eapply set_attr_local; [by apply resolve_h5_name|done].
Qed.

Lemma asarray_same values : asarray _ (dtype_of values) values = Ok values.
Proof. by destruct values. Qed.

Lemma vlen_str_StrArr values : dtype_of values = vlen_str -> exists l, values = StrArr l.
Proof. destruct values; try done. eauto. Qed.

Lemma update_prop_ok d fields values unc uarr lref lfn lenc lchk i t :
  assoc c x0 = Some (Dataset d) ->
  ds_data d = Compound fields ->
  assoc "uncertainty" fields = Some unc ->
  assoc "reference" fields = Some (StrArr lref) ->
  assoc "filename" fields = Some (StrArr lfn) ->
  assoc "encoder" fields = Some (StrArr lenc) ->
  assoc "checksum" fields = Some (StrArr lchk) ->
  assoc "value" fields = Some values ->
  (forall suf, suf ∈ suffixes -> assoc (c +:+ suf) x0 = None) ->
  asarray _ float64 unc = Ok uarr ->
  update_prop fname (h5_name (p ++ [c])) (lw (x0, i, t)) =
    (lw (normalized c values unc uarr lref lfn lenc lchk (x0, i, t)), Ok tt).
Proof.
  intros Hd Hdata Hunc Href Hfn Henc Hchk Hval Hfree Hfloat.
  assert (forall suf, suf ∈ suffixes -> suf <> "") as Hne by (intros ? [_ ?]%suffix_ok; done).
  destruct suffix_members as (Su & Sr & Sf & Se & Sc).
  unfold update_prop, normalized.
  unfold local_world at 1. simpl. rewrite (graft_id _ _ _ Hx0).
  erewrite bind_ok by apply open_a_ins.
  unfold getitem. simpl root. rewrite (resolve_h5_name _ Hwf).
  rewrite (get_node_snoc _ _ _ _ Hx0), Hd. simpl of_option.
  erewrite bind_ok by reflexivity.
  unfold getfield. rewrite Hdata, Hunc, Href, Hfn, Henc, Hchk, Hval. simpl of_option.
  do 6 (erewrite bind_ok by reflexivity).
  erewrite bind_ok.
  2:{ apply modify_ins. eapply delitem_ok; [by apply resolve_h5_name|exact Hx0|by rewrite Hd]. }
  simpl attrs. simpl root.
  change (World _ i t o inp) with (lw (assoc_remove c x0, i, t)).
  erewrite bind_ok.
  2:{ apply create_property_local;
        [done|apply assoc_remove_eq|apply asarray_same|apply vlen_str_StrArr]. }
  change (_ ++ _, S i, S (S t)) with (replace_base c values (x0, i, t)).
  erewrite bind_ok by (by apply uncertainty_step; auto).
  erewrite bind_ok.
  2:{ apply sibling_step; [done|].
      apply free_split_uncertainty, free_replace_base; auto. }
  erewrite bind_ok.
  2:{ apply sibling_step; [done|].
      apply free_when; [by apply free_add_sibling|].
      apply free_split_uncertainty, free_replace_base; auto. }
  erewrite bind_ok.
  2:{ apply sibling_step; [done|].
      do 2 (apply free_when; [by apply free_add_sibling|]).
      apply free_split_uncertainty, free_replace_base; auto. }
  apply sibling_step; [done|].
  do 3 (apply free_when; [by apply free_add_sibling|]).
  apply free_split_uncertainty, free_replace_base; auto.
Qed.

End normalize.

End loop_body.

(** ** The scan of the metadata *)
Section traversal.
Local Close Scope Z_scope.
Local Open Scope res_scope.

Implicit Types (p q cs : list string) (ms x : list (string * node)).

Lemma assoc_elem {A} k (v : A) l : assoc k l = Some v -> (k, v) ∈ l.
Proof.
  induction l as [|[k' v'] l IH]; simpl; [done|].
  case_decide; [intros [= ->]; subst; left|right; auto].
Qed.

Lemma elem_assoc {A} k (v : A) l : NoDup l.*1 -> (k, v) ∈ l -> assoc k l = Some v.
Proof.
  induction l as [|[k' v'] l IH]; simpl; [by intros _ ?%elem_of_nil|].
  intros [Hk Hl]%NoDup_cons [[= -> ->]|Hin]%elem_of_cons.
  - by rewrite decide_True.
  - rewrite decide_False; [auto|]. intros ->. apply Hk. apply list_elem_of_fmap. by exists (k', v).
Qed.

Lemma visit_nil name : visit name (Group []) = [].
Proof. reflexivity. Qed.

Lemma visit_cons name k c rest :
  visit name (Group ((k, c) :: rest)) =
    (name +:+ "/" +:+ k, c) :: visit (name +:+ "/" +:+ k) c ++ visit name (Group rest).
Proof. reflexivity. Qed.

Lemma visit_dataset name d : visit name (Dataset d) = [].
Proof. reflexivity. Qed.

Lemma visit_group_elem name ms y :
  y ∈ visit name (Group ms) <->
  exists k c, (k, c) ∈ ms /\ (y = (name +:+ "/" +:+ k, c) \/ y ∈ visit (name +:+ "/" +:+ k) c).
Proof.
  induction ms as [|[k c] rest IH].
  - rewrite visit_nil. split; [by intros ?%elem_of_nil|]. by intros (? & ? & ?%elem_of_nil & _).
  - rewrite visit_cons, elem_of_cons, elem_of_app, IH. split.
    + intros [->|[Hin|(k' & c' & Hin & Hy)]].
      * exists k, c. split; [left|by left].
      * exists k, c. split; [left|by right].
      * exists k', c'. split; [by right|done].
    + intros (k' & c' & [[= -> ->]|Hin]%elem_of_cons & Hy).
      * destruct Hy; auto.
      * right; right. eauto.
Qed.

Lemma wf_member k c ms : wf_node (Group ms) -> (k, c) ∈ ms -> link_name k /\ wf_node c.
Proof.
  inversion 1 as [|? _ Hl Hall]; subst. intros Hin.
  rewrite Forall_forall in Hl, Hall. split; [apply (Hl _ Hin)|apply (Hall _ Hin)].
Qed.

Lemma wf_assoc k c ms : wf_node (Group ms) -> assoc k ms = Some c -> link_name k /\ wf_node c.
Proof. intros Hwf Hk. eapply wf_member; eauto using assoc_elem. Qed.

(** What the traversal visits: the objects below the group, each once
    under its absolute name. *)
Lemma visit_elem g name y n :
  wf_node g ->
  (y, n) ∈ visit name g <->
  exists cs, cs <> [] /\ y = name +:+ h5_name cs /\ get_node cs g = Some n.
Proof.
  revert name. induction g as [ms IH|d] using node_tree_ind; intros name Hwf.
  2:{ rewrite visit_dataset. split; [by intros ?%elem_of_nil|].
      intros ([|c cs] & Hne & _ & Hget); done. }
  rewrite visit_group_elem. rewrite Forall_forall in IH. split.
  - intros (k & c & Hin & Hy). destruct (wf_member _ _ _ Hwf Hin) as [_ Hc].
    assert (assoc k ms = Some c) as Hk.
    { apply elem_assoc; [|done]. by inversion Hwf. }
    destruct Hy as [[= -> ->]|Hy].
    + exists [k]. simpl. rewrite Hk, append_nil_r. done.
    + apply (IH _ Hin) in Hy as (cs & Hne & -> & Hget); [|done].
      exists (k :: cs). simpl. rewrite Hk. split; [done|]. split; [|done].
      by rewrite !append_assoc.
  - intros ([|k cs] & Hne & -> & Hget); [done|]. simpl in Hget.
    destruct (assoc k ms) as [c|] eqn:Hk; [|done].
    pose proof (assoc_elem _ _ _ Hk) as Hin. exists k, c. split; [done|].
    destruct cs as [|k' cs'].
    + left. simpl in *. injection Hget as ->. by rewrite append_nil_r.
    + right. destruct (wf_member _ _ _ Hwf Hin) as [_ Hc].
      apply (IH _ Hin); [done|]. exists (k' :: cs'). split; [done|]. split; [|done].
      simpl. by rewrite !append_assoc.
Qed.

Lemma get_node_link_names cs g n :
  wf_node g -> get_node cs g = Some n -> Forall link_name cs /\ wf_node n.
Proof.
  revert g. induction cs as [|c cs IH]; intros g Hwf; simpl.
  - intros [= <-]. by split.
  - destruct g as [ms|d]; [|done]. destruct (assoc c ms) as [n'|] eqn:Hc; [|done].
    destruct (wf_assoc _ _ _ Hwf Hc) as [Hl Hn]. intros Hget.
    destruct (IH _ Hn Hget). split; [by constructor|done].
Qed.

Lemma h5_name_inj cs cs' :
  Forall link_name cs -> Forall link_name cs' -> h5_name cs = h5_name cs' -> cs = cs'.
Proof. intros H1 H2 E. by rewrite <-(resolve_h5_name _ H1), <-(resolve_h5_name _ H2), E. Qed.

Section scan.
Context `{Imports}.

Lemma find_props_elem l acc y :
  y ∈ fold_left (fun props ng => find_props props ng.1 ng.2) l acc <->
  y ∈ acc \/ exists d, (y, Dataset d) ∈ l /\ (0 < dtype_len d)%nat.
Proof.
  revert acc. induction l as [|[name g] l IH]; intros acc; simpl.
  - split; [auto|]. intros [?|(? & ?%elem_of_nil & _)]; done.
  - rewrite IH. unfold find_props. split.
    + intros [Hacc|(d & Hin & Hd)].
      * destruct g as [ms|d]; [auto|]. destruct (0 <? dtype_len d)%nat eqn:E; [|auto].
        apply elem_of_app in Hacc as [?|Hy]; [auto|]. apply list_elem_of_singleton in Hy as ->.
        right. exists d. split; [left|by apply Nat.ltb_lt].
      * right. exists d. split; [by right|done].
    + intros [Hacc|(d & [[= -> <-]|Hin]%elem_of_cons & Hd)].
      * left. destruct g as [ms|d]; [done|]. destruct (0 <? dtype_len d)%nat; [|done].
        apply elem_of_app. auto.
      * left. apply Nat.ltb_lt in Hd. rewrite Hd. apply elem_of_app. right. by left.
      * right. eauto.
Qed.

Lemma scan_elem sections y :
  y ∈ scan sections <->
  exists d, (y, Dataset d) ∈ visit "/metadata" sections /\ (0 < dtype_len d)%nat.
Proof.
  unfold scan. rewrite find_props_elem. split; [|auto]. by intros [?%elem_of_nil|?].
Qed.

End scan.

End traversal.

Section traversal_once.
Local Close Scope Z_scope.
Local Open Scope res_scope.

Implicit Types (p q cs : list string) (ms x : list (string * node)).

Lemma wf_group_tail kn ms : wf_node (Group (kn :: ms)) -> wf_node (Group ms).
Proof.
  inversion 1 as [|? Hnd Hl Hall]; subst. simpl in Hnd.
  apply NoDup_cons in Hnd as [_ Hnd]. apply Forall_cons in Hl as [_ Hl].
  apply Forall_cons in Hall as [_ Hall]. by constructor.
Qed.

Lemma visit_name_form name ms y :
  wf_node (Group ms) -> y ∈ (visit name (Group ms)).*1 ->
  exists k cs, k ∈ ms.*1 /\ Forall link_name (k :: cs) /\ y = name +:+ h5_name (k :: cs).
Proof.
  intros Hwf ([y' n] & -> & Hin)%list_elem_of_fmap. simpl.
  apply visit_elem in Hin as ([|k cs] & Hne & -> & Hget); [done| |done].
  exists k, cs. split; [|split; [|done]].
  - simpl in Hget. destruct (assoc k ms) as [c|] eqn:Hk; [|done].
    apply list_elem_of_fmap. exists (k, c). split; [done|by apply assoc_elem].
  - by destruct (get_node_link_names _ _ _ Hwf Hget).
Qed.

Lemma h5_name_cons k cs : h5_name (k :: cs) = "/" +:+ k +:+ h5_name cs.
Proof. reflexivity. Qed.

Lemma visit_names_NoDup g name : wf_node g -> NoDup (visit name g).*1.
Proof.
  revert name. induction g as [ms IH|d] using node_tree_ind; intros name Hwf.
  2:{ rewrite visit_dataset. constructor. }
  induction ms as [|[k c] rest IHrest].
  { rewrite visit_nil. constructor. }
  apply Forall_cons in IH as [IHc IH]. specialize (IHrest IH (wf_group_tail _ _ Hwf)).
  destruct (wf_member k c _ Hwf) as [Hk Hc]; [left|].
  assert (k ∉ rest.*1) as Hfresh.
  { inversion Hwf as [|? Hnd _ _]; subst. simpl in Hnd. by apply NoDup_cons in Hnd as [? _]. }
  assert (forall cs y, Forall link_name cs -> y ∈ (visit name (Group rest)).*1 ->
                       y <> name +:+ h5_name (k :: cs)) as Hrest.
  { intros cs y Hcs Hy E. subst y.
    apply visit_name_form in Hy as (k' & cs' & Hk' & Hl & E); [|by eapply wf_group_tail].
    apply (inj (String.append name)) in E. apply h5_name_inj in E; [|by constructor|done].
    injection E as -> _. done. }
  rewrite visit_cons, fmap_cons, fmap_app. simpl.
  apply NoDup_cons. split; [|apply NoDup_app; split; [|split]].
  - rewrite elem_of_app. intros [Hin|Hin].
    + apply list_elem_of_fmap in Hin as ([y n] & E & Hin). simpl in E.
      apply visit_elem in Hin as (cs & Hne & -> & _); [|done].
      rewrite <-(append_nil_r (name +:+ "/" +:+ k)) in E at 1.
      apply (inj (String.append _)) in E. destruct cs; [done|]. by rewrite h5_name_cons in E.
    + apply (Hrest [] _ (Forall_nil_2 _) Hin). simpl. by rewrite append_nil_r.
  - by apply IHc.
  - intros y Hy Hy'.
    apply list_elem_of_fmap in Hy as ([y0 n] & -> & Hin). simpl in Hy'.
    apply visit_elem in Hin as (cs & Hne & -> & Hget); [|done].
    destruct (get_node_link_names _ _ _ Hc Hget) as [Hcs _].
    apply (Hrest cs _ Hcs Hy'). simpl. by rewrite !append_assoc.
  - done.
Qed.

Section scan.
Context `{Imports}.

Lemma find_props_omap l acc :
  fold_left (fun props ng => find_props props ng.1 ng.2) l acc = acc ++ omap candidate l.
Proof.
  revert acc. induction l as [|[name g] l IH]; intros acc; simpl.
  - by rewrite app_nil_r.
  - rewrite IH. unfold find_props, candidate. simpl.
    destruct g as [ms|d]; [done|]. destruct (0 <? dtype_len d)%nat; [|done].
    by rewrite <-app_assoc.
Qed.

Lemma omap_candidate_sublist l : omap candidate l `sublist_of` l.*1.
Proof.
  induction l as [|[name g] l IH]; simpl; [done|].
  unfold candidate at 1. simpl. destruct g as [ms|d]; [by constructor|].
  destruct (0 <? dtype_len d)%nat; by constructor.
Qed.

Lemma scan_NoDup sections : wf_node sections -> NoDup (scan sections).
Proof.
  intros Hwf. unfold scan. rewrite find_props_omap. simpl.
  eapply sublist_NoDup; eauto using omap_candidate_sublist, visit_names_NoDup.
Qed.
End scan.

End traversal_once.

(** ** What a run leaves alone *)
Section invariants.
Local Close Scope Z_scope.
Local Open Scope res_scope.
Local Open Scope M_scope.

Implicit Types (p q t cs : list string) (ms x : list (string * node)) (hfile : h5file).

(** ** Objects that the tree operations leave alone *)

Lemma del_node_keeps t q n n' d :
  get_node q n = Some (Dataset d) -> ~ t `prefix_of` q ->
  del_node t n = Some n' -> get_node q n' = Some (Dataset d).
Proof.
  revert q n n'. induction t as [|c t IH]; intros q n n' Hq Hpre; [done|].
  destruct n as [ms|d0]; [|by destruct t].
  destruct q as [|c' q]; [done|]. simpl in Hq.
  destruct (assoc c' ms) as [m|] eqn:Hc'; [|done].
  assert (c = c' -> ~ t `prefix_of` q) as Hpre'.
  { intros -> Ht. apply Hpre. by apply prefix_cons. }
  simpl. destruct (assoc c ms) as [m0|] eqn:Hc; [|by destruct t].
  destruct t as [|c2 t].
  - intros [= <-]. simpl. destruct (decide (c = c')) as [->|Hne].
    + destruct (Hpre' eq_refl). apply prefix_nil.
    + by rewrite assoc_remove_ne, Hc'.
  - destruct (del_node (c2 :: t) m0) as [m0'|] eqn:Hdel; [|done].
    intros [= <-]. simpl. destruct (decide (c = c')) as [->|Hne].
    + rewrite assoc_replace_eq by (by rewrite Hc). simplify_eq. eapply IH; eauto.
    + by rewrite assoc_replace_ne, Hc'.
Qed.

Lemma set_node_keeps t q y n n' d d' :
  get_node q n = Some (Dataset d) -> get_node t n = Some (Dataset d') -> t <> q ->
  set_node t y n = Some n' -> get_node q n' = Some (Dataset d).
Proof.
  revert q n n'. induction t as [|c t IH]; intros q n n' Hq Ht Hne.
  - simpl in Ht. injection Ht as ->. destruct q; done.
  - destruct n as [ms|d0]; [|done]. destruct q as [|c' q]; [done|]. simpl in Hq, Ht |- *.
    destruct (assoc c' ms) as [m|] eqn:Hc'; [|done].
    destruct (assoc c ms) as [m0|] eqn:Hc; [|done].
    destruct (set_node t y m0) as [m0'|] eqn:Hset; [|done].
    intros [= <-]. simpl. destruct (decide (c = c')) as [->|Hcc].
    + rewrite assoc_replace_eq by (by rewrite Hc). simplify_eq.
      eapply IH; eauto. congruence.
    + by rewrite assoc_replace_ne, Hc'.
Qed.

Lemma link_node_keeps t q y n n' d :
  get_node q n = Some (Dataset d) ->
  link_node t y n = Ok n' -> get_node q n' = Some (Dataset d).
Proof.
  revert q n n'. induction t as [|c t IH]; intros q n n' Hq; [done|].
  destruct n as [ms|d0]; [|by destruct t].
  destruct q as [|c' q]; [done|]. simpl in Hq.
  destruct (assoc c' ms) as [m|] eqn:Hc'; [|done].
  simpl. destruct t as [|c2 t].
  - destruct (assoc c ms) eqn:Hc; [done|]. intros [= <-]. simpl.
    by rewrite assoc_app, Hc'.
  - destruct (assoc c ms) as [m0|] eqn:Hc; [|done].
    destruct (link_node (c2 :: t) y m0) as [m0'|] eqn:Hl; [|done].
    intros [= <-]. simpl. destruct (decide (c = c')) as [->|Hcc].
    + rewrite assoc_replace_eq by (by rewrite Hc). simplify_eq. eapply IH; eauto.
    + by rewrite assoc_replace_ne, Hc'.
Qed.

Lemma require_group_keeps t q n n' d :
  get_node q n = Some (Dataset d) ->
  require_group t n = Ok n' -> get_node q n' = Some (Dataset d).
Proof.
  revert q n n'. induction t as [|c t IH]; intros q n n' Hq.
  - destruct n; [|done]. by intros [= <-].
  - destruct n as [ms|d0]; [|done].
    destruct q as [|c' q]; [done|]. simpl in Hq |- *.
    destruct (assoc c' ms) as [m|] eqn:Hc'; [|done].
    destruct (assoc c ms) as [m0|] eqn:Hc.
    + destruct (require_group t m0) as [m0'|] eqn:Hl; [|done].
      intros [= <-]. simpl. destruct (decide (c = c')) as [->|Hcc].
      * rewrite assoc_replace_eq by (by rewrite Hc). simplify_eq. eapply IH; eauto.
      * by rewrite assoc_replace_ne, Hc'.
    + intros [= <-]. simpl. by rewrite assoc_app, Hc'.
Qed.

(** ** Writes that keep a property of the file *)

Lemma with_root_inv hfile r hfile' :
  with_root hfile r = Ok hfile' ->
  exists ms, r = Ok (Group ms) /\ hfile' = H5File (attrs hfile) ms.
Proof. unfold with_root. destruct r as [[ms|d]|e]; simpl; [|done..]. intros [= <-]. eauto. Qed.

Section dataset_kept.
Context (q : list string) (d : dataset).

Lemma keeps_delitem path :
  ~ resolve path `prefix_of` q -> keeps (has_dataset q d) (delitem path).
Proof.
  intros Hpre hfile hfile' HQ (ms & Hr & ->)%with_root_inv. unfold has_dataset in *. simpl.
  destruct (del_node _ _) as [n'|] eqn:Hdel; [|done]. injection Hr as ->.
  eapply del_node_keeps; eauto.
Qed.

Lemma keeps_set_attr path key v :
  resolve path <> q -> keeps (has_dataset q d) (set_attr path key v).
Proof.
  intros Hne hfile hfile' HQ. unfold set_attr.
  destruct (get_node (resolve path) _) as [[?|d']|] eqn:Ht; [done| |done].
  intros (ms & Hr & ->)%with_root_inv. unfold has_dataset in *. simpl.
  destruct (set_node _ _ _) as [n'|] eqn:Hset; [|done]. injection Hr as ->.
  eapply set_node_keeps; eauto.
Qed.

Lemma keeps_link path d' : keeps (has_dataset q d) (link path d').
Proof.
  intros hfile hfile' HQ (ms & Hr & ->)%with_root_inv. unfold has_dataset in *. simpl.
  eapply link_node_keeps; eauto.
Qed.

Lemma keeps_make_groups cs : keeps (has_dataset q d) (make_groups cs).
Proof.
  intros hfile hfile' HQ (ms & Hr & ->)%with_root_inv. unfold has_dataset in *. simpl.
  eapply require_group_keeps; eauto.
Qed.
End dataset_kept.

Section attrs_kept.
Context (R : gmap string attrval -> Prop).

Lemma keeps_attrs_delitem path : keeps (has_attrs R) (delitem path).
Proof. by intros hfile hfile' HQ (ms & Hr & ->)%with_root_inv. Qed.
Lemma keeps_attrs_set_attr path key v : keeps (has_attrs R) (set_attr path key v).
Proof.
  intros hfile hfile' HQ. unfold set_attr. destruct (get_node _ _) as [[?|?]|]; try done.
  by intros (ms & Hr & ->)%with_root_inv.
Qed.
Lemma keeps_attrs_link path d' : keeps (has_attrs R) (link path d').
Proof. by intros hfile hfile' HQ (ms & Hr & ->)%with_root_inv. Qed.
Lemma keeps_attrs_make_groups cs : keeps (has_attrs R) (make_groups cs).
Proof. by intros hfile hfile' HQ (ms & Hr & ->)%with_root_inv. Qed.
End attrs_kept.

(** ** Statements that keep a property of the world *)
Section preserves.
Context (P : world -> Prop).

Lemma preserves_ret {A} (a : A) : preserves P (ret a).
Proof. by intros w. Qed.
Lemma preserves_raise {A} e : preserves P (raise (A:=A) e).
Proof. by intros w. Qed.
Lemma preserves_lift {A} (r : res A) : preserves P (lift r).
Proof. by intros w. Qed.
Lemma preserves_reading {A} (f : world -> res A) : preserves P (reading f).
Proof. by intros w. Qed.
Lemma preserves_bind {A B} (m : M A) (k : A -> M B) :
  preserves P m -> (forall a, preserves P (k a)) -> preserves P (bind m k).
Proof.
  intros Hm Hk w Hw. unfold bind. specialize (Hm w Hw).
  destruct (m w) as [w' [a|e]]; simpl in *; [by apply Hk|done].
Qed.
Lemma preserves_for_each {A} (body : A -> M unit) l :
  (forall a, a ∈ l -> preserves P (body a)) -> preserves P (for_each body l).
Proof.
  induction l as [|a l IH]; intros Hb; simpl; [apply preserves_ret|].
  apply preserves_bind; [apply Hb; left|]. intros _. apply IH. intros ??. apply Hb. by right.
Qed.
End preserves.

Section preserves_file.
Context `{Imports} (fname : string) (Q : h5file -> Prop).

Lemma preserves_put_other fname' hfile : fname' <> fname -> preserves (on_file fname Q) (put_file fname' hfile).
Proof.
  intros Hne w (h & Hf & HQ). exists h. split; [|done]. simpl. by rewrite lookup_insert_ne.
Qed.

Lemma preserves_modify fname' f :
  (fname' = fname -> keeps Q f) -> preserves (on_file fname Q) (modify fname' f).
Proof.
  intros Hk w (h & Hf & HQ). unfold modify, bind, reading, lift, open_r.
  destruct (files w !! fname') as [h'|] eqn:Hf'; simpl; [|by exists h].
  destruct (f h') as [h''|e] eqn:Hfh; simpl; [|by exists h].
  unfold on_file. simpl.
  destruct (decide (fname' = fname)) as [->|Hne].
  - exists h''. rewrite lookup_insert_eq. split; [done|]. simplify_eq. eapply Hk; eauto.
  - exists h. by rewrite lookup_insert_ne.
Qed.

Lemma preserves_open_a fname' : preserves (on_file fname Q) (open_a fname').
Proof.
  intros w (h & Hf & HQ). unfold open_a.
  destruct (files w !! fname') as [h'|] eqn:Hf'; simpl; [by exists h|].
  unfold on_file. simpl.
  exists h. rewrite lookup_insert_ne; [done|]. congruence.
Qed.

Lemma preserves_new_id : preserves (on_file fname Q) new_id.
Proof. by intros w HP. Qed.
Lemma preserves_now : preserves (on_file fname Q) now.
Proof. by intros w HP. Qed.
Lemma preserves_print s : preserves (on_file fname Q) (print s).
Proof. by intros w HP. Qed.

Ltac pres :=
  repeat first
    [ apply preserves_ret | apply preserves_raise | apply preserves_lift
    | apply preserves_reading | apply preserves_new_id | apply preserves_now
    | apply preserves_open_a | apply preserves_print
    | match goal with
      | |- preserves _ (modify _ _) =>
          apply preserves_modify; intros ?; try solve [auto | congruence]
      | |- preserves _ (bind _ _) => apply preserves_bind; [|intros ?]
      | |- preserves _ (if ?b then _ else _) => destruct b
      | |- preserves _ (match ?x with _ => _ end) => destruct x
      end ].

Lemma preserves_create_property fname' name dt data :
  (fname' = fname ->
   (forall key v, keeps Q (set_attr name key v)) /\
   (forall cs, keeps Q (make_groups cs)) /\
   (forall d, keeps Q (link name d))) ->
  preserves (on_file fname Q) (create_property fname' name dt data).
Proof.
  intros Hk. unfold create_property, create_dataset.
  destruct (decide (fname' = fname)) as [->|Hne].
  - destruct (Hk eq_refl) as (Hs & Hm & Hl). pres.
  - pres.
Qed.

Lemma preserves_update_prop propname :
  keeps Q (delitem propname) ->
  (forall suf key v, suf ∈ "" :: suffixes -> keeps Q (set_attr (propname +:+ suf) key v)) ->
  (forall cs, keeps Q (make_groups cs)) ->
  (forall name d, keeps Q (link name d)) ->
  preserves (on_file fname Q) (update_prop fname propname).
Proof.
  intros Hd Hs Hm Hl.
  assert (forall key v, keeps Q (set_attr propname key v)) as Hs0.
  { intros key v. rewrite <-(append_nil_r propname). apply Hs. left. }
  unfold update_prop.
  pres; try (apply preserves_create_property; intros _; split; [|by split];
             first [done | intros; apply Hs; unfold suffixes; rewrite !elem_of_cons; tauto]).
Qed.
End preserves_file.

End invariants.

(** ** Planning *)
Section planning_lemmas.
Local Open Scope res_scope.

Lemma lexico_cons (x y : Z) a b : lexico (x :: a) (y :: b) <-> x < y \/ (x = y /\ lexico a b).
Proof. reflexivity. Qed.

Lemma tuple_ge_ints a b :
  tuple_ge (map PInt a) (map PInt b) = Ok false /\ lexico a b \/
  tuple_ge (map PInt a) (map PInt b) = Ok true /\ ~ lexico a b.
Proof.
  revert b. induction a as [|x a IH]; intros [|y b]; simpl.
  - right. split; [done|]. intros [].
  - left. split; [done|]. exact I.
  - right. split; [done|]. intros [].
  - rewrite lexico_cons. destruct (Z.eqb_spec x y) as [->|Hne].
    + destruct (IH b) as [[-> Hl]|[-> Hl]]; [left|right]; split; auto.
      intros [?|[_ ?]]; [lia|done].
    + destruct (Z.leb_spec y x); [right|left]; (split; [done|]).
      * intros [?|[? _]]; lia.
      * left; lia.
Qed.

Lemma tuple_ge_lt a b : lexico a b -> tuple_ge (map PInt a) (map PInt b) = Ok false.
Proof. intros Hl. destruct (tuple_ge_ints a b) as [[? _]|[_ ?]]; done. Qed.

Lemma tuple_ge_nlt a b : ~ lexico a b -> tuple_ge (map PInt a) (map PInt b) = Ok true.
Proof. intros Hl. destruct (tuple_ge_ints a b) as [[_ ?]|[? _]]; done. Qed.

Section planning.
Context `{Imports}.
Implicit Types (w : world) (hfile : h5file).

Lemma get_file_version_ints fname w hfile v :
  files w !! fname = Some hfile ->
  attrs hfile !! "version" = Some (AInts v) ->
  get_file_version fname w = Ok (map PInt v).
Proof. intros Hf Hv. unfold get_file_version, open_r. rewrite Hf. simpl. rewrite Hv. done. Qed.

Lemma collect_tasks_up_to_date fname w hfile v :
  files w !! fname = Some hfile ->
  attrs hfile !! "version" = Some (AInts v) ->
  ~ lexico v HDF_FF_VERSION ->
  (collect_tasks fname w).2 = Ok None.
Proof.
  intros Hf Hv Hl. unfold collect_tasks, bind, reading, lift.
  rewrite (get_file_version_ints _ _ _ _ Hf Hv), (tuple_ge_nlt _ _ Hl). done.
Qed.

Lemma collect_tasks_bump_only fname w hfile v :
  files w !! fname = Some hfile ->
  attrs hfile !! "version" = Some (AInts v) ->
  lexico v HDF_FF_VERSION ->
  has_valid_file_id fname w = Ok true ->
  (collect_tasks fname w).2 = Ok (Some [update_ver fname]).
Proof.
  intros Hf Hv Hl Hid. unfold collect_tasks, bind, reading, lift.
  rewrite (get_file_version_ints _ _ _ _ Hf Hv), (tuple_ge_lt _ _ Hl), Hid. done.
Qed.

Lemma collect_tasks_structural fname w hfile v t :
  files w !! fname = Some hfile ->
  attrs hfile !! "version" = Some (AInts v) ->
  lexico v HDF_FF_VERSION ->
  has_valid_file_id fname w = Ok false ->
  update_property_values fname w = Ok t ->
  (collect_tasks fname w).2 = Ok (Some [add_id fname; t; update_ver fname]).
Proof.
  intros Hf Hv Hl Hid Ht. unfold collect_tasks, bind, reading, lift.
  rewrite (get_file_version_ints _ _ _ _ Hf Hv), (tuple_ge_lt _ _ Hl), Hid. simpl.
  rewrite Ht. done.
Qed.

Lemma has_valid_file_id_true fname w hfile x :
  files w !! fname = Some hfile -> attrs hfile !! "id" = Some x ->
  truthy x = Ok true -> is_uuid x = true ->
  has_valid_file_id fname w = Ok true.
Proof.
  intros Hf Hid Ht Hu. unfold has_valid_file_id, open_r. rewrite Hf. simpl.
  by rewrite Hid, Ht, Hu.
Qed.

Lemma has_valid_file_id_absent fname w hfile :
  files w !! fname = Some hfile -> attrs hfile !! "id" = None ->
  has_valid_file_id fname w = Ok false.
Proof. intros Hf Hid. unfold has_valid_file_id, open_r. rewrite Hf. simpl. by rewrite Hid. Qed.

Lemma has_valid_file_id_falsy fname w hfile x :
  files w !! fname = Some hfile -> attrs hfile !! "id" = Some x ->
  truthy x = Ok false ->
  has_valid_file_id fname w = Ok false.
Proof.
  intros Hf Hid Ht. unfold has_valid_file_id, open_r. rewrite Hf. simpl. by rewrite Hid, Ht.
Qed.

Lemma has_valid_file_id_malformed fname w hfile x b :
  files w !! fname = Some hfile -> attrs hfile !! "id" = Some x ->
  truthy x = Ok b -> is_uuid x = false ->
  has_valid_file_id fname w = Ok false.
Proof.
  intros Hf Hid Ht Hu. unfold has_valid_file_id, open_r. rewrite Hf. simpl.
  rewrite Hid, Ht, Hu. simpl. by rewrite andb_false_r.
Qed.

Lemma resolve_metadata : resolve "metadata" = ["metadata"].
Proof. reflexivity. Qed.

Lemma update_property_values_ok fname w hfile metadata :
  files w !! fname = Some hfile ->
  assoc "metadata" (root hfile) = Some (Group metadata) ->
  update_property_values fname w = Ok (update_props fname (scan (Group metadata))).
Proof.
  intros Hf Hm. unfold update_property_values, open_r, getitem. rewrite Hf.
  change (resolve "metadata") with ["metadata"]. simpl. by rewrite Hm.
Qed.

(** The version bump closes every plan. *)
Lemma collect_tasks_last fname w tasks :
  (collect_tasks fname w).2 = Ok (Some tasks) -> last tasks = Some (update_ver fname).
Proof.
  unfold collect_tasks, bind, reading, lift.
  destruct (get_file_version fname w) as [ver|]; [|done].
  destruct (tuple_ge _ _) as [[|]|]; [done| |done].
  destruct (has_valid_file_id fname w) as [[|]|]; simpl; [| |done].
  - intros [= <-]. done.
  - destruct (update_property_values fname w); simpl; [|done]. intros [= <-]. done.
Qed.

End planning.

End planning_lemmas.

(** ** The members after normalization *)
Section normalized_members.
Local Close Scope Z_scope.
Local Open Scope res_scope.
Local Open Scope M_scope.

Implicit Types (p q : list string) (ms x : list (string * node)) (hfile : h5file) (s : lstate).

Lemma get_node_snoc_inv p c n ms :
  get_node (p ++ [c]) (Group ms) = Some n ->
  exists x, members_at p ms = Some x /\ assoc c x = Some n.
Proof.
  revert ms. induction p as [|c' p IH]; intros ms; simpl.
  - destruct (assoc c ms) eqn:E; [|done]. intros [= <-]. eauto.
  - destruct (assoc c' ms) as [[sub|d]|]; [apply IH| |done]. by destruct p.
Qed.

Section normalized.
Context `{Imports} (c : string).

Lemma assoc_when_other k (b : bool) suf arr s :
  k <> c +:+ suf -> assoc k (when b (add_sibling c suf arr) s).1.1 = assoc k s.1.1.
Proof.
  intros Hne. destruct s as [[x i] t]. destruct b; simpl; [|done]. by rewrite assoc_snoc_ne.
Qed.

Lemma assoc_when_self (b : bool) suf arr s :
  assoc (c +:+ suf) s.1.1 = None ->
  assoc (c +:+ suf) (when b (add_sibling c suf arr) s).1.1 =
    if b then Some (new_record (c +:+ suf) arr s.1.2 s.2) else None.
Proof.
  intros Hfree. destruct s as [[x i] t]. destruct b; simpl; [|done]. by rewrite assoc_snoc_eq.
Qed.

Lemma assoc_set_member_attr_other k key v s :
  k <> c -> assoc k (set_member_attr c key v s).1.1 = assoc k s.1.1.
Proof.
  intros Hne. destruct s as [[x i] t]. simpl. destruct (assoc c x) as [[|d]|]; simpl; try done.
  by rewrite assoc_replace_ne.
Qed.

Lemma base_of_split_uncertainty values unc uarr s :
  assoc c (split_uncertainty c unc uarr (replace_base c values s)).1.1 =
    Some (Dataset (Dset (Simple values) (base_attrs c unc s.1.2 s.2))).
Proof.
  pose proof (base_of_replace c values s) as Hb. unfold split_uncertainty, base_attrs.
  destruct (replace_base c values s) as [[x i] t] eqn:E.
  destruct (1 <? len_set unc)%nat.
  - simpl in *. rewrite assoc_snoc_ne; [done|]. by apply sibling_ne.
  - destruct (any unc); [|done]. destruct (getitem0 unc); [|done].
    simpl in *. rewrite Hb. simpl. rewrite assoc_replace_eq by (by rewrite Hb). done.
Qed.

Lemma suffix_ne suf : suf ∈ suffixes -> suf <> "".
Proof. by intros [_ ?]%suffix_ok. Qed.

Lemma base_of_normalized values unc uarr lref lfn lenc lchk s :
  assoc c (normalized c values unc uarr lref lfn lenc lchk s).1.1 =
    Some (Dataset (Dset (Simple values) (base_attrs c unc s.1.2 s.2))).
Proof.
  unfold normalized.
  rewrite !assoc_when_other by (intros E; symmetry in E; by apply sibling_ne in E).
  apply base_of_split_uncertainty.
Qed.

Lemma uncertainty_of_normalized values unc uarr lref lfn lenc lchk s :
  assoc (c +:+ ".uncertainty") s.1.1 = None ->
  assoc (c +:+ ".uncertainty") (normalized c values unc uarr lref lfn lenc lchk s).1.1 =
    if (1 <? len_set unc)%nat
    then Some (new_record (c +:+ ".uncertainty") uarr (S s.1.2) (S (S s.2)))
    else None.
Proof.
  intros Hfree. unfold normalized.
  rewrite !assoc_when_other by (by apply sibling_inj).
  pose proof (free_replace_base c ".uncertainty" values s ltac:(done) Hfree) as Hf.
  unfold split_uncertainty. destruct s as [[x i] t].
  destruct (1 <? len_set unc)%nat.
  - simpl in *. by rewrite assoc_snoc_eq.
  - destruct (any unc); [|done]. destruct (getitem0 unc); [|done].
    by apply free_set_member_attr.
Qed.

Lemma strings_of_normalized values unc uarr lref lfn lenc lchk s suf col :
  free_names c s ->
  (suf, col) ∈ [(".reference", lref); (".filename", lfn); (".encoder", lenc); (".checksum", lchk)] ->
  (any (StrArr col) = true ->
   exists i t, assoc (c +:+ suf) (normalized c values unc uarr lref lfn lenc lchk s).1.1 =
               Some (new_record (c +:+ suf) (StrArr col) i t)) /\
  (any (StrArr col) = false ->
   assoc (c +:+ suf) (normalized c values unc uarr lref lfn lenc lchk s).1.1 = None).
Proof.
  intros Hfree Hin.
  assert (forall suf, suf ∈ suffixes -> suf <> ".uncertainty" ->
            assoc (c +:+ suf) (split_uncertainty c unc uarr (replace_base c values s)).1.1 = None)
    as Hf0.
  { intros suf' Hs Hne. apply free_split_uncertainty, free_replace_base; auto using suffix_ne. }
  destruct suffix_members as (_ & Sr & Sf & Se & Sc).
  unfold normalized.
  rewrite !elem_of_cons, elem_of_nil in Hin.
  destruct Hin as [E|[E|[E|[E|[]]]]]; injection E as E1 E2; subst suf col.
  - rewrite !assoc_when_other by (by apply sibling_inj).
    rewrite assoc_when_self by (by apply Hf0).
    split; intros ->; eauto.
  - rewrite !assoc_when_other by (by apply sibling_inj).
    rewrite assoc_when_self
      by (apply free_when; [by apply free_add_sibling|]; by apply Hf0).
    split; intros ->; eauto.
  - rewrite !assoc_when_other by (by apply sibling_inj).
    rewrite assoc_when_self
      by (do 2 (apply free_when; [by apply free_add_sibling|]); by apply Hf0).
    split; intros ->; eauto.
  - rewrite assoc_when_self
      by (do 3 (apply free_when; [by apply free_add_sibling|]); by apply Hf0).
    split; intros ->; eauto.
Qed.

End normalized.

End normalized_members.

(** ** Distinct values of a column *)
Section distinct_values.
Local Close Scope Z_scope.
Section sets.
Context {A : Type} (eqb : A -> A -> bool).

Lemma set_add_length acc x : (length acc <= length (set_add eqb acc x))%nat.
Proof. unfold set_add. destruct (existsb _ _); [done|]. rewrite length_app. lia. Qed.

Lemma fold_set_add_length l acc :
  (length acc <= length (fold_left (set_add eqb) l acc))%nat.
Proof.
  revert acc. induction l as [|x l IH]; intros acc; simpl; [done|].
  etrans; [apply set_add_length|apply IH].
Qed.

(** More than one member: some row does not equal the first row. *)
Lemma set_of_many x0 l :
  (1 < length (set_of eqb (x0 :: l)))%nat <-> Exists (fun x => eqb x x0 = false) l.
Proof.
  unfold set_of. simpl. change (set_add eqb [] x0) with [x0].
  induction l as [|y l IH]; simpl.
  - split; [lia|by intros ?%Exists_nil].
  - rewrite Exists_cons. unfold set_add at 2. simpl. rewrite orb_false_r.
    destruct (eqb y x0) eqn:E.
    + rewrite IH. split; [by right|by intros [?|?]].
    + split; [auto|]. intros _.
      pose proof (fold_set_add_length l ([x0] ++ [y])). simpl in *. lia.
Qed.

Lemma set_of_few x0 l :
  (length (set_of eqb (x0 :: l)) <= 1)%nat -> Forall (fun x => eqb x x0 = true) l.
Proof.
  intros Hle. apply Forall_forall. intros x Hx. destruct (eqb x x0) eqn:E; [done|].
  assert (1 < length (set_of eqb (x0 :: l)))%nat; [|lia].
  apply set_of_many, Exists_exists. eauto.
Qed.
End sets.

(** At most one distinct value: every further row equals the first. *)
Lemma len_set_few a u0 :
  (len_set a <= 1)%nat -> getitem0 a = Ok u0 ->
  Forall (fun v => attr_eqb v u0 = true) (tail (row_values a)).
Proof.
  destruct a as [[|x0 l]|[|x0 l]|[|x0 l]]; simpl; try done;
    intros Hle [= <-]; apply Forall_fmap; by apply set_of_few in Hle.
Qed.

Lemma any_ints l : any (IntArr l) = true <-> Exists (fun z => z <> 0%Z) l.
Proof.
  simpl. rewrite existsb_exists, Exists_exists.
  split; intros (z & Hin & Hz); exists z; apply list_elem_of_In in Hin;
    (split; [done|]); by rewrite ?negb_true_iff, ?Z.eqb_neq in *.
Qed.

Lemma len_set_ints l :
  (1 < len_set (IntArr l))%nat <-> exists a b, a ∈ l /\ b ∈ l /\ a <> b.
Proof.
  destruct l as [|x0 l]; simpl.
  - split; [lia|]. by intros (a & _ & ?%elem_of_nil & _).
  - rewrite set_of_many, Exists_exists. split.
    + intros (x & Hx & Hne%Z.eqb_neq). exists x, x0. split; [by right|]. split; [left|done].
    + intros (a & b & Ha & Hb & Hne).
      destruct (decide (a = x0)) as [->|Hax].
      * exists b. apply elem_of_cons in Hb as [->|Hb]; [done|]. split; [done|].
        apply Z.eqb_neq. congruence.
      * exists a. apply elem_of_cons in Ha as [->|Ha]; [done|]. split; [done|].
        by apply Z.eqb_neq.
Qed.

End distinct_values.

(** * The claims

    ** Plans *)
Section plans.
Local Open Scope res_scope.

Section planning_claims.
Context `{Imports}.
Implicit Types (w : world) (hfile : h5file).

(** C1. Planning a file whose version attribute is a tuple of integers [v]:
    when [v] is not below the target in the lexicographic order there is
    no plan ([collect_tasks] returns [None]); when it is below and the root
    [id] is a valid UUID (which is a truthy value) the plan is the version
    bump alone; when it is below and the [id] is absent or not a valid UUID
    the plan is the identity, the normalization of the records found in
    the metadata group, and the version bump, in this order.  Whatever the
    plan, the version bump is its last task. *)
Theorem C1_plan_by_version_and_identity fname w hfile v :
  files w !! fname = Some hfile ->
  attrs hfile !! "version" = Some (AInts v) ->
  let plan := (collect_tasks fname w).2 in
  (~ lexico v HDF_FF_VERSION -> plan = Ok None) /\
  (lexico v HDF_FF_VERSION ->
   (forall x, is_uuid x = true -> truthy x = Ok true) ->
   (exists x, attrs hfile !! "id" = Some x /\ is_uuid x = true) ->
   plan = Ok (Some [update_ver fname])) /\
  (lexico v HDF_FF_VERSION ->
   (attrs hfile !! "id" = None \/
    exists x b, attrs hfile !! "id" = Some x /\ truthy x = Ok b /\ is_uuid x = false) ->
   forall metadata, assoc "metadata" (root hfile) = Some (Group metadata) ->
   plan = Ok (Some [add_id fname; update_props fname (scan (Group metadata)); update_ver fname])) /\
  (forall tasks, plan = Ok (Some tasks) -> last tasks = Some (update_ver fname)).
Proof.
  intros Hf Hv plan. subst plan. repeat split.
  - by eapply collect_tasks_up_to_date.
  - intros Hl Huuid (x & Hid & Hx). eapply collect_tasks_bump_only; eauto.
    eapply has_valid_file_id_true; eauto.
  - intros Hl Hid metadata Hm. eapply collect_tasks_structural; eauto.
    + destruct Hid as [Hid|(x & b & Hid & Hb & Hx)].
      * by eapply has_valid_file_id_absent.
      * by eapply has_valid_file_id_malformed.
    + by eapply update_property_values_ok.
  - apply collect_tasks_last.
Qed.

(** C8. A file whose root [id] is truthy and a valid UUID never gets the
    structural tasks: whatever its version attribute, a plan that
    [collect_tasks] returns is none or the version bump alone, and it does
    return one of the two when the version is a tuple of integers. *)
Theorem C8_valid_identity_never_structural fname w hfile x :
  files w !! fname = Some hfile ->
  attrs hfile !! "id" = Some x ->
  truthy x = Ok true ->
  is_uuid x = true ->
  (forall plan, (collect_tasks fname w).2 = Ok plan ->
                plan = None \/ plan = Some [update_ver fname]) /\
  (forall v, attrs hfile !! "version" = Some (AInts v) ->
             (collect_tasks fname w).2 = Ok None \/
             (collect_tasks fname w).2 = Ok (Some [update_ver fname])).
Proof.
  intros Hf Hid Ht Hu.
  pose proof (has_valid_file_id_true _ _ _ _ Hf Hid Ht Hu) as Hvalid. split.
  - intros plan. unfold collect_tasks, bind, reading, lift.
    destruct (get_file_version fname w) as [ver|]; [|done].
    destruct (tuple_ge _ _) as [[|]|]; simpl; rewrite ?Hvalid; simpl; [| |done];
      intros [= <-]; auto.
  - intros v Hv. destruct (tuple_ge_ints v HDF_FF_VERSION) as [[_ Hl]|[_ Hl]].
    + right. by eapply collect_tasks_bump_only.
    + left. by eapply collect_tasks_up_to_date.
Qed.

Lemma lookup_drop_id fname w hfile :
  files w !! fname = Some hfile ->
  files (drop_id fname w) !! fname = Some (H5File (delete "id" (attrs hfile)) (root hfile)).
Proof. intros Hf. unfold drop_id. simpl. by rewrite lookup_alter_eq, Hf. Qed.

(** C9. A root [id] that is there but falsy (the empty string, zero):
    the identity check answers [False], and the file is planned as it would
    be without the attribute; below the target version that is the full
    structural plan. *)
Theorem C9_falsy_identity_as_absent fname w hfile x :
  files w !! fname = Some hfile ->
  attrs hfile !! "id" = Some x ->
  truthy x = Ok false ->
  has_valid_file_id fname w = Ok false /\
  (collect_tasks fname w).2 = (collect_tasks fname (drop_id fname w)).2 /\
  (forall v metadata,
     attrs hfile !! "version" = Some (AInts v) ->
     lexico v HDF_FF_VERSION ->
     assoc "metadata" (root hfile) = Some (Group metadata) ->
     (collect_tasks fname w).2 =
       Ok (Some [add_id fname; update_props fname (scan (Group metadata)); update_ver fname])).
Proof.
  intros Hf Hid Ht.
  pose proof (has_valid_file_id_falsy _ _ _ _ Hf Hid Ht) as Hvalid.
  pose proof (lookup_drop_id _ _ _ Hf) as Hf'.
  split; [done|]. split.
  - assert (has_valid_file_id fname (drop_id fname w) = Ok false) as Hvalid'.
    { eapply has_valid_file_id_absent; [done|]. simpl. apply lookup_delete_eq. }
    assert (get_file_version fname (drop_id fname w) = get_file_version fname w) as Hver.
    { unfold get_file_version, open_r. rewrite Hf, Hf'. simpl. by rewrite lookup_delete_ne. }
    assert (update_property_values fname (drop_id fname w) = update_property_values fname w)
      as Hscan.
    { unfold update_property_values, open_r. by rewrite Hf, Hf'. }
    unfold collect_tasks, bind, reading, lift. rewrite Hver.
    destruct (get_file_version fname w) as [ver|]; [|done].
    destruct (tuple_ge _ _) as [[|]|]; simpl; [done| |done].
    rewrite Hvalid, Hvalid'. simpl. rewrite Hscan.
    by destruct (update_property_values fname w).
  - intros v metadata Hv Hl Hm. eapply collect_tasks_structural; eauto.
    by eapply update_property_values_ok.
Qed.

End planning_claims.

Lemma sample_uuid_truthy x : Sample.canonical_uuid x = true -> truthy x = Ok true.
Proof. destruct x as [| |[|c s]|]; done. Qed.

Lemma below_target : lexico [1; 1; 0] HDF_FF_VERSION.
Proof. right. split; [done|]. left. done. Qed.

Lemma C1_plan_witness :
  (collect_tasks "new.nix" Sample.w0).2 = Ok None /\
  (collect_tasks "stale.nix" Sample.w0).2 = Ok (Some [update_ver "stale.nix"]) /\
  (collect_tasks "old.nix" Sample.w0).2 =
    Ok (Some [add_id "old.nix";
              update_props "old.nix"
                ["/metadata/session/zeros"; "/metadata/session/fives"; "/metadata/session/mixed"];
              update_ver "old.nix"]).
Proof.
  split; [|split].
  - refine (proj1 (C1_plan_by_version_and_identity "new.nix" Sample.w0 Sample.current_file
                     [1; 2; 0] eq_refl eq_refl) _).
    intros [?|[_ [?|[_ [?|[_ []]]]]]]; done.
  - refine (proj1 (proj2 (C1_plan_by_version_and_identity "stale.nix" Sample.w0 Sample.stale_file
                            [1; 1; 0] eq_refl eq_refl)) below_target sample_uuid_truthy _).
    eexists. split; reflexivity.
  - refine (proj1 (proj2 (proj2 (C1_plan_by_version_and_identity "old.nix" Sample.w0
                                   Sample.legacy_file [1; 1; 0] eq_refl eq_refl)))
              below_target (or_introl eq_refl) Sample.metadata eq_refl).
Defined.

Lemma C8_witness :
  (collect_tasks "stale.nix" Sample.w0).2 = Ok None \/
  (collect_tasks "stale.nix" Sample.w0).2 = Ok (Some [update_ver "stale.nix"]).
Proof.
  refine (proj2 (C8_valid_identity_never_structural "stale.nix" Sample.w0 Sample.stale_file
                   (AStr "4a6e8483-0a9a-464d-bdd9-b39818334bcd")
                   eq_refl eq_refl eq_refl eq_refl) [1; 1; 0] eq_refl).
Defined.

Lemma C9_witness :
  has_valid_file_id "blank.nix" Sample.w0 = Ok false /\
  (collect_tasks "blank.nix" Sample.w0).2 =
    Ok (Some [add_id "blank.nix";
              update_props "blank.nix"
                ["/metadata/session/zeros"; "/metadata/session/fives"; "/metadata/session/mixed"];
              update_ver "blank.nix"]).
Proof.
  destruct (C9_falsy_identity_as_absent "blank.nix" Sample.w0 Sample.blank_id_file (AStr "")
              eq_refl eq_refl eq_refl) as (Hvalid & _ & Hplan).
  split; [exact Hvalid|].
  exact (Hplan [1; 1; 0] Sample.metadata eq_refl below_target eq_refl).
Defined.

End plans.

(** ** Discovery *)
Section discovery_of_records.
Local Close Scope Z_scope.
Local Open Scope res_scope.

Lemma dtype_len_pos d :
  (0 < dtype_len d)%nat <-> exists field fields, ds_data d = Compound (field :: fields).
Proof.
  unfold dtype_len. destruct (ds_data d) as [a|[|field fields]]; simpl; split;
    try lia; try (by intros (? & ? & ?)); eauto.
Qed.

Section discovery.
Context `{Imports}.

(** C4. Planning the normalization of a file with a well-formed metadata
    tree: the scan lists, each once, the absolute names of the datasets
    below [/metadata], at any depth, whose row type is compound with at
    least one field, and no other name; the task holds this list, its
    description is "Update N properties" for the length N of the list, and
    the scan leaves the world as it is. *)
Theorem C4_scan_selects_compound_datasets fname w hfile metadata :
  files w !! fname = Some hfile ->
  assoc "metadata" (root hfile) = Some (Group metadata) ->
  wf_node (Group metadata) ->
  let props := scan (Group metadata) in
  update_property_values fname w = Ok (update_props fname props) /\
  (forall cs d,
     get_node cs (Group metadata) = Some (Dataset d) ->
     (h5_name ("metadata" :: cs) ∈ props <->
      exists field fields, ds_data d = Compound (field :: fields))) /\
  (forall name,
     name ∈ props ->
     exists cs d, name = h5_name ("metadata" :: cs) /\
                  get_node cs (Group metadata) = Some (Dataset d)) /\
  NoDup props /\
  doc (update_props fname props) = "Update " +:+ pretty (length props) +:+ " properties" /\
  (reading (update_property_values fname) w).1 = w.
Proof.
  intros Hf Hm Hwf props. subst props.
  split; [by eapply update_property_values_ok|].
  split; [|split; [|split; [by apply scan_NoDup|by split]]].
  - intros cs d Hget. rewrite <-dtype_len_pos, scan_elem. split.
    + intros (d' & Hin & Hd'). apply visit_elem in Hin as (cs' & _ & E & Hget'); [|done].
      change (h5_name ("metadata" :: cs)) with ("/metadata" +:+ h5_name cs) in E.
      apply (inj (String.append _)) in E.
      destruct (get_node_link_names _ _ _ Hwf Hget), (get_node_link_names _ _ _ Hwf Hget').
      apply h5_name_inj in E; [|done..]. subst cs'. by simplify_eq.
    + intros Hd. exists d. split; [|done]. apply visit_elem; [done|].
      exists cs. split; [by destruct cs|]. by split.
  - intros name (d & Hin & Hd)%scan_elem.
    apply visit_elem in Hin as (cs & _ & -> & Hget); [|done]. by exists cs, d.
Qed.
End discovery.

Lemma link_name_intro c : is_component c = true -> has_slash c = false -> link_name c.
Proof. by split. Qed.

Ltac wf_tree :=
  repeat first
    [ apply wf_dataset
    | apply wf_group; simpl
    | apply NoDup_nil_2
    | apply NoDup_cons_2; [by rewrite ?elem_of_cons, elem_of_nil; intros H; repeat destruct H as [H|H]|]
    | apply Forall_nil_2
    | apply Forall_cons_2; simpl
    | by apply link_name_intro ].

Lemma sample_metadata_wf : wf_node (Group Sample.metadata).
Proof. unfold Sample.metadata, Sample.section_members. wf_tree. Qed.

Lemma C4_witness :
  update_property_values "old.nix" Sample.w0 =
    Ok (update_props "old.nix"
          ["/metadata/session/zeros"; "/metadata/session/fives"; "/metadata/session/mixed"]) /\
  doc (update_props "old.nix" (scan (Group Sample.metadata))) = "Update 3 properties".
Proof.
  destruct (C4_scan_selects_compound_datasets "old.nix" Sample.w0 Sample.legacy_file
              Sample.metadata eq_refl eq_refl sample_metadata_wf) as (Hplan & _ & _ & _ & Hdoc & _).
  split; [exact Hplan|exact Hdoc].
Defined.

End discovery_of_records.

(** ** Normalization of one record *)
Section normalization.
Local Close Scope Z_scope.
Local Open Scope res_scope.
Local Open Scope M_scope.

Implicit Types (p q : list string) (ms x : list (string * node)) (hfile : h5file) (s : lstate).

Lemma of_option_None {A} e (o : option A) : of_option e o = Raise e -> o = None.
Proof. by destruct o. Qed.

Lemma world_as_local w fname hfile p x :
  files w !! fname = Some hfile -> members_at p (root hfile) = Some x ->
  w = local_world fname (files w) (attrs hfile) (root hfile) p (stdout w) (stdin w)
        (x, ids w, ticks w).
Proof.
  intros Hf Hx. unfold local_world. simpl. rewrite (graft_id _ _ _ Hx).
  destruct w, hfile; simpl in *. by rewrite insert_id.
Qed.

Lemma object_at_local fname fs a root0 p o inp s x0 k :
  members_at p root0 = Some x0 -> Forall link_name (p ++ [k]) ->
  object_at fname (h5_name (p ++ [k])) (local_world fname fs a root0 p o inp s) =
    of_option KeyError (assoc k s.1.1).
Proof.
  intros Hx Hk. unfold object_at, local_world, open_r, getitem. simpl.
  rewrite lookup_insert_eq. simpl. rewrite (resolve_h5_name _ Hk).
  by rewrite (get_node_snoc _ _ _ _ (members_at_graft _ _ _ _ Hx)).
Qed.

Lemma asarray_as_float `{Imports} unc :
  dtype_of unc <> vlen_str ->
  asarray _ float64 unc = Ok (as_float unc) /\
  dtype_of (as_float unc) = float64 /\ arr_len (as_float unc) = arr_len unc.
Proof. destruct unc; simpl; try done. intros _. by rewrite length_map. Qed.

Section records.
Context `{Imports}.

Lemma candidate_inv w fname p c cols :
  candidate_at w fname p c cols ->
  exists hfile x d fields,
    files w !! fname = Some hfile /\ members_at p (root hfile) = Some x /\
    assoc c x = Some (Dataset d) /\ ds_data d = Compound fields /\
    assoc "value" fields = Some (value cols) /\
    assoc "uncertainty" fields = Some (uncertainty cols) /\
    assoc "reference" fields = Some (StrArr (reference cols)) /\
    assoc "filename" fields = Some (StrArr (filename cols)) /\
    assoc "encoder" fields = Some (StrArr (encoder cols)) /\
    assoc "checksum" fields = Some (StrArr (checksum cols)) /\
    dtype_of (uncertainty cols) <> vlen_str /\
    free_names c (x, ids w, ticks w).
Proof.
  intros (Hwf & (d & Hd & fields & Hdata & Hcols) & Hfree).
  unfold object_at, open_r in Hd. destruct (files w !! fname) as [hfile|] eqn:Hf; [|done].
  simpl in Hd. unfold getitem in Hd. rewrite (resolve_h5_name _ Hwf) in Hd.
  destruct (get_node (p ++ [c]) _) as [n|] eqn:Hget; [|done]. injection Hd as ->.
  apply get_node_snoc_inv in Hget as (x & Hx & Hc).
  exists hfile, x, d, fields. do 4 (split; [done|]).
  destruct Hcols as (?&?&?&?&?&?&?). do 7 (split; [done|]).
  intros suf Hsuf. specialize (Hfree suf Hsuf). simpl.
  unfold object_at, open_r in Hfree. rewrite Hf in Hfree. simpl in Hfree. unfold getitem in Hfree.
  rewrite h5_name_suffix, (resolve_h5_name _ (link_name_sibling _ _ Hwf _ Hsuf)) in Hfree.
  rewrite (get_node_snoc _ _ _ _ Hx) in Hfree. by apply of_option_None in Hfree.
Qed.

(** The loop body on a legacy record, in one step. *)
Lemma update_prop_normalizes w fname p c cols :
  candidate_at w fname p c cols ->
  exists hfile x,
    files w !! fname = Some hfile /\
    members_at p (root hfile) = Some x /\ free_names c (x, ids w, ticks w) /\
    update_prop fname (h5_name (p ++ [c])) w =
      (local_world fname (files w) (attrs hfile) (root hfile) p (stdout w) (stdin w)
         (normalized c (value cols) (uncertainty cols) (as_float (uncertainty cols))
            (reference cols) (filename cols) (encoder cols) (checksum cols)
            (x, ids w, ticks w)),
       Ok tt).
Proof.
  intros Hcand. pose proof Hcand as (Hwf & _).
  destruct (candidate_inv _ _ _ _ _ Hcand)
    as (hfile & x & d & fields & Hf & Hx & Hc & Hdata & Hv & Hu & Hr & Hfn & He & Hch & Hnum & Hfree).
  exists hfile, x. do 3 (split; [done|]).
  rewrite (world_as_local w fname hfile p x Hf Hx) at 1.
  eapply update_prop_ok; eauto. by apply asarray_as_float.
Qed.

Lemma touched_link_names p c k :
  Forall link_name (p ++ [c]) -> k ∈ touched_names c -> Forall link_name (p ++ [k]).
Proof.
  intros Hwf [->|(suf & -> & Hsuf)%list_elem_of_fmap]%elem_of_cons; [done|].
  exact (link_name_sibling p c Hwf suf Hsuf).
Qed.

Lemma touched_suffix c suf : suf ∈ suffixes -> c +:+ suf ∈ touched_names c.
Proof. intros Hsuf. right. apply list_elem_of_fmap. eauto. Qed.

(** The loop body normalizes the record it runs on. *)
Lemma update_prop_normalized w fname p c cols :
  candidate_at w fname p c cols ->
  exists x,
    (update_prop fname (h5_name (p ++ [c])) w).2 = Ok tt /\
    normalized_with (update_prop fname (h5_name (p ++ [c])) w).1 fname p c cols
      (x, ids w, ticks w).
Proof.
  intros Hcand. pose proof Hcand as (Hwf & _).
  destruct (update_prop_normalizes _ _ _ _ _ Hcand) as (hfile & x & Hf & Hx & Hfree & ->).
  exists x. split; [done|]. split; [done|]. split; [done|]. intros k Hk. simpl fst.
  apply (object_at_local _ _ _ _ _ _ _ _ _ _ Hx). by apply (touched_link_names p c).
Qed.

Section outcome.
Context (w : world) (fname : string) (p : list string) (c : string) (cols : legacy_columns)
        (s : lstate).
Hypothesis Hnorm : normalized_with w fname p c cols s.

Lemma outcome_base :
  object_at fname (h5_name (p ++ [c])) w =
    Ok (Dataset (Dset (Simple (value cols)) (base_attrs c (uncertainty cols) s.1.2 s.2))).
Proof.
  destruct Hnorm as (_ & _ & Hk). rewrite (Hk c) by left. by rewrite base_of_normalized.
Qed.

Lemma outcome_uncertainty :
  object_at fname (h5_name (p ++ [c]) +:+ ".uncertainty") w =
    if (1 <? len_set (uncertainty cols))%nat
    then Ok (new_record (c +:+ ".uncertainty") (as_float (uncertainty cols)) (S s.1.2) (S (S s.2)))
    else Raise KeyError.
Proof.
  destruct Hnorm as (_ & Hfree & Hk). destruct suffix_members as (Su & _).
  rewrite h5_name_suffix, (Hk _ (touched_suffix c _ Su)).
  rewrite uncertainty_of_normalized by (by apply Hfree). by destruct (_ <? _)%nat.
Qed.

Lemma outcome_strings suf col :
  (suf, col) ∈ [(".reference", reference cols); (".filename", filename cols);
                (".encoder", encoder cols); (".checksum", checksum cols)] ->
  (any (StrArr col) = true ->
   exists i t, object_at fname (h5_name (p ++ [c]) +:+ suf) w =
               Ok (new_record (c +:+ suf) (StrArr col) i t)) /\
  (any (StrArr col) = false ->
   object_at fname (h5_name (p ++ [c]) +:+ suf) w = Raise KeyError).
Proof.
  intros Hin. destruct Hnorm as (_ & Hfree & Hk).
  assert (suf ∈ suffixes) as Hsuf.
  { unfold suffixes. rewrite !elem_of_cons in *.
    destruct Hin as [E|[E|[E|[E|[]%elem_of_nil]]]]; injection E as -> _; tauto. }
  rewrite h5_name_suffix, (Hk _ (touched_suffix c _ Hsuf)).
  destruct (strings_of_normalized c (value cols) (uncertainty cols) (as_float (uncertainty cols))
              _ _ _ _ _ _ _ Hfree Hin) as [Hany Hnone].
  split.
  - intros (i & t & ->)%Hany. by exists i, t.
  - by intros ->%Hnone.
Qed.
End outcome.

Lemma stamp_lookup leaf i t key :
  stamp leaf i t !! key =
    if decide (key = "updated_at") then Some (AStr (time_to_str (now_int (S t))))
    else if decide (key = "created_at") then Some (AStr (time_to_str (now_int t)))
    else if decide (key = "entity_id") then Some (AStr (create_id i))
    else if decide (key = "name") then Some (AStr leaf)
    else None.
Proof.
  unfold stamp. repeat (case_decide; [subst; by simplify_map_eq|]). by simplify_map_eq.
Qed.

Lemma any_strings col : any (StrArr col) = true <-> Exists (fun row => row <> "") col.
Proof.
  simpl. rewrite existsb_exists, Exists_exists. unfold str_nonempty.
  split; intros (row & Hin & Hrow); exists row.
  - apply list_elem_of_In in Hin. by rewrite negb_true_iff, bool_decide_eq_false in Hrow.
  - apply list_elem_of_In in Hin. by rewrite negb_true_iff, bool_decide_eq_false.
Qed.

Lemma not_any_strings col : any (StrArr col) = false <-> Forall (fun row => row = "") col.
Proof.
  rewrite <-not_true_iff_false, any_strings, <-Forall_Exists_neg.
  apply Forall_iff. intros row. destruct (decide (row = "")); naive_solver.
Qed.

(** C2. The uncertainty column of a legacy record, after the loop body of
    [update_props] ran on it.  With more than one distinct value: the
    sibling [<path>.uncertainty] holds the column, row by row, as doubles,
    and the base record has no [uncertainty] attribute.  Otherwise, with a
    row that is not zero: there is no sibling and the base record has the
    attribute [uncertainty], the value of the first row, which every
    further row equals.  Otherwise: neither. *)
Theorem C2_uncertainty_column fname w p c cols :
  candidate_at w fname p c cols ->
  let path := h5_name (p ++ [c]) in
  let w' := (update_prop fname path w).1 in
  let unc := uncertainty cols in
  exists base,
    object_at fname path w' = Ok (Dataset base) /\
    ((1 < len_set unc)%nat ->
     (exists i t, object_at fname (path +:+ ".uncertainty") w' =
                  Ok (new_record (c +:+ ".uncertainty") (as_float unc) i t)) /\
     dtype_of (as_float unc) = float64 /\
     arr_len (as_float unc) = arr_len unc /\
     ds_attrs base !! "uncertainty" = None) /\
    ((len_set unc <= 1)%nat -> any unc = true ->
     object_at fname (path +:+ ".uncertainty") w' = Raise KeyError /\
     exists u0, getitem0 unc = Ok u0 /\ ds_attrs base !! "uncertainty" = Some u0 /\
                Forall (fun v => attr_eqb v u0 = true) (tail (row_values unc))) /\
    ((len_set unc <= 1)%nat -> any unc = false ->
     object_at fname (path +:+ ".uncertainty") w' = Raise KeyError /\
     ds_attrs base !! "uncertainty" = None).
Proof.
  intros Hcand path w' unc. subst path w' unc.
  pose proof Hcand as (Hwf & (d0 & _ & _ & _ & _ & _ & _ & _ & _ & _ & Hnum) & _).
  destruct (update_prop_normalized _ _ _ _ _ Hcand) as (x & _ & Hnorm).
  rewrite (outcome_base _ _ _ _ _ _ Hnorm), (outcome_uncertainty _ _ _ _ _ _ Hnorm).
  eexists. split; [reflexivity|]. simpl ds_attrs. unfold base_attrs. simpl.
  destruct (asarray_as_float _ Hnum) as (_ & Hdt & Hlen).
  split; [|split].
  - intros ->%Nat.ltb_lt. split; [eauto|]. do 2 (split; [done|]). by rewrite stamp_lookup.
  - intros Hfew Hany. pose proof Hfew as Hle%Nat.ltb_ge. rewrite Hle, Hany. split; [done|].
    destruct (any_getitem0 _ Hany) as [u0 Hu0]. exists u0. rewrite Hu0.
    split; [done|]. split; [by rewrite lookup_insert_eq|by apply len_set_few].
  - intros Hle%Nat.ltb_ge Hany. rewrite Hle, Hany. split; [done|]. by rewrite stamp_lookup.
Qed.

(** C3. The four columns of strings of a legacy record, each on its own,
    after the loop body of [update_props] ran on the record: when a row of
    the column is not empty the sibling [<path>.<field>] holds the whole
    column, empty rows at their places; when all rows are empty there is no
    sibling of that name. *)
Theorem C3_string_columns fname w p c cols suf col :
  candidate_at w fname p c cols ->
  (suf, col) ∈ [(".reference", reference cols); (".filename", filename cols);
                (".encoder", encoder cols); (".checksum", checksum cols)] ->
  let path := h5_name (p ++ [c]) in
  let w' := (update_prop fname path w).1 in
  (Exists (fun row => row <> "") col ->
   exists i t, object_at fname (path +:+ suf) w' = Ok (new_record (c +:+ suf) (StrArr col) i t)) /\
  (Forall (fun row => row = "") col ->
   object_at fname (path +:+ suf) w' = Raise KeyError).
Proof.
  intros Hcand Hin path w'. subst path w'.
  destruct (update_prop_normalized _ _ _ _ _ Hcand) as (x & _ & Hnorm).
  destruct (outcome_strings _ _ _ _ _ _ Hnorm suf col Hin) as [Hany Hnone].
  split.
  - by intros ?%any_strings%Hany.
  - by intros ?%not_any_strings%Hnone.
Qed.

(** C5. The base record after the loop body of [update_props] ran on a
    legacy record: at the path of the legacy record there is a dataset of
    the value column alone, of the type of that column, whose attributes
    are the name (the last component of the path), a newly drawn entity
    identifier, two readings of the clock taken at its creation as
    [created_at] and [updated_at], and at most [uncertainty]; no attribute
    of the legacy record is left. *)
Theorem C5_base_record_replaced fname w p c cols :
  candidate_at w fname p c cols ->
  let path := h5_name (p ++ [c]) in
  let w' := (update_prop fname path w).1 in
  exists attrs',
    object_at fname path w' = Ok (Dataset (Dset (Simple (value cols)) attrs')) /\
    getitem_last (split "/" path) = Ok c /\
    attrs' !! "name" = Some (AStr c) /\
    attrs' !! "entity_id" = Some (AStr (create_id (ids w))) /\
    attrs' !! "created_at" = Some (AStr (time_to_str (now_int (ticks w)))) /\
    attrs' !! "updated_at" = Some (AStr (time_to_str (now_int (S (ticks w))))) /\
    (forall key, is_Some (attrs' !! key) ->
                 key ∈ ["name"; "entity_id"; "created_at"; "updated_at"; "uncertainty"]).
Proof.
  intros Hcand path w'. subst path w'.
  pose proof Hcand as (Hwf & _).
  destruct (update_prop_normalized _ _ _ _ _ Hcand) as (x & _ & Hnorm).
  rewrite (outcome_base _ _ _ _ _ _ Hnorm). eexists. split; [reflexivity|].
  split; [by apply last_split_h5_name|]. simpl.
  assert (forall key, key <> "uncertainty" ->
            base_attrs c (uncertainty cols) (ids w) (ticks w) !! key =
            stamp c (ids w) (ticks w) !! key) as Hbase.
  { intros key Hne. unfold base_attrs. destruct (_ <? _)%nat; [done|].
    destruct (any _); [|done]. destruct (getitem0 _); [|done]. by rewrite lookup_insert_ne. }
  rewrite !Hbase, !stamp_lookup by done. repeat (split; [done|]).
  intros key Hkey. destruct (decide (key = "uncertainty")) as [->|Hne].
  - rewrite !elem_of_cons. tauto.
  - rewrite Hbase, stamp_lookup in Hkey by done. rewrite !elem_of_cons.
    repeat case_decide; subst; try tauto. by destruct Hkey.
Qed.

End records.

End normalization.

Section sample_records.
Local Open Scope res_scope.

Ltac link_names := repeat first [apply Forall_nil_2 | apply Forall_cons_2 | by apply link_name_intro].

Lemma sample_candidate name unc ref :
  (name, Sample.legacy unc ref) ∈ Sample.section_members ->
  dtype_of unc <> vlen_str ->
  candidate_at Sample.w0 "old.nix" ["metadata"; "session"] name (Sample.columns unc ref).
Proof.
  unfold Sample.section_members. rewrite !elem_of_cons, elem_of_nil.
  intros Hin Hnum. unfold Sample.legacy in Hin.
  assert (name = "zeros" \/ name = "fives" \/ name = "mixed") as Hname.
  { destruct Hin as [E|[E|[E|[E|[]]]]]; try discriminate E; injection E; auto. }
  split; [|split].
  - destruct Hname as [-> | [-> | ->]]; simpl; link_names.
  - exists (Dset (Compound [("value", IntArr [10; 20; 30]); ("uncertainty", unc);
                            ("reference", StrArr ref); ("filename", StrArr [""; ""; ""]);
                            ("encoder", StrArr [""; ""; ""]); ("checksum", StrArr [""; ""; ""])])
              {["entity_id" := AStr "legacy"]}).
    split; [|eexists; repeat split; done].
    destruct Hin as [E|[E|[E|[E|[]]]]]; try discriminate E; by injection E as -> -> ->.
  - intros suf Hsuf. unfold suffixes in Hsuf. rewrite !elem_of_cons, elem_of_nil in Hsuf.
    destruct Hname as [-> | [-> | ->]];
      destruct Hsuf as [-> | [-> | [-> | [-> | [-> | []]]]]]; reflexivity.
Qed.

Lemma zeros_member :
  ("zeros", Sample.legacy (FloatArr [Sample.zero; Sample.zero; Sample.zero]) [""; "a"; ""])
    ∈ Sample.section_members.
Proof. unfold Sample.section_members. rewrite !elem_of_cons. tauto. Qed.
Lemma fives_member :
  ("fives", Sample.legacy (IntArr [5; 5; 5]) [""; ""; ""]) ∈ Sample.section_members.
Proof. unfold Sample.section_members. rewrite !elem_of_cons. tauto. Qed.
Lemma mixed_member :
  ("mixed", Sample.legacy (IntArr [1; 2; 2]) [""; ""; ""]) ∈ Sample.section_members.
Proof. unfold Sample.section_members. rewrite !elem_of_cons. tauto. Qed.

Lemma C2_witness :
  (let w' := (update_prop "old.nix" "/metadata/session/zeros" Sample.w0).1 in
   exists base,
     object_at "old.nix" "/metadata/session/zeros" w' = Ok (Dataset base) /\
     object_at "old.nix" "/metadata/session/zeros.uncertainty" w' = Raise KeyError /\
     ds_attrs base !! "uncertainty" = None) /\
  (let w' := (update_prop "old.nix" "/metadata/session/fives" Sample.w0).1 in
   exists base,
     object_at "old.nix" "/metadata/session/fives" w' = Ok (Dataset base) /\
     object_at "old.nix" "/metadata/session/fives.uncertainty" w' = Raise KeyError /\
     ds_attrs base !! "uncertainty" = Some (AInt 5)) /\
  (let w' := (update_prop "old.nix" "/metadata/session/mixed" Sample.w0).1 in
   exists base i t,
     object_at "old.nix" "/metadata/session/mixed" w' = Ok (Dataset base) /\
     object_at "old.nix" "/metadata/session/mixed.uncertainty" w' =
       Ok (new_record "mixed.uncertainty" (FloatArr [Sample.one; Sample.two; Sample.two]) i t) /\
     ds_attrs base !! "uncertainty" = None).
Proof.
  split; [|split].
  - destruct (C2_uncertainty_column "old.nix" Sample.w0 ["metadata"; "session"] "zeros" _
                (sample_candidate _ _ _ zeros_member ltac:(done)))
      as (base & Hbase & _ & _ & Hzero).
    exists base. split; [exact Hbase|]. apply Hzero; [vm_compute; lia|reflexivity].
  - destruct (C2_uncertainty_column "old.nix" Sample.w0 ["metadata"; "session"] "fives" _
                (sample_candidate _ _ _ fives_member ltac:(done)))
      as (base & Hbase & _ & Hone & _).
    exists base. split; [exact Hbase|].
    destruct Hone as (Hsib & u0 & Hu0 & Hattr & _); [vm_compute; lia|reflexivity|].
    split; [exact Hsib|]. injection Hu0 as <-. exact Hattr.
  - destruct (C2_uncertainty_column "old.nix" Sample.w0 ["metadata"; "session"] "mixed" _
                (sample_candidate _ _ _ mixed_member ltac:(done)))
      as (base & Hbase & Hmany & _ & _).
    destruct Hmany as ((i & t & Hsib) & _ & _ & Hattr); [vm_compute; lia|].
    exists base, i, t. split; [exact Hbase|]. split; [exact Hsib|exact Hattr].
Defined.

Lemma C3_witness :
  (let w' := (update_prop "old.nix" "/metadata/session/zeros" Sample.w0).1 in
   exists i t,
     object_at "old.nix" "/metadata/session/zeros.reference" w' =
       Ok (new_record "zeros.reference" (StrArr [""; "a"; ""]) i t)) /\
  (let w' := (update_prop "old.nix" "/metadata/session/fives" Sample.w0).1 in
   object_at "old.nix" "/metadata/session/fives.reference" w' = Raise KeyError).
Proof.
  split.
  - refine (proj1 (C3_string_columns "old.nix" Sample.w0 ["metadata"; "session"] "zeros" _
                     ".reference" [""; "a"; ""]
                     (sample_candidate _ _ _ zeros_member ltac:(done)) _) _).
    + left.
    + apply Exists_cons_tl, Exists_cons_hd. done.
  - refine (proj2 (C3_string_columns "old.nix" Sample.w0 ["metadata"; "session"] "fives" _
                     ".reference" [""; ""; ""]
                     (sample_candidate _ _ _ fives_member ltac:(done)) _) _).
    + left.
    + repeat constructor.
Defined.

Lemma C5_witness :
  let w' := (update_prop "old.nix" "/metadata/session/fives" Sample.w0).1 in
  exists attrs',
    object_at "old.nix" "/metadata/session/fives" w' =
      Ok (Dataset (Dset (Simple (IntArr [10; 20; 30])) attrs')) /\
    attrs' !! "name" = Some (AStr "fives") /\
    attrs' !! "entity_id" = Some (AStr "00000000-0000-4000-8000-000000000000") /\
    attrs' !! "created_at" = Some (AStr "1600000000") /\
    attrs' !! "updated_at" = Some (AStr "1600000001").
Proof.
  destruct (C5_base_record_replaced "old.nix" Sample.w0 ["metadata"; "session"] "fives" _
              (sample_candidate _ _ _ fives_member ltac:(done)))
    as (attrs' & Hbase & _ & Hname & Hid & Hc & Hu & _).
  exists attrs'. split; [exact Hbase|]. split; [exact Hname|].
  split; [exact Hid|]. split; [exact Hc|exact Hu].
Defined.

End sample_records.

(** ** Running a plan *)
Section running_a_plan.
Local Close Scope Z_scope.
Local Open Scope res_scope.
Local Open Scope M_scope.

Section apply.
Context `{Imports}.
Implicit Types (w : world) (hfile : h5file).

Lemma collect_tasks_files fname w : files (collect_tasks fname w).1 = files w.
Proof.
  unfold collect_tasks, bind, reading, lift, print, ret.
  destruct (get_file_version fname w); [|done].
  destruct (tuple_ge _ _) as [[|]|]; [done| |done].
  destruct (has_valid_file_id fname w) as [[|]|]; simpl; [done| |done].
  by destruct (update_property_values fname w).
Qed.

Lemma collect_tasks_shape fname w tasks :
  (collect_tasks fname w).2 = Ok (Some tasks) ->
  tasks = [update_ver fname] \/
  exists props, tasks = [add_id fname; update_props fname props; update_ver fname].
Proof.
  unfold collect_tasks, bind, reading, lift.
  destruct (get_file_version fname w) as [ver|]; [|done].
  destruct (tuple_ge _ _) as [[|]|]; [done| |done].
  destruct (has_valid_file_id fname w) as [[|]|]; simpl; [| |done].
  - intros [= <-]. by left.
  - unfold update_property_values.
    destruct (open_r fname w) as [hfile|]; simpl; [|done].
    destruct (getitem "metadata" hfile) as [[ms|d]|]; simpl; [|done..].
    intros [= <-]. right. eauto.
Qed.

Lemma collect_tasks_below fname w hfile v :
  files w !! fname = Some hfile ->
  attrs hfile !! "version" = Some (AInts v) ->
  lexico v HDF_FF_VERSION ->
  (collect_tasks fname w).2 <> Ok None.
Proof.
  intros Hf Hv Hl. unfold collect_tasks, bind, reading, lift.
  rewrite (get_file_version_ints _ _ _ _ Hf Hv), (tuple_ge_lt _ _ Hl).
  destruct (has_valid_file_id fname w) as [[|]|]; simpl; [done| |done].
  by destruct (update_property_values fname w).
Qed.

Lemma keeps_version_set_id v x : keeps (has_attrs (version_is v)) (set_root_attr "id" x).
Proof.
  intros hfile hfile' HQ [= <-]. unfold has_attrs, version_is in *. simpl.
  by rewrite lookup_insert_ne.
Qed.

Lemma preserves_version_add_id fname v :
  preserves (on_file fname (has_attrs (version_is v))) (call (add_id fname)).
Proof.
  simpl. apply preserves_bind; [apply preserves_open_a|]. intros _.
  apply preserves_bind; [apply preserves_new_id|]. intros fileid.
  apply preserves_modify. intros _. apply keeps_version_set_id.
Qed.

Lemma preserves_attrs_update_props fname R props :
  preserves (on_file fname (has_attrs R)) (call (update_props fname props)).
Proof.
  simpl. apply preserves_for_each. intros propname _.
  apply preserves_update_prop;
    auto using keeps_attrs_delitem, keeps_attrs_set_attr, keeps_attrs_link,
      keeps_attrs_make_groups.
Qed.

Lemma call_update_ver fname w hfile :
  files w !! fname = Some hfile ->
  exists w', call (update_ver fname) w = (w', Ok tt) /\
             on_file fname (has_attrs (version_is HDF_FF_VERSION)) w'.
Proof.
  intros Hf. simpl. unfold bind, open_a, modify, bind, reading, lift, open_r, put_file.
  rewrite Hf. simpl. rewrite Hf. simpl. eexists. split; [done|].
  eexists. simpl. rewrite lookup_insert_eq. split; [done|].
  unfold has_attrs, version_is. simpl. by rewrite lookup_insert_eq.
Qed.

(** Running a plan: the version attribute stays a tuple that is not below
    the one before, and is the target once the last task returned. *)
Lemma run_plan fname w v tasks :
  on_file fname (has_attrs (version_is v)) w ->
  lexico v HDF_FF_VERSION ->
  tasks = [update_ver fname] \/
  (exists props, tasks = [add_id fname; update_props fname props; update_ver fname]) ->
  exists v2 w' r,
    for_each call tasks w = (w', r) /\
    on_file fname (has_attrs (version_is v2)) w' /\
    ~ lexico v2 v /\
    (r = Ok tt -> v2 = HDF_FF_VERSION).
Proof.
  intros Hw Hl Htasks.
  assert (~ lexico v v) as Hirr by apply irreflexivity, _.
  assert (~ lexico HDF_FF_VERSION v) as Hasym.
  { intros Hl'. apply Hirr. by etrans. }
  assert (forall w0, on_file fname (has_attrs (version_is v)) w0 ->
            exists v2 w' r,
              for_each call [update_ver fname] w0 = (w', r) /\
              on_file fname (has_attrs (version_is v2)) w' /\
              ~ lexico v2 v /\ (r = Ok tt -> v2 = HDF_FF_VERSION)) as Hbump.
  { intros w0 (h & Hf & _). destruct (call_update_ver fname w0 h Hf) as (w' & Hcall & Hw').
    exists HDF_FF_VERSION, w', (Ok tt).
    change (for_each call [update_ver fname] w0)
      with (bind (call (update_ver fname)) (fun _ => ret tt) w0).
    unfold bind. rewrite Hcall. simpl. auto. }
  destruct Htasks as [->|(props & ->)]; [by apply Hbump|].
  change (for_each call [add_id fname; update_props fname props; update_ver fname] w)
    with (bind (call (add_id fname))
            (fun _ => bind (call (update_props fname props))
                        (fun _ => for_each call [update_ver fname])) w).
  unfold bind.
  pose proof (preserves_version_add_id fname v w Hw) as H1.
  destruct (call (add_id fname) w) as [w1 [[]|e]]; simpl in H1;
    [|by exists v, w1, (Raise e)].
  pose proof (preserves_attrs_update_props fname (version_is v) props w1 H1) as H2.
  destruct (call (update_props fname props) w1) as [w2 [[]|e]]; simpl in H2;
    [|by exists v, w2, (Raise e)].
  by apply Hbump.
Qed.

(** C7. A file whose version is a tuple of integers [v], planned and then
    run through the plan (nothing is run when there is no plan): the
    version attribute afterwards is a tuple [v2] that is not below [v],
    also when a task raised; when all tasks returned and the version bump
    was among them [v2] is the target, and planning the file again finds it
    up to date. *)
Theorem C7_version_monotone_and_round_trip fname w hfile v plan w1 :
  files w !! fname = Some hfile ->
  attrs hfile !! "version" = Some (AInts v) ->
  collect_tasks fname w = (w1, Ok plan) ->
  let tasks := default [] plan in
  let w2 := (for_each call tasks w1).1 in
  exists hfile2 v2,
    files w2 !! fname = Some hfile2 /\
    attrs hfile2 !! "version" = Some (AInts v2) /\
    ~ lexico v2 v /\
    ((for_each call tasks w1).2 = Ok tt ->
     (update_ver fname ∈ tasks -> v2 = HDF_FF_VERSION) /\
     (collect_tasks fname w2).2 = Ok None).
Proof.
  intros Hf Hv Hplan tasks w2. subst tasks w2.
  assert (files w1 = files w) as Hfiles.
  { change w1 with (w1, Ok plan).1. rewrite <-Hplan. apply collect_tasks_files. }
  assert ((collect_tasks fname w).2 = Ok plan) as Hres by (by rewrite Hplan).
  assert (on_file fname (has_attrs (version_is v)) w1) as Hw1.
  { exists hfile. by rewrite Hfiles. }
  destruct (tuple_ge_ints v HDF_FF_VERSION) as [[_ Hl]|[_ Hl]].
  - destruct plan as [tasks|].
    2:{ by destruct (collect_tasks_below fname w hfile v). }
    simpl default.
    destruct (run_plan fname w1 v tasks Hw1 Hl (collect_tasks_shape _ _ _ Hres))
      as (v2 & w' & r & -> & (h2 & Hf2 & Hv2) & Hmono & Htarget).
    exists h2, v2. simpl. do 3 (split; [done|]). intros Hok. specialize (Htarget Hok) as ->.
    split; [done|]. eapply collect_tasks_up_to_date; eauto. apply irreflexivity, _.
  - rewrite (collect_tasks_up_to_date _ _ _ _ Hf Hv Hl) in Hres. injection Hres as <-.
    simpl. exists hfile, v. rewrite Hfiles. do 2 (split; [done|]).
    split; [apply irreflexivity, _|]. intros _. split; [by intros ?%elem_of_nil|].
    eapply collect_tasks_up_to_date; eauto. by rewrite Hfiles.
Qed.

End apply.

End running_a_plan.

Section snapshots.
Local Open Scope res_scope.
Local Open Scope M_scope.

Lemma sample_plan :
  collect_tasks "old.nix" Sample.w0 =
    ((collect_tasks "old.nix" Sample.w0).1,
     Ok (Some [add_id "old.nix";
               update_props "old.nix"
                 ["/metadata/session/zeros"; "/metadata/session/fives"; "/metadata/session/mixed"];
               update_ver "old.nix"])).
Proof. vm_compute. reflexivity. Qed.

Lemma C7_witness :
  let plan := [add_id "old.nix";
               update_props "old.nix"
                 ["/metadata/session/zeros"; "/metadata/session/fives"; "/metadata/session/mixed"];
               update_ver "old.nix"] in
  let w1 := (collect_tasks "old.nix" Sample.w0).1 in
  let w2 := (for_each call plan w1).1 in
  exists hfile2,
    files w2 !! "old.nix" = Some hfile2 /\
    attrs hfile2 !! "version" = Some (AInts [1; 2; 0]) /\
    (collect_tasks "old.nix" w2).2 = Ok None.
Proof.
  intros plan w1 w2.
  destruct (C7_version_monotone_and_round_trip "old.nix" Sample.w0 Sample.legacy_file [1; 1; 0]
              (Some plan) w1 eq_refl eq_refl sample_plan)
    as (hfile2 & v2 & Hf & Hv & _ & Hok).
  destruct Hok as [Htarget Hagain]; [vm_compute; reflexivity|].
  exists hfile2. split; [exact Hf|]. split; [|exact Hagain].
  rewrite Hv, Htarget; [reflexivity|].
  unfold plan. simpl. rewrite !elem_of_cons. tauto.
Defined.

Section snapshot.
Context `{Imports}.
Implicit Types (w : world) (hfile : h5file).

(** C10. The list of paths of the normalization task is the scan of the
    file as it was when the task was made, which changes nothing; the
    description counts this list.  Calling the task in a later world [w']
    runs the loop body on the paths of the list and on nothing else: a
    dataset of [w'] that is neither at or below a path of the list nor at
    the name of a sibling of one is there unchanged afterwards, whether
    the task returns or raises. *)
Theorem C10_task_runs_on_snapshot fname w hfile metadata :
  files w !! fname = Some hfile ->
  assoc "metadata" (root hfile) = Some (Group metadata) ->
  let props := scan (Group metadata) in
  let t := update_props fname props in
  update_property_values fname w = Ok t /\
  (reading (update_property_values fname) w).1 = w /\
  doc t = "Update " +:+ pretty (length props) +:+ " properties" /\
  forall w',
    call t w' = for_each (update_prop fname) props w' /\
    forall q d,
      on_file fname (has_dataset q d) w' ->
      (forall propname,
         propname ∈ props ->
         ~ resolve propname `prefix_of` q /\
         forall suf, suf ∈ suffixes -> resolve (propname +:+ suf) <> q) ->
      on_file fname (has_dataset q d) (call t w').1.
Proof.
  intros Hf Hm props t. subst props t.
  split; [by eapply update_property_values_ok|]. do 2 (split; [done|]).
  intros w'. split; [done|]. intros q d Hq Hprops.
  apply (preserves_for_each (on_file fname (has_dataset q d)) (update_prop fname)
           (scan (Group metadata))); [|exact Hq]. intros propname Hin.
  destruct (Hprops propname Hin) as [Hpre Hsib].
  apply preserves_update_prop.
  - by apply keeps_delitem.
  - intros suf key v [->|Hsuf]%elem_of_cons; apply keeps_set_attr; [|by apply Hsib].
    rewrite append_nil_r. intros E. apply Hpre. by rewrite E.
  - apply keeps_make_groups.
  - apply keeps_link.
Qed.

End snapshot.

Lemma C10_witness :
  let t := update_props "old.nix" (scan (Group Sample.metadata)) in
  update_property_values "old.nix" Sample.w0 = Ok t /\
  doc t = "Update 3 properties" /\
  on_file "old.nix" (has_dataset ["metadata"; "session"; "late"] Sample.late)
    (call t Sample.w_later).1.
Proof.
  destruct (C10_task_runs_on_snapshot "old.nix" Sample.w0 Sample.legacy_file Sample.metadata
              eq_refl eq_refl) as (Htask & _ & Hdoc & Hlater).
  split; [exact Htask|]. split; [exact Hdoc|].
  apply (Hlater Sample.w_later).
  - exists Sample.later_file. split; reflexivity.
  - intros propname Hin.
    change (scan (Group Sample.metadata))
      with ["/metadata/session/zeros"; "/metadata/session/fives"; "/metadata/session/mixed"]
      in Hin.
    rewrite !elem_of_cons, elem_of_nil in Hin.
    destruct Hin as [-> | [-> | [-> | []]]];
      (split;
       [ intros [k Hk]; vm_compute in Hk; discriminate Hk
       | intros suf Hsuf; unfold suffixes in Hsuf; rewrite !elem_of_cons, elem_of_nil in Hsuf;
         destruct Hsuf as [-> | [-> | [-> | [-> | [-> | []]]]]]; vm_compute; discriminate ]).
Defined.

End snapshots.

(** ** Failures while planning *)
Section failures.
Local Open Scope res_scope.
Local Open Scope M_scope.

Section uncaught.
Context `{Imports}.
Implicit Types (w : world) (hfile : h5file).

(** Planning reads the files and nothing else of the world. *)
Lemma collect_tasks_reads_files fname w w' :
  files w = files w' -> (collect_tasks fname w).2 = (collect_tasks fname w').2.
Proof.
  intros Hf.
  assert (get_file_version fname w = get_file_version fname w') as Hver
    by (unfold get_file_version, open_r; by rewrite Hf).
  assert (has_valid_file_id fname w = has_valid_file_id fname w') as Hid
    by (unfold has_valid_file_id, open_r; by rewrite Hf).
  assert (update_property_values fname w = update_property_values fname w') as Hscan
    by (unfold update_property_values, open_r; by rewrite Hf).
  unfold collect_tasks, bind, reading, lift. rewrite Hver.
  destruct (get_file_version fname w') as [ver|]; [|done].
  destruct (tuple_ge _ _) as [[|]|]; [done| |done]. simpl. rewrite Hid.
  destruct (has_valid_file_id fname w') as [[|]|]; simpl; [done| |done].
  rewrite Hscan. by destruct (update_property_values fname w').
Qed.

Lemma collect_tasks_untouched fname w : untouched w (collect_tasks fname w).1.
Proof.
  unfold collect_tasks, bind, reading, lift, print, ret, untouched.
  destruct (get_file_version fname w); [|done].
  destruct (tuple_ge _ _) as [[|]|]; [done| |done].
  destruct (has_valid_file_id fname w) as [[|]|]; simpl; [done| |done].
  by destruct (update_property_values fname w).
Qed.

Lemma plan_all_raises filenames tasks w bad e :
  bad ∈ filenames ->
  (collect_tasks bad w).2 = Raise e ->
  exists e', (plan_all filenames tasks w).2 = Raise e' /\
             untouched w (plan_all filenames tasks w).1.
Proof.
  revert tasks w. induction filenames as [|fname rest IH]; intros tasks w Hin Hbad.
  { by apply elem_of_nil in Hin. }
  simpl. unfold bind.
  pose proof (collect_tasks_untouched fname w) as Hun.
  destruct (collect_tasks fname w) as [w1 [tasklist|e1]] eqn:Hplan; simpl in Hun;
    [|by exists e1].
  assert (bad ∈ rest) as Hin'.
  { apply elem_of_cons in Hin as [->|?]; [|done]. by rewrite Hplan in Hbad. }
  assert ((collect_tasks bad w1).2 = Raise e) as Hbad'.
  { rewrite <-Hbad. apply collect_tasks_reads_files. apply Hun. }
  assert (forall tasks', exists e', (plan_all rest tasks' w1).2 = Raise e' /\
                                    untouched w (plan_all rest tasks' w1).1) as Hrest.
  { intros tasks'. destruct (IH tasks' w1 Hin' Hbad') as (e' & He' & Hun').
    exists e'. split; [done|]. destruct Hun as (?&?&?&?), Hun' as (?&?&?&?).
    repeat split; congruence. }
  destruct tasklist as [[|task tasklist]|]; apply Hrest.
Qed.

(** C6, amended. A version attribute that is missing or a scalar makes the
    planning of the file raise (KeyError, TypeError); and when the planning
    of one of the files given raises, so does the run: no file is changed,
    no identifier drawn, the clock not read and no input taken. *)
Theorem C6_unreadable_version_stops_the_run a w bad :
  bad ∈ file a ->
  (forall hfile, files w !! bad = Some hfile ->
     (attrs hfile !! "version" = None -> (collect_tasks bad w).2 = Raise KeyError) /\
     (forall z, attrs hfile !! "version" = Some (AInt z) ->
                (collect_tasks bad w).2 = Raise TypeError)) /\
  (forall e, (collect_tasks bad w).2 = Raise e ->
     exists e', (main a w).2 = Raise e' /\
                files (main a w).1 = files w /\ ids (main a w).1 = ids w /\
                ticks (main a w).1 = ticks w /\ stdin (main a w).1 = stdin w).
Proof.
  intros Hin. split.
  - intros hfile Hf. unfold collect_tasks, bind, reading, get_file_version, open_r.
    rewrite Hf. simpl. split; [by intros ->|]. by intros z ->.
  - intros e Hbad. destruct (plan_all_raises (file a) [] w bad e Hin Hbad) as (e' & He' & Hun).
    exists e'. unfold main, bind.
    destruct (plan_all (file a) [] w) as [w1 [tasks|e1]]; simpl in *; [done|]. by simplify_eq.
Qed.

End uncaught.

(** C6 fails on two files of which the first lacks the version attribute:
    the run raises KeyError and the second file is not upgraded, as it is
    when given alone. *)
Lemma C6_counterexample :
  ~ continues_past "bad.nix" (Args true ["bad.nix"; "old.nix"]) Sample.w0.
Proof.
  intros Hrun.
  assert ("old.nix" ∈ file (Args true ["bad.nix"; "old.nix"])) as Hin
    by (simpl; rewrite !elem_of_cons; tauto).
  specialize (Hrun "old.nix" Hin ltac:(discriminate)).
  assert (forall o o' : option h5file, o = o' ->
            (o ≫= fun hfile => attrs hfile !! "version") =
            (o' ≫= fun hfile => attrs hfile !! "version")) as Hversion by (by intros ?? ->).
  apply Hversion in Hrun. vm_compute in Hrun. discriminate Hrun.
Qed.

Lemma C6_witness :
  exists e, (main (Args true ["bad.nix"; "old.nix"]) Sample.w0).2 = Raise e /\
            files (main (Args true ["bad.nix"; "old.nix"]) Sample.w0).1 = files Sample.w0.
Proof.
  destruct (C6_unreadable_version_stops_the_run (Args true ["bad.nix"; "old.nix"]) Sample.w0
              "bad.nix" ltac:(left)) as [Hplan Hrun].
  destruct (Hrun KeyError) as (e & He & Hfiles & _).
  - apply (Hplan Sample.headless_file); reflexivity.
  - exists e. split; [exact He|exact Hfiles].
Defined.

End failures.

(** ** The task on all records of a file *)
Section all_records_of_a_file.
Local Close Scope Z_scope.
Local Open Scope res_scope.
Local Open Scope M_scope.

Implicit Types (p q : list string) (ms x : list (string * node)) (hfile : h5file) (s : lstate).

(** Names with suffixes *)
Lemma chars_app (a b : string) :
  String.list_ascii_of_string (a +:+ b) =
  String.list_ascii_of_string a ++ String.list_ascii_of_string b.
Proof. induction a as [|c a IH]; [done|]. rewrite append_cons. simpl. by rewrite IH. Qed.

Lemma chars_inj (a b : string) :
  String.list_ascii_of_string a = String.list_ascii_of_string b -> a = b.
Proof.
  intros E. by rewrite <-(String.string_of_list_ascii_of_string a),
    <-(String.string_of_list_ascii_of_string b), E.
Qed.

Lemma suffixed_inj c c' suf suf' :
  suf ∈ suffixes -> suf' ∈ suffixes -> c +:+ suf = c' +:+ suf' -> c = c' /\ suf = suf'.
Proof.
  intros Hs Hs' E.
  assert (suf = suf') as <-.
  { apply (f_equal String.list_ascii_of_string) in E. rewrite !chars_app in E.
    apply (f_equal (@rev ascii)) in E. rewrite !rev_app_distr in E.
    unfold suffixes in Hs, Hs'. rewrite !elem_of_cons, elem_of_nil in Hs, Hs'.
    destruct Hs as [-> | [-> | [-> | [-> | [-> | []]]]]];
      destruct Hs' as [-> | [-> | [-> | [-> | [-> | []]]]]];
      try reflexivity; simpl in E; discriminate E. }
  split; [|done]. apply (f_equal String.list_ascii_of_string) in E. rewrite !chars_app in E.
  apply app_inv_tail in E. by apply chars_inj.
Qed.

(** Objects off the way of a graft *)
Lemma get_node_graft q p x' ms x :
  members_at p ms = Some x ->
  (forall g, get_node q (Group ms) <> Some (Group g)) ->
  (forall k rest, q = p ++ k :: rest -> assoc k x' = assoc k x) ->
  get_node q (Group (graft p x' ms)) = get_node q (Group ms).
Proof.
  revert q ms. induction p as [|c1 p IH]; intros q ms Hx Hgroup Hway.
  - simpl in *. injection Hx as ->. destruct q as [|k rest]; [by destruct (Hgroup x)|].
    simpl. by rewrite (Hway k rest eq_refl).
  - simpl in Hx |- *. destruct (assoc c1 ms) as [[sub|d]|] eqn:Hc1; [|done..].
    destruct q as [|c0 q]; [by destruct (Hgroup ms)|]. simpl.
    destruct (decide (c1 = c0)) as [->|Hne]; [|by rewrite assoc_replace_ne].
    rewrite assoc_replace_eq by (by rewrite Hc1). rewrite Hc1.
    apply IH; [done| |].
    + intros g Hg. apply (Hgroup g). simpl. by rewrite Hc1.
    + intros k rest ->. by apply (Hway k rest).
Qed.

Lemma get_node_through q k rest n y :
  get_node (q ++ k :: rest) n = Some y ->
  exists g, get_node q n = Some (Group g) /\ is_Some (assoc k g).
Proof.
  revert n. induction q as [|c q IH]; intros n; simpl.
  - destruct n as [g|d]; [|done]. destruct (assoc k g) eqn:E; [|done]. eauto.
  - destruct n as [g|d]; [|done]. destruct (assoc c g); [apply IH|done].
Qed.

Section others.
Context `{Imports} (c : string).

Lemma assoc_normalized_other k values unc uarr lref lfn lenc lchk s :
  k ∉ touched_names c ->
  assoc k (normalized c values unc uarr lref lfn lenc lchk s).1.1 = assoc k s.1.1.
Proof.
  unfold touched_names. rewrite not_elem_of_cons. intros [Hc Hsuf].
  assert (forall suf, suf ∈ suffixes -> k <> c +:+ suf) as Hne.
  { intros suf Hin ->. apply Hsuf. apply list_elem_of_fmap. eauto. }
  destruct suffix_members as (Su & Sr & Sf & Se & Sc).
  unfold normalized. rewrite !assoc_when_other by auto.
  unfold split_uncertainty.
  assert (assoc k (replace_base c values s).1.1 = assoc k s.1.1) as Hbase.
  { destruct s as [[x i] t]. simpl. rewrite assoc_snoc_ne by done. by rewrite assoc_remove_ne. }
  destruct (1 <? len_set unc)%nat.
  - rewrite <-Hbase. destruct (replace_base c values s) as [[x i] t]. simpl.
    rewrite assoc_snoc_ne; [done|]. apply not_eq_sym. auto.
  - destruct (any unc); [|done]. destruct (getitem0 unc); [|done].
    by rewrite assoc_set_member_attr_other.
Qed.

(** The touched names hold datasets or nothing. *)
Lemma assoc_normalized_touched k values unc uarr lref lfn lenc lchk s g :
  free_names c s -> k ∈ touched_names c ->
  assoc k (normalized c values unc uarr lref lfn lenc lchk s).1.1 <> Some (Group g).
Proof.
  intros Hfree [->|(suf & -> & Hsuf)%list_elem_of_fmap]%elem_of_cons.
  - by rewrite base_of_normalized.
  - destruct suffix_members as (Su & Sr & Sf & Se & Sc).
    unfold suffixes in Hsuf. rewrite !elem_of_cons, elem_of_nil in Hsuf.
    destruct Hsuf as [-> | Hsuf].
    { rewrite uncertainty_of_normalized by (by apply Hfree).
      by destruct (1 <? len_set unc)%nat. }
    assert (exists col, (suf, col) ∈ [(".reference", lref); (".filename", lfn);
                                       (".encoder", lenc); (".checksum", lchk)]) as [col Hcol].
    { destruct Hsuf as [-> | [-> | [-> | [-> | []]]]];
        eexists; rewrite !elem_of_cons; eauto 6. }
    destruct (strings_of_normalized c values unc uarr lref lfn lenc lchk s suf col Hfree Hcol)
      as [Hany Hnone].
    destruct (any (StrArr col)).
    + destruct (Hany eq_refl) as (i & t & ->). done.
    + by rewrite (Hnone eq_refl).
Qed.
End others.

Lemma get_node_app a b n : get_node (a ++ b) n = get_node a n ≫= get_node b.
Proof.
  revert n. induction a as [|c a IH]; intros n; simpl; [done|].
  destruct n as [g|d]; [|done]. destruct (assoc c g); [apply IH|done].
Qed.

Lemma object_at_get fname w hfile q :
  files w !! fname = Some hfile -> Forall link_name q ->
  object_at fname (h5_name q) w = of_option KeyError (get_node q (Group (root hfile))).
Proof.
  intros Hf Hq. unfold object_at, open_r, getitem. rewrite Hf. simpl.
  by rewrite (resolve_h5_name _ Hq).
Qed.

Section frame.
Context `{Imports}.

(** The loop body on the record [c] of the group [p] leaves the objects
    at other names as they are. *)
Lemma update_prop_frame w fname p c cols p' k' :
  candidate_at w fname p c cols ->
  Forall link_name (p' ++ [k']) ->
  (forall hfile, files w !! fname = Some hfile -> is_Some (members_at p' (root hfile))) ->
  (forall g, object_at fname (h5_name (p' ++ [k'])) w <> Ok (Group g)) ->
  (p' = p -> k' ∉ touched_names c) ->
  object_at fname (h5_name (p' ++ [k'])) (update_prop fname (h5_name (p ++ [c])) w).1 =
  object_at fname (h5_name (p' ++ [k'])) w.
Proof.
  intros Hcand Hq Hgroup Hnotgroup Hother.
  destruct (candidate_inv _ _ _ _ _ Hcand)
    as (hfile & x0 & d & fields & Hf & Hx0 & Hc & _ & _ & _ & _ & _ & _ & _ & _ & Hfree0).
  destruct (update_prop_normalizes _ _ _ _ _ Hcand) as (hfile' & x & Hf' & Hx & Hfree & ->).
  assert (hfile' = hfile) as -> by congruence. assert (x = x0) as -> by congruence.
  rewrite (object_at_get fname w hfile _ Hf Hq).
  rewrite (object_at_get fname w hfile _ Hf Hq) in Hnotgroup.
  simpl fst. unfold object_at, local_world, open_r, getitem. simpl.
  rewrite lookup_insert_eq. simpl. rewrite (resolve_h5_name _ Hq). f_equal.
  apply get_node_graft with x0; [done| |].
  - intros g Hg. apply (Hnotgroup g). by rewrite Hg.
  - intros k rest Hway. apply assoc_normalized_other. intros Hk.
    destruct (decide (rest = [])) as [->|Hrest].
    + apply app_inj_tail in Hway as [-> ->]. by apply Hother.
    + destruct (exists_last Hrest) as (rest' & k0 & ->).
      change (p ++ k :: rest' ++ [k0]) with (p ++ (k :: rest') ++ [k0]) in Hway.
      rewrite app_assoc in Hway. apply app_inj_tail in Hway as [-> ->].
      destruct (Hgroup hfile Hf) as [x' Hx']. apply get_node_members in Hx'.
      change (k :: rest') with ([k] ++ rest') in Hx'.
      rewrite app_assoc, get_node_app, (get_node_snoc _ _ _ _ Hx0) in Hx'.
      apply elem_of_cons in Hk as [->|(suf & -> & Hsuf)%list_elem_of_fmap].
      * rewrite Hc in Hx'. by destruct rest'.
      * pose proof (Hfree0 suf Hsuf) as Hnone. simpl in Hnone. by rewrite Hnone in Hx'.
Qed.
End frame.

Section all_records.
Context `{Imports} (fname : string).
Implicit Types (w : world) (r : list string * string * legacy_columns).

Local Abbreviation is_candidate r w := (candidate_at w fname r.1.1 r.1.2 r.2).
Local Abbreviation step r := (update_prop fname (h5_name (record_path r))).

Lemma candidate_members r w :
  is_candidate r w ->
  exists hfile x d,
    files w !! fname = Some hfile /\ members_at r.1.1 (root hfile) = Some x /\
    assoc r.1.2 x = Some (Dataset d) /\ free_names r.1.2 (x, ids w, ticks w).
Proof.
  intros Hcand. destruct (candidate_inv _ _ _ _ _ Hcand)
    as (hfile & x & d & fields & Hf & Hx & Hc & _ & _ & _ & _ & _ & _ & _ & _ & Hfree).
  by exists hfile, x, d.
Qed.

(** The name of a sibling of one record is not the name of another. *)
Lemma names_apart r r' w suf :
  is_candidate r w -> is_candidate r' w -> suf ∈ suffixes ->
  r.1.1 ++ [r.1.2 +:+ suf] <> record_path r'.
Proof.
  intros (hfile & x & d & Hf & Hx & _ & Hfree)%candidate_members
         (hfile' & x' & d' & Hf' & Hx' & Hc' & _)%candidate_members Hsuf E.
  unfold record_path in E. apply app_inj_tail in E as [Ep Ec].
  assert (hfile' = hfile) as -> by congruence. rewrite <-Ep in Hx'.
  assert (x' = x) as -> by congruence.
  specialize (Hfree suf Hsuf). simpl in Hfree. congruence.
Qed.

Lemma candidate_kept r r' w :
  is_candidate r w -> is_candidate r' w -> record_path r <> record_path r' ->
  is_candidate r' (step r w).1.
Proof.
  intros Hr Hr' Hne. pose proof Hr' as (Hwf' & (d' & Hd' & Hleg) & Hfree').
  pose proof (candidate_members _ _ Hr) as (hfile & x & d & Hf & Hx & Hc & Hfree).
  pose proof (candidate_members _ _ Hr') as (hfile' & x' & d0 & Hf' & Hx' & Hc' & _).
  assert (hfile' = hfile) as -> by congruence.
  assert (forall h, files w !! fname = Some h -> is_Some (members_at r'.1.1 (root h))) as Hgroup.
  { intros h Hh. assert (h = hfile) as -> by congruence. eauto. }
  split; [done|]. split.
  - exists d'. split; [|done]. unfold record_path. rewrite <-Hd'.
    apply (update_prop_frame w fname r.1.1 r.1.2 r.2); [done..| |].
    + intros g. by rewrite Hd'.
    + intros Ep [Ec|(suf & Ec & Hsuf)%list_elem_of_fmap]%elem_of_cons.
      * apply Hne. unfold record_path. by rewrite Ep, Ec.
      * apply (names_apart r r' w suf Hr Hr' Hsuf). unfold record_path. by rewrite Ep, Ec.
  - intros suf' Hsuf'. unfold record_path. rewrite <-(Hfree' suf' Hsuf').
    rewrite !h5_name_suffix.
    apply (update_prop_frame w fname r.1.1 r.1.2 r.2); [done| |done| |].
    + exact (link_name_sibling _ _ Hwf' _ Hsuf').
    + intros g. rewrite <-h5_name_suffix. by rewrite (Hfree' suf' Hsuf').
    + intros Ep [Ec|(suf & Ec & Hsuf)%list_elem_of_fmap]%elem_of_cons.
      * apply (names_apart r' r w suf' Hr' Hr Hsuf'). unfold record_path. by rewrite Ep, Ec.
      * apply suffixed_inj in Ec as [Ec _]; [|done..]. apply Hne. unfold record_path.
        by rewrite Ep, Ec.
Qed.

Lemma normalized_kept r r' w s :
  is_candidate r w ->
  normalized_with w fname r'.1.1 r'.1.2 r'.2 s ->
  record_path r <> record_path r' ->
  (forall suf, suf ∈ suffixes -> r.1.1 ++ [r.1.2 +:+ suf] <> record_path r') ->
  (forall suf, suf ∈ suffixes -> r'.1.1 ++ [r'.1.2 +:+ suf] <> record_path r) ->
  normalized_with (step r w).1 fname r'.1.1 r'.1.2 r'.2 s.
Proof.
  intros Hr Hnorm Hne Hapart Hapart'. pose proof Hnorm as (Hwf' & Hfree' & Hk').
  pose proof (candidate_members _ _ Hr) as (hfile & x & d & Hf & Hx & Hc & Hfree).
  assert (forall h, files w !! fname = Some h -> is_Some (members_at r'.1.1 (root h))) as Hgroup.
  { intros h Hh. assert (h = hfile) as -> by congruence.
    pose proof (outcome_base _ _ _ _ _ _ Hnorm) as Hbase.
    rewrite (object_at_get fname w hfile _ Hf Hwf') in Hbase.
    destruct (get_node _ _) as [n|] eqn:Hget; [|done].
    apply get_node_snoc_inv in Hget as (x' & -> & _). eauto. }
  split; [done|]. split; [done|]. intros k Hk. rewrite <-(Hk' k Hk).
  apply (update_prop_frame w fname r.1.1 r.1.2 r.2); [done| |done| |].
  - by apply (touched_link_names _ r'.1.2).
  - intros g. rewrite (Hk' k Hk).
    pose proof (assoc_normalized_touched r'.1.2 k (value r'.2) (uncertainty r'.2)
                  (as_float (uncertainty r'.2)) (reference r'.2) (filename r'.2)
                  (encoder r'.2) (checksum r'.2) s g Hfree' Hk) as Hng.
    destruct (assoc k _) as [[?|?]|]; simpl; congruence.
  - intros Ep Hk2. unfold record_path in *.
    apply elem_of_cons in Hk as [->|(suf' & -> & Hsuf')%list_elem_of_fmap];
      apply elem_of_cons in Hk2 as [Ec|(suf & Ec & Hsuf)%list_elem_of_fmap].
    + apply Hne. by rewrite Ep, Ec.
    + apply (Hapart suf Hsuf). by rewrite Ep, Ec.
    + apply (Hapart' suf' Hsuf'). by rewrite Ep, Ec.
    + apply suffixed_inj in Ec as [Ec _]; [|done..]. apply Hne. by rewrite Ep, Ec.
Qed.

Lemma run_all rs done w :
  NoDup (record_path <$> (done ++ rs)) ->
  (forall r r' suf, r ∈ done ++ rs -> r' ∈ done ++ rs -> suf ∈ suffixes ->
                    r.1.1 ++ [r.1.2 +:+ suf] <> record_path r') ->
  (forall r, r ∈ rs -> is_candidate r w) ->
  (forall r, r ∈ done -> normalized_at w fname r.1.1 r.1.2 r.2) ->
  exists w',
    for_each (update_prop fname) ((fun r => h5_name (record_path r)) <$> rs) w = (w', Ok tt) /\
    forall r, r ∈ done ++ rs -> normalized_at w' fname r.1.1 r.1.2 r.2.
Proof.
  revert done w. induction rs as [|r rs IH]; intros done w Hnd Hapart Hcand Hdone.
  { exists w. split; [done|]. by rewrite app_nil_r. }
  assert (is_candidate r w) as Hr by (apply Hcand; left).
  destruct (update_prop_normalized _ _ _ _ _ Hr) as (x & Hok & Hnorm).
  assert (forall r', r' ∈ done ++ rs -> record_path r <> record_path r') as Hne.
  { intros r' Hin E. rewrite fmap_app, fmap_cons in Hnd.
    apply NoDup_app in Hnd as (Hnd1 & Hdisj & Hnd2). apply NoDup_cons in Hnd2 as [Hr2 _].
    apply elem_of_app in Hin as [Hin|Hin].
    - apply (Hdisj (record_path r')); [by apply list_elem_of_fmap_2|]. rewrite <-E. left.
    - apply Hr2. rewrite E. by apply list_elem_of_fmap_2. }
  assert (forall r', r' ∈ done ++ rs -> r' ∈ done ++ r :: rs) as Hsub.
  { intros r'. rewrite !elem_of_app, elem_of_cons. tauto. }
  assert (r ∈ done ++ r :: rs) as Hrin by (rewrite elem_of_app, elem_of_cons; tauto).
  destruct (IH (done ++ [r]) (step r w).1) as (w' & Hrun & Hall).
  - by rewrite <-app_assoc.
  - intros r1 r2 suf. rewrite <-app_assoc. apply Hapart.
  - intros r' Hin. apply candidate_kept; [done|apply Hcand; by right|].
    apply Hne. apply elem_of_app. by right.
  - intros r' [Hin|Hin]%elem_of_app; [|apply list_elem_of_singleton in Hin as ->].
    + destruct (Hdone r' Hin) as [s Hs]. exists s.
      apply normalized_kept; [done..| | |].
      * apply Hne. apply elem_of_app. by left.
      * intros suf Hsuf. apply Hapart; [done| |done]. apply Hsub, elem_of_app. by left.
      * intros suf Hsuf. apply Hapart; [|done..]. apply Hsub, elem_of_app. by left.
    + by eexists.
  - exists w'. split.
    + rewrite fmap_cons. simpl. unfold bind.
      change (h5_name (record_path r)) with (h5_name (r.1.1 ++ [r.1.2])) in *.
      destruct (update_prop fname (h5_name (r.1.1 ++ [r.1.2])) w) as [w1 res].
      simpl in Hok, Hrun. by subst res.
    + intros r'. rewrite <-app_assoc in Hall. apply Hall.
Qed.

(** The task on the legacy records of a file, listed without repetition:
    it returns, and every record ends up normalized. *)
Theorem update_props_normalizes_all rs w :
  NoDup (record_path <$> rs) ->
  (forall r, r ∈ rs -> candidate_at w fname r.1.1 r.1.2 r.2) ->
  exists w',
    call (update_props fname ((fun r => h5_name (record_path r)) <$> rs)) w = (w', Ok tt) /\
    forall r, r ∈ rs -> normalized_at w' fname r.1.1 r.1.2 r.2.
Proof.
  intros Hnd Hcand. apply (run_all rs [] w); [done| |done|by intros ? ?%elem_of_nil].
  intros r r' suf Hr Hr' Hsuf. apply (names_apart r r' w suf); auto.
Qed.

End all_records.

End all_records_of_a_file.

(** ** The full plan on a legacy file *)
Section full_plan.
Local Close Scope Z_scope.
Local Open Scope res_scope.
Local Open Scope M_scope.

Section round_trip.
Context `{Imports} (fname : string).
Implicit Types (w : world) (hfile : h5file) (r : list string * string * legacy_columns).

(** Worlds whose file [fname] has the same tree read the same objects. *)
Lemma object_at_same_tree w w' hfile hfile' path :
  files w !! fname = Some hfile -> files w' !! fname = Some hfile' ->
  root hfile' = root hfile ->
  object_at fname path w' = object_at fname path w.
Proof.
  intros Hf Hf' Hroot. unfold object_at, open_r, getitem. rewrite Hf, Hf'. simpl. by rewrite Hroot.
Qed.

Lemma set_root_attr_world key v w hfile :
  files w !! fname = Some hfile ->
  exists w', (open_a fname;; modify fname (set_root_attr key v)) w = (w', Ok tt) /\
             files w' !! fname = Some (H5File (<[key := v]> (attrs hfile)) (root hfile)).
Proof.
  intros Hf. unfold bind, open_a, modify, bind, reading, lift, open_r, put_file.
  rewrite Hf. simpl. rewrite Hf. simpl. eexists. split; [done|]. simpl.
  by rewrite lookup_insert_eq.
Qed.

Lemma call_add_id w hfile :
  files w !! fname = Some hfile ->
  exists w' hfile', call (add_id fname) w = (w', Ok tt) /\
                    files w' !! fname = Some hfile' /\ root hfile' = root hfile /\
                    attrs hfile' !! "version" = attrs hfile !! "version".
Proof.
  intros Hf. simpl. unfold bind, open_a, new_id, modify, bind, reading, lift, open_r, put_file.
  rewrite Hf. simpl. rewrite Hf. simpl. do 2 eexists. split; [done|]. simpl.
  rewrite lookup_insert_eq. split; [done|]. split; [done|]. simpl. by rewrite lookup_insert_ne.
Qed.

(** The full plan on a legacy file whose records are as the legacy format
    has them: every task returns, every record is normalized, and the file
    is up to date afterwards. *)
Theorem full_plan_upgrades w hfile v rs :
  files w !! fname = Some hfile ->
  attrs hfile !! "version" = Some (AInts v) ->
  NoDup (record_path <$> rs) ->
  (forall r, r ∈ rs -> candidate_at w fname r.1.1 r.1.2 r.2) ->
  let props := (fun r => h5_name (record_path r)) <$> rs in
  exists w',
    for_each call [add_id fname; update_props fname props; update_ver fname] w = (w', Ok tt) /\
    (forall r, r ∈ rs -> normalized_at w' fname r.1.1 r.1.2 r.2) /\
    (collect_tasks fname w').2 = Ok None.
Proof.
  intros Hf Hv Hnd Hcand props. subst props.
  destruct (call_add_id w hfile Hf) as (w1 & h1 & Hcall1 & Hf1 & Hroot1 & Hv1).
  assert (forall r, r ∈ rs -> candidate_at w1 fname r.1.1 r.1.2 r.2) as Hcand1.
  { intros r Hr. destruct (Hcand r Hr) as (Hwf & (d & Hd & Hleg) & Hfree).
    split; [done|]. split.
    - exists d. split; [|done]. by rewrite (object_at_same_tree w w1 hfile h1).
    - intros suf Hsuf. rewrite (object_at_same_tree w w1 hfile h1) by done. by apply Hfree. }
  destruct (update_props_normalizes_all fname rs w1 Hnd Hcand1) as (w2 & Hcall2 & Hnorm2).
  assert (on_file fname (has_attrs (version_is v)) w2) as (h2 & Hf2 & Hv2).
  { change w2 with (w2, Ok tt).1. rewrite <-Hcall2. apply preserves_attrs_update_props.
    exists h1. split; [done|]. unfold has_attrs, version_is. by rewrite Hv1. }
  destruct (set_root_attr_world "version" (AInts HDF_FF_VERSION) w2 h2 Hf2)
    as (w3 & Hcall3 & Hf3).
  exists w3. split; [|split].
  - change (for_each call [add_id fname;
              update_props fname ((fun r => h5_name (record_path r)) <$> rs); update_ver fname] w)
      with (bind (call (add_id fname))
              (fun _ => bind (call (update_props fname
                                      ((fun r => h5_name (record_path r)) <$> rs)))
                          (fun _ => bind (call (update_ver fname)) (fun _ => ret tt))) w).
    unfold bind at 1. rewrite Hcall1. unfold bind at 1. rewrite Hcall2.
    unfold bind. change (call (update_ver fname) w2) with
      ((open_a fname;; modify fname (set_root_attr "version" (AInts HDF_FF_VERSION))) w2).
    by rewrite Hcall3.
  - intros r Hr. destruct (Hnorm2 r Hr) as (s & Hwf & Hfree & Hk). exists s.
    split; [done|]. split; [done|]. intros k Hin.
    rewrite (object_at_same_tree w2 w3 h2 _ _ Hf2 Hf3) by done. by apply Hk.
  - eapply collect_tasks_up_to_date; [done| |apply irreflexivity, _].
    simpl. by rewrite lookup_insert_eq.
Qed.

End round_trip.

End full_plan.

(** * Further properties of the script

    ** The prompt *)
Section the_input.
Local Close Scope Z_scope.
Local Open Scope res_scope.
Local Open Scope M_scope.

Lemma untouched_refl w : untouched w w.
Proof. by repeat split. Qed.

Lemma untouched_trans w1 w2 w3 : untouched w1 w2 -> untouched w2 w3 -> untouched w1 w3.
Proof. intros (?&?&?&?) (?&?&?&?). repeat split; congruence. Qed.

Section the_prompt.
Context `{Imports}.
Implicit Types (w : world) (hfile : h5file).

Lemma plan_all_untouched filenames tasks w : untouched w (plan_all filenames tasks w).1.
Proof.
  revert tasks w. induction filenames as [|fname rest IH]; intros tasks w; [apply untouched_refl|].
  simpl. unfold bind. pose proof (collect_tasks_untouched fname w) as Hun.
  destruct (collect_tasks fname w) as [w1 [tasklist|e]]; simpl in Hun; [|done].
  destruct tasklist as [[|t tl]|]; (eapply untouched_trans; [exact Hun|apply IH]).
Qed.

Lemma ask_skip line rest w :
  is_answer (lower line) = false ->
  ask (line :: rest) w =
    ask rest (World (files w) (ids w) (ticks w) (stdout w ++ [prompt]) rest).
Proof. intros Hno. simpl. unfold bind, print. simpl. by rewrite Hno. Qed.

Lemma ask_take line rest w :
  is_answer (lower line) = true ->
  ask (line :: rest) w =
    (World (files w) (ids w) (ticks w) (stdout w ++ [prompt]) rest, Ok (lower line)).
Proof. intros Hyes. simpl. unfold bind, print. simpl. by rewrite Hyes. Qed.

Lemma replicate_snoc {A} n (x : A) : replicate n x ++ [x] = x :: replicate n x.
Proof. induction n as [|n IH]; [done|]. simpl. by rewrite IH. Qed.

Lemma ask_skipped skipped lines w :
  Forall (fun l => is_answer (lower l) = false) skipped ->
  skipped <> [] ->
  ask (skipped ++ lines) w =
    ask lines (World (files w) (ids w) (ticks w)
                 (stdout w ++ replicate (length skipped) prompt) lines).
Proof.
  revert w. induction skipped as [|line skipped IH]; intros w Hall Hne; [done|].
  apply Forall_cons in Hall as [Hline Hall].
  change ((line :: skipped) ++ lines) with (line :: (skipped ++ lines)).
  rewrite ask_skip by done.
  destruct skipped as [|line' skipped']; [done|].
  rewrite IH by done. cbn [files ids ticks stdout stdin length replicate].
  by rewrite <-!app_assoc.
Qed.

Lemma ask_first skipped line rest w :
  Forall (fun l => is_answer (lower l) = false) skipped ->
  is_answer (lower line) = true ->
  ask (skipped ++ line :: rest) w =
    (World (files w) (ids w) (ticks w) (stdout w ++ replicate (S (length skipped)) prompt) rest,
     Ok (lower line)).
Proof.
  intros Hskip Hline. destruct skipped as [|l0 skipped].
  { simpl app. by rewrite ask_take. }
  rewrite ask_skipped by done. rewrite ask_take by done.
  cbn [files ids ticks stdout stdin]. rewrite <-app_assoc.
  by rewrite (replicate_snoc (length (l0 :: skipped)) prompt).
Qed.

(** What the loop leaves alone, and where its answer comes from. *)
Lemma ask_outcome lines w :
  files (ask lines w).1 = files w /\ ids (ask lines w).1 = ids w /\
  ticks (ask lines w).1 = ticks w /\
  forall conf, (ask lines w).2 = Ok conf ->
    exists line, line ∈ lines /\ conf = lower line /\ is_answer conf = true.
Proof.
  revert w. induction lines as [|line rest IH]; intros w.
  { simpl. unfold bind, print, raise. simpl. by repeat split. }
  destruct (is_answer (lower line)) eqn:Hans.
  - rewrite ask_take by done. simpl. repeat split; try done.
    intros conf [= <-]. exists line. split; [left|done].
  - rewrite ask_skip by done.
    destruct (IH (World (files w) (ids w) (ticks w) (stdout w ++ [prompt]) rest))
      as (Hf & Hi & Ht & Hconf).
    repeat split; try done. intros conf Hok. destruct (Hconf conf Hok) as (l & Hl & ? & ?).
    exists l. split; [by right|done].
Qed.

End the_prompt.

End the_input.

(** ** The files a run writes to *)
Section tasks_and_files.
Local Close Scope Z_scope.
Local Open Scope res_scope.
Local Open Scope M_scope.

(** ** What the tasks of one file leave alone *)
Section tasks_frame.
Context `{Imports} (P : world -> Prop) (writable : string -> Prop).
Hypothesis P_put : forall fname hfile, writable fname -> preserves P (put_file fname hfile).
Hypothesis P_new_id : preserves P new_id.
Hypothesis P_now : preserves P now.

Lemma frame_modify fname f : writable fname -> preserves P (modify fname f).
Proof.
  intros Hw. unfold modify.
  apply preserves_bind; [apply preserves_reading|]. intros hfile.
  apply preserves_bind; [apply preserves_lift|]. intros hfile'. by apply P_put.
Qed.

Lemma frame_open_a fname : writable fname -> preserves P (open_a fname).
Proof.
  intros Hw w HP. unfold open_a. destruct (files w !! fname); [done|].
  by apply (P_put fname empty_file Hw).
Qed.

Ltac frame :=
  repeat first
    [ apply preserves_ret | apply preserves_raise | apply preserves_lift
    | apply preserves_reading | apply P_new_id | apply P_now
    | apply frame_open_a; assumption
    | match goal with
      | |- preserves _ (modify _ _) => apply frame_modify; assumption
      | |- preserves _ (bind _ _) => apply preserves_bind; [|intros ?]
      | |- preserves _ (if ?b then _ else _) => destruct b
      | |- preserves _ (match ?x with _ => _ end) => destruct x
      end ].

Lemma frame_create_property fname name dt data :
  writable fname -> preserves P (create_property fname name dt data).
Proof. intros Hw. unfold create_property, create_dataset. frame. Qed.

Lemma frame_update_prop fname propname :
  writable fname -> preserves P (update_prop fname propname).
Proof.
  intros Hw. unfold update_prop. frame; by apply frame_create_property.
Qed.

Lemma frame_call t : writable (task_file t) -> preserves P (call t).
Proof.
  destruct t as [fname|fname props|fname]; simpl; intros Hw.
  - frame.
  - apply preserves_for_each. intros propname _. by apply frame_update_prop.
  - frame.
Qed.

End tasks_frame.

Section other_files.
Context `{Imports} (g : string) (o : option h5file).

Lemma file_is_put fname hfile : fname <> g -> preserves (file_is g o) (put_file fname hfile).
Proof. intros Hne w Hg. unfold file_is in *. simpl. by rewrite lookup_insert_ne. Qed.

Lemma file_is_call t : task_file t <> g -> preserves (file_is g o) (call t).
Proof.
  apply (frame_call (file_is g o) (fun fname => fname <> g));
    [apply file_is_put|by intros w|by intros w].
Qed.

End other_files.

Section input_left.
Context `{Imports} (lines : list string).

Lemma stdin_call t : preserves (fun w => stdin w = lines) (call t).
Proof.
  apply (frame_call (fun w => stdin w = lines) (fun _ => True)); [|by intros w..|done].
  by intros fname hfile _ w.
Qed.

End input_left.

Section the_run.
Context `{Imports}.
Implicit Types (w : world) (hfile : h5file) (tasks : list (string * list task)).

Lemma collect_tasks_bound fname w tasklist :
  (collect_tasks fname w).2 = Ok (Some tasklist) ->
  Forall (fun t => task_file t = fname) tasklist.
Proof.
  intros Hplan. apply collect_tasks_shape in Hplan as [->|(props & ->)];
    repeat constructor.
Qed.

Lemma assoc_replace_Forall {A} (Q : string * A -> Prop) k v (d : list (string * A)) :
  Q (k, v) -> Forall Q d -> Forall Q (assoc_replace k v d).
Proof.
  intros Hkv. induction d as [|[k' v'] d IH]; intros Hd; [done|].
  apply Forall_cons in Hd as [Hhd Hd]. simpl. destruct (decide (k = k')) as [->|_].
  - by constructor.
  - constructor; [done|by apply IH].
Qed.

Lemma dict_set_Forall {A} (Q : string * A -> Prop) k v (d : list (string * A)) :
  Q (k, v) -> Forall Q d -> Forall Q (dict_set k v d).
Proof.
  intros Hkv Hd. unfold dict_set. destruct (assoc k d).
  - by apply assoc_replace_Forall.
  - apply Forall_app. split; [done|by constructor].
Qed.

Lemma plan_all_bound filenames all tasks0 w tasks :
  filenames ⊆ all -> bound_to all tasks0 ->
  (plan_all filenames tasks0 w).2 = Ok tasks -> bound_to all tasks.
Proof.
  revert tasks0 w. induction filenames as [|fname rest IH]; intros tasks0 w Hsub Hb.
  { simpl. by intros [= <-]. }
  assert (fname ∈ all) as Hin by (apply Hsub; left).
  assert (rest ⊆ all) as Hsub' by (intros f Hf; apply Hsub; by right).
  simpl. unfold bind.
  destruct (collect_tasks fname w) as [w1 [tasklist|e]] eqn:Hplan; simpl; [|done].
  destruct tasklist as [[|t tl]|]; try (by apply IH).
  apply IH; [done|]. apply dict_set_Forall; [|done]. split; [done|].
  apply (collect_tasks_bound fname w). by rewrite Hplan.
Qed.

Lemma run_preserves (P : world -> Prop) tasks :
  (forall s, preserves P (print s)) ->
  Forall (fun ft => Forall (fun t => preserves P (call t)) ft.2) tasks ->
  preserves P (for_each (fun ft : string * list task =>
                           print ("Processing " +:+ ft.1 +:+ " ");;
                           for_each call ft.2;;
                           print "done") tasks).
Proof.
  intros Hprint Hall. apply preserves_for_each. intros ft Hft.
  rewrite Forall_forall in Hall. specialize (Hall ft Hft). rewrite Forall_forall in Hall.
  apply preserves_bind; [apply Hprint|]. intros _.
  apply preserves_bind; [|intros _; apply Hprint].
  apply preserves_for_each. intros t Ht. by apply Hall.
Qed.

End the_run.

End tasks_and_files.

(** ** The command as a whole *)
Section command_line.
Local Close Scope Z_scope.
Local Open Scope res_scope.
Local Open Scope M_scope.

Section the_command.
Context `{Imports}.
Implicit Types (w : world) (hfile : h5file) (a : args).

Lemma up_to_date_line_files w w' fname :
  files w' = files w -> up_to_date_line w' fname = up_to_date_line w fname.
Proof. intros Hf. unfold up_to_date_line, get_file_version, open_r. by rewrite Hf. Qed.

Lemma collect_tasks_up_to_date_says fname w hfile v :
  files w !! fname = Some hfile ->
  attrs hfile !! "version" = Some (AInts v) ->
  ~ lexico v HDF_FF_VERSION ->
  collect_tasks fname w =
    (World (files w) (ids w) (ticks w) (stdout w ++ [up_to_date_line w fname]) (stdin w),
     Ok None).
Proof.
  intros Hf Hv Hge. unfold collect_tasks, bind, reading, lift, up_to_date_line.
  rewrite (get_file_version_ints fname w hfile v Hf Hv).
  by rewrite (tuple_ge_nlt v HDF_FF_VERSION Hge).
Qed.

Lemma plan_all_up_to_date filenames tasks w :
  (forall fname, fname ∈ filenames ->
     exists hfile v, files w !! fname = Some hfile /\
                     attrs hfile !! "version" = Some (AInts v) /\
                     ~ lexico v HDF_FF_VERSION) ->
  plan_all filenames tasks w =
    (World (files w) (ids w) (ticks w) (stdout w ++ (up_to_date_line w <$> filenames)) (stdin w),
     Ok tasks).
Proof.
  revert w. induction filenames as [|fname rest IH]; intros w Hall.
  { simpl. unfold ret. rewrite app_nil_r. by destruct w. }
  destruct (Hall fname ltac:(left)) as (hfile & v & Hf & Hv & Hge).
  simpl. unfold bind. rewrite (collect_tasks_up_to_date_says fname w hfile v Hf Hv Hge).
  rewrite IH; [|intros f Hin; apply Hall; by right].
  cbn [files ids ticks stdout stdin]. by rewrite <-app_assoc.
Qed.

(** X1. When every file given is up to date ([version >= HDF_FF_VERSION]),
    [main] returns without asking: it prints one line per file, in the
    order given, takes no input and changes no file; [--force] makes no
    difference. *)
Theorem main_up_to_date_only_reports a w :
  (forall fname, fname ∈ file a ->
     exists hfile v, files w !! fname = Some hfile /\
                     attrs hfile !! "version" = Some (AInts v) /\
                     ~ lexico v HDF_FF_VERSION) ->
  main a w =
    (World (files w) (ids w) (ticks w) (stdout w ++ (up_to_date_line w <$> file a)) (stdin w),
     Ok tt).
Proof.
  intros Hall. unfold main, bind. by rewrite (plan_all_up_to_date (file a) [] w Hall).
Qed.

(** X2. Without [--force] nothing is written unless a line of the input,
    in lower case, is [y] or [yes]: whatever the files, the answers and the
    end of the run, the files are as before, no identifier was drawn and
    the clock was not read. *)
Theorem main_writes_only_on_yes a w :
  force a = false ->
  Forall (fun line => is_yes line = false) (stdin w) ->
  files (main a w).1 = files w /\ ids (main a w).1 = ids w /\ ticks (main a w).1 = ticks w.
Proof.
  intros Hforce Hno. unfold main, bind.
  pose proof (plan_all_untouched (file a) [] w) as (Hf & Hi & Ht & Hin).
  destruct (plan_all (file a) [] w) as [w1 [tasks|e]]; simpl in *; [|done].
  destruct tasks as [|ft tasks]; [done|].
  rewrite Hforce. simpl. unfold bind at 1. unfold print at 1.
  set (w2 := World (files w1) (ids w1) (ticks w1) (stdout w1 ++ [warning]) (stdin w1)).
  cbn [stdin].
  destruct (ask_outcome (stdin w1) w2) as (Hf2 & Hi2 & Ht2 & Hconf).
  change (stdin w2) with (stdin w1).
  destruct (ask (stdin w1) w2) as [w3 [conf|e]]; simpl in *; [|repeat split; congruence].
  destruct (Hconf conf eq_refl) as (line & Hline & -> & _).
  rewrite Hin in Hline. rewrite Forall_forall in Hno. specialize (Hno line Hline).
  unfold is_yes in Hno. rewrite Hno. simpl. repeat split; congruence.
Qed.

(** X3. The loop around [input]: the lines before the first that, in lower
    case, is one of [y], [n], [yes], [no] are taken and dropped, the prompt
    being printed once for each line taken; the answer is that line in
    lower case, and what follows it stays in the input. *)
Theorem ask_takes_first_answer w skipped line rest :
  stdin w = skipped ++ line :: rest ->
  Forall (fun l => is_answer (lower l) = false) skipped ->
  is_answer (lower line) = true ->
  ask (stdin w) w =
    (World (files w) (ids w) (ticks w) (stdout w ++ replicate (S (length skipped)) prompt) rest,
     Ok (lower line)).
Proof.
  intros -> Hskip Hline. by apply ask_first.
Qed.

(** X4. The end of the input before an answer: when some file is to be
    upgraded and no line of the input is an answer, [input] raises
    EOFError, which nothing catches; [main] ends with it, the input used
    up and nothing written. *)
Theorem main_input_exhausted a w tasks :
  force a = false ->
  (plan_all (file a) [] w).2 = Ok tasks -> tasks <> [] ->
  Forall (fun l => is_answer (lower l) = false) (stdin w) ->
  (main a w).2 = Raise EOFError /\ stdin (main a w).1 = [] /\ files (main a w).1 = files w.
Proof.
  intros Hforce Hplan Hne Hno. unfold main, bind.
  pose proof (plan_all_untouched (file a) [] w) as (Hf & Hi & Ht & Hin).
  destruct (plan_all (file a) [] w) as [w1 [tasks'|e]]; simpl in *; [|done].
  injection Hplan as ->. destruct tasks as [|ft tasks]; [done|].
  rewrite Hforce. simpl. unfold bind at 1. unfold print at 1.
  set (w2 := World (files w1) (ids w1) (ticks w1) (stdout w1 ++ [warning]) (stdin w1)).
  cbn [stdin]. rewrite <-Hin in Hno.
  assert (forall lines w0, Forall (fun l => is_answer (lower l) = false) lines ->
            stdin w0 = lines ->
            (ask lines w0).2 = Raise EOFError /\ stdin (ask lines w0).1 = [] /\
            files (ask lines w0).1 = files w0) as Heof.
  { clear. induction lines as [|l lines IH]; intros w0 Hall Hlines.
    - simpl. unfold bind, print, raise. simpl. by rewrite Hlines.
    - apply Forall_cons in Hall as [Hl Hall]. rewrite ask_skip by done.
      destruct (IH (World (files w0) (ids w0) (ticks w0) (stdout w0 ++ [prompt]) lines)
                  Hall eq_refl) as (? & ? & ?). done. }
  destruct (Heof (stdin w1) w2 Hno eq_refl) as (Hr & Hs & Hfs).
  destruct (ask (stdin w1) w2) as [w3 [conf|e]]; simpl in *; [done|].
  injection Hr as ->. repeat split; congruence.
Qed.

(** X5. [main] writes to the files given and to no other: a file that is
    not on the command line is after the run what it was before (and one
    that was not there is still not there). *)
Theorem main_only_named_files a w g :
  g ∉ file a -> files (main a w).1 !! g = files w !! g.
Proof.
  intros Hg. unfold main, bind.
  pose proof (plan_all_untouched (file a) [] w) as (Hf & _).
  pose proof (plan_all_bound (file a) (file a) [] w) as Hb.
  destruct (plan_all (file a) [] w) as [w1 [tasks|e]]; simpl in *; [|by rewrite Hf].
  specialize (Hb tasks ltac:(done) ltac:(constructor) eq_refl).
  destruct tasks as [|ft tasks]; [by rewrite <-Hf|].
  set (ask_force := if negb (force a) then _ else _).
  assert (files (ask_force w1).1 = files w1) as Hask.
  { subst ask_force. destruct (force a); [done|]. simpl. unfold bind, print.
    cbn [stdin].
    by destruct (ask_outcome (stdin w1)
                   (World (files w1) (ids w1) (ticks w1) (stdout w1 ++ [warning]) (stdin w1)))
      as (-> & _). }
  destruct (ask_force w1) as [w2 [conf|e]]; simpl in Hask |- *; [|by rewrite Hask, Hf].
  destruct (bool_decide (conf ∈ ["y"; "yes"])); [|simpl; by rewrite Hask, Hf].
  apply (run_preserves (file_is g (files w !! g)) (ft :: tasks)).
  - by intros s w0.
  - unfold bound_to in Hb. rewrite Forall_forall in Hb |- *. intros ft' Hft'.
    destruct (Hb ft' Hft') as [Hin Hbound]. rewrite Forall_forall in Hbound |- *.
    intros t Ht. apply file_is_call. rewrite (Hbound t Ht). intros Heq. apply Hg. by rewrite <-Heq.
  - unfold file_is. by rewrite Hask, Hf.
Qed.

(** X6. With [--force] the run takes no input: what is on the standard
    input is still there when [main] ends, however it ends. *)
Theorem main_force_takes_no_input a w :
  force a = true -> stdin (main a w).1 = stdin w.
Proof.
  intros Hforce. unfold main, bind.
  pose proof (plan_all_untouched (file a) [] w) as (_ & _ & _ & Hin).
  destruct (plan_all (file a) [] w) as [w1 [tasks|e]]; simpl in *; [|done].
  destruct tasks as [|ft tasks]; [done|]. rewrite Hforce. simpl.
  apply (run_preserves (fun w0 => stdin w0 = stdin w) (ft :: tasks)); [by intros s w0| |done].
  rewrite Forall_forall. intros ft' _. rewrite Forall_forall. intros t _. apply stdin_call.
Qed.

End the_command.

End command_line.

(** ** The tasks one by one *)
Section single_tasks.
Local Close Scope Z_scope.
Local Open Scope res_scope.
Local Open Scope M_scope.

Lemma world_eta w hfile fname :
  files w !! fname = Some hfile ->
  World (<[fname := hfile]> (files w)) (ids w) (ticks w) (stdout w) (stdin w) = w.
Proof. intros Hf. destruct w; simpl in *. by rewrite insert_id. Qed.

Section the_tasks.
Context `{Imports}.
Implicit Types (w : world) (hfile : h5file).

(** X7. A structural upgrade cannot be planned without the group
    [metadata]: for a file below the target version and without valid
    identifier, [collect_tasks] raises KeyError when the root has no member
    of that name, and AttributeError when the member is a dataset.  It has
    printed nothing by then. *)
Theorem plan_needs_metadata fname w hfile v :
  files w !! fname = Some hfile ->
  attrs hfile !! "version" = Some (AInts v) ->
  lexico v HDF_FF_VERSION ->
  has_valid_file_id fname w = Ok false ->
  (assoc "metadata" (root hfile) = None -> collect_tasks fname w = (w, Raise KeyError)) /\
  (forall d, assoc "metadata" (root hfile) = Some (Dataset d) ->
             collect_tasks fname w = (w, Raise AttributeError)).
Proof.
  intros Hf Hv Hlt Hid.
  assert (forall e, update_property_values fname w = Raise e ->
                    collect_tasks fname w = (w, Raise e)) as Hplan.
  { intros e He. unfold collect_tasks, bind, reading, lift.
    rewrite (get_file_version_ints fname w hfile v Hf Hv).
    rewrite (tuple_ge_lt v HDF_FF_VERSION Hlt). rewrite Hid. simpl. by rewrite He. }
  split; [intros Hm|intros d Hm]; apply Hplan;
    unfold update_property_values, open_r, getitem; rewrite Hf;
    change (resolve "metadata") with ["metadata"]; simpl; by rewrite Hm.
Qed.

Lemma call_add_id_attrs fname w hfile :
  files w !! fname = Some hfile ->
  exists w', call (add_id fname) w = (w', Ok tt) /\
             files w' !! fname =
               Some (H5File (<["id" := AStr (create_id (ids w))]> (attrs hfile)) (root hfile)).
Proof.
  intros Hf. simpl. unfold bind, open_a, new_id, modify, bind, reading, lift, open_r, put_file.
  rewrite Hf. simpl. rewrite Hf. simpl. eexists. split; [done|]. simpl.
  by rewrite lookup_insert_eq.
Qed.

(** X8. A run that was interrupted after [add_id] is not taken up again:
    once the identifier is written, whether [update_props] then ran
    through, stopped at some record or did not run at all, the file is
    planned with the version update alone, and the records that were not
    converted stay in the legacy format.  (The identifier drawn is taken
    to be valid and not empty.) *)
Theorem interrupted_run_is_not_resumed fname w hfile v props :
  files w !! fname = Some hfile ->
  attrs hfile !! "version" = Some (AInts v) ->
  lexico v HDF_FF_VERSION ->
  is_uuid (AStr (create_id (ids w))) = true ->
  create_id (ids w) <> "" ->
  let w' := (for_each call [add_id fname; update_props fname props] w).1 in
  (collect_tasks fname w').2 = Ok (Some [update_ver fname]).
Proof.
  intros Hf Hv Hlt Huuid Hne w'.
  destruct (call_add_id_attrs fname w hfile Hf) as (w1 & Hcall & Hf1).
  set (R := fun a : gmap string attrval =>
              a !! "version" = Some (AInts v) /\ a !! "id" = Some (AStr (create_id (ids w)))).
  assert (on_file fname (has_attrs R) w') as (hfile' & Hf' & Hv' & Hid').
  { subst w'. cbn [for_each]. unfold bind at 1. rewrite Hcall.
    apply preserves_bind; [apply preserves_attrs_update_props|intros _; apply preserves_ret|].
    exists (H5File (<["id" := AStr (create_id (ids w))]> (attrs hfile)) (root hfile)).
    split; [done|]. split; simpl; [by rewrite lookup_insert_ne|by rewrite lookup_insert_eq]. }
  apply (collect_tasks_bump_only fname w' hfile' v Hf' Hv' Hlt).
  apply (has_valid_file_id_true fname w' hfile' _ Hf' Hid' ); [|done].
  simpl. unfold str_nonempty. by rewrite bool_decide_eq_false_2.
Qed.

(** X9. The tasks open the file with mode [a], which creates a file that
    is not there: run on a name that has gone since the planning,
    [update_ver] and [add_id] return and leave a new file with nothing but
    their attribute, and [update_props] raises KeyError at its first record
    and leaves an empty file. *)
Theorem tasks_create_a_missing_file fname w :
  files w !! fname = None ->
  (exists w', call (update_ver fname) w = (w', Ok tt) /\
              files w' = <[fname := H5File {["version" := AInts HDF_FF_VERSION]} []]> (files w)) /\
  (exists w', call (add_id fname) w = (w', Ok tt) /\
              files w' = <[fname := H5File {["id" := AStr (create_id (ids w))]} []]> (files w)) /\
  (forall propname props,
     exists w', call (update_props fname (propname :: props)) w = (w', Raise KeyError) /\
                files w' = <[fname := empty_file]> (files w)).
Proof.
  intros Hf. split; [|split].
  - simpl. unfold bind, open_a, modify, bind, reading, lift, open_r, put_file.
    rewrite Hf. simpl. rewrite lookup_insert_eq. simpl. eexists. split; [done|]. simpl.
    by rewrite insert_insert_eq.
  - simpl. unfold bind, open_a, new_id, modify, bind, reading, lift, open_r, put_file.
    rewrite Hf. simpl. rewrite lookup_insert_eq. simpl. eexists. split; [done|]. simpl.
    by rewrite insert_insert_eq.
  - intros propname props. simpl. unfold bind at 1. unfold update_prop, bind at 1, open_a.
    rewrite Hf. simpl. unfold bind at 1, lift, getitem. simpl.
    destruct (resolve propname) as [|c cs]; simpl; eexists; (split; [done|done]).
Qed.

(** A record that is not there, or that cannot be read as a legacy
    record, stops the loop body before it has written anything. *)
Lemma update_prop_unreadable fname w hfile propname :
  files w !! fname = Some hfile ->
  (getitem propname hfile = Raise KeyError ->
   update_prop fname propname w = (w, Raise KeyError)) /\
  (forall d, getitem propname hfile = Ok (Dataset d) -> lacks_column d ->
             update_prop fname propname w = (w, Raise ValueError)).
Proof.
  intros Hf. split.
  - intros Hget. unfold update_prop, bind, open_a, lift. by rewrite Hf, Hget.
  - intros d Hget Hlack. unfold update_prop. unfold bind at 1, open_a. rewrite Hf.
    unfold bind at 1, lift. rewrite Hget.
    unfold lacks_column in Hlack. unfold bind, lift, getfield.
    destruct (ds_data d) as [arr|fields]; [done|].
    destruct Hlack as (field & Hin & Hnone).
    unfold legacy_fields in Hin. rewrite !elem_of_cons, elem_of_nil in Hin.
    destruct (assoc "uncertainty" fields) eqn:E1; simpl;
      [|done].
    destruct (assoc "reference" fields) eqn:E2; simpl; [|done].
    destruct (assoc "filename" fields) eqn:E3; simpl; [|done].
    destruct (assoc "encoder" fields) eqn:E4; simpl; [|done].
    destruct (assoc "checksum" fields) eqn:E5; simpl; [|done].
    destruct (assoc "value" fields) eqn:E6; simpl; [|done].
    destruct Hin as [-> | [-> | [-> | [-> | [-> | [-> | []]]]]]]; congruence.
Qed.

(** X10. [update_props] checks a record before it writes: at a name of
    its list where there is no object any more it raises KeyError, at a
    dataset whose row type is simple or lacks one of the six columns it
    raises ValueError, and in both cases the loop body has changed
    nothing. *)
Theorem update_prop_checks_before_writing fname w hfile propname :
  files w !! fname = Some hfile ->
  (object_at fname propname w = Raise KeyError ->
   update_prop fname propname w = (w, Raise KeyError)) /\
  (forall d, object_at fname propname w = Ok (Dataset d) -> lacks_column d ->
             update_prop fname propname w = (w, Raise ValueError)).
Proof.
  intros Hf. unfold object_at, open_r. rewrite Hf. simpl.
  apply (update_prop_unreadable fname w hfile propname Hf).
Qed.

End the_tasks.

Section header.
Context `{Imports}.
Implicit Types (w : world) (hfile : h5file).

(** X16. The two tasks on the header write one attribute each and
    nothing else: [update_ver] sets [version] to the target, [add_id] sets
    [id] to a fresh identifier, replacing any value that is there; the
    tree, the other attributes and the other files are as before, and
    running [update_ver] again changes nothing. *)
Theorem header_tasks_write_one_attribute fname w hfile :
  files w !! fname = Some hfile ->
  let bumped := H5File (<["version" := AInts HDF_FF_VERSION]> (attrs hfile)) (root hfile) in
  let named := H5File (<["id" := AStr (create_id (ids w))]> (attrs hfile)) (root hfile) in
  call (update_ver fname) w =
    (World (<[fname := bumped]> (files w)) (ids w) (ticks w) (stdout w) (stdin w), Ok tt) /\
  call (add_id fname) w =
    (World (<[fname := named]> (files w)) (S (ids w)) (ticks w) (stdout w) (stdin w), Ok tt) /\
  call (update_ver fname) (call (update_ver fname) w).1 = call (update_ver fname) w.
Proof.
  intros Hf bumped named.
  assert (forall w0 h0, files w0 !! fname = Some h0 ->
            call (update_ver fname) w0 =
              (World (<[fname := H5File (<["version" := AInts HDF_FF_VERSION]> (attrs h0))
                                   (root h0)]> (files w0))
                 (ids w0) (ticks w0) (stdout w0) (stdin w0), Ok tt)) as Hver.
  { intros w0 h0 Hf0. simpl.
    unfold bind, open_a, modify, bind, reading, lift, open_r, put_file.
    rewrite Hf0. simpl. by rewrite Hf0. }
  split; [by apply Hver|]. split.
  - simpl. unfold bind, open_a, new_id, modify, bind, reading, lift, open_r, put_file.
    rewrite Hf. simpl. by rewrite Hf.
  - rewrite (Hver w hfile Hf). cbn [fst].
    rewrite (Hver _ bumped) by (simpl; by rewrite lookup_insert_eq).
    simpl. by rewrite insert_insert_eq, insert_insert_eq.
Qed.

End header.

End single_tasks.

(** ** Names that are taken *)
Section names_taken.
Local Close Scope Z_scope.
Local Open Scope res_scope.
Local Open Scope M_scope.

Implicit Types (p q : list string) (ms x : list (string * node)) (hfile : h5file) (s : lstate).

Lemma link_node_taken p c y ms x :
  members_at p ms = Some x -> is_Some (assoc c x) ->
  link_node (p ++ [c]) y (Group ms) = Raise ValueError.
Proof.
  revert ms. induction p as [|c' p IH]; intros ms; simpl.
  - intros [= ->] [n ->]. done.
  - destruct (assoc c' ms) as [[sub|d]|] eqn:E; [|done..]. intros Hx Hc.
    rewrite (IH _ Hx Hc). by destruct (p ++ [c]) eqn:E'; [destruct p|].
Qed.

Lemma modify_at fname f w hfile :
  files w !! fname = Some hfile ->
  modify fname f w =
    match f hfile with
    | Ok hfile' =>
        (World (<[fname := hfile']> (files w)) (ids w) (ticks w) (stdout w) (stdin w), Ok tt)
    | Raise e => (w, Raise e)
    end.
Proof.
  intros Hf. unfold modify, bind, reading, lift, open_r, put_file. rewrite Hf. simpl.
  by destruct (f hfile).
Qed.

Section taken.
Context `{Imports}.
Implicit Types (w : world).

Lemma create_dataset_taken fname w hfile p c x dt data :
  files w !! fname = Some hfile ->
  Forall link_name (p ++ [c]) ->
  members_at p (root hfile) = Some x ->
  is_Some (assoc c x) ->
  create_dataset fname (h5_name (p ++ [c])) dt data w =
    (w, Raise (match asarray _ dt data with Ok _ => ValueError | Raise e => e end)).
Proof.
  intros Hf Hwf Hx Hc. unfold create_dataset.
  rewrite (resolve_h5_name _ Hwf), removelast_last.
  unfold bind at 1. rewrite (modify_at _ _ _ _ Hf), (make_groups_ok _ _ _ Hx).
  rewrite (world_eta w hfile fname Hf).
  unfold bind at 1, lift. destruct (asarray _ dt data) as [arr|e]; [|done].
  assert (forall d, link (h5_name (p ++ [c])) d hfile = Raise ValueError) as Hlink.
  { intros d. unfold link. by rewrite (resolve_h5_name _ Hwf), (link_node_taken _ _ _ _ _ Hx Hc). }
  destruct dt, arr; try (by rewrite (modify_at _ _ _ _ Hf), Hlink);
    unfold bind; by rewrite (modify_at _ _ _ _ Hf), Hlink.
Qed.

Lemma create_property_taken fname w hfile p c x dt data :
  files w !! fname = Some hfile ->
  Forall link_name (p ++ [c]) ->
  members_at p (root hfile) = Some x ->
  is_Some (assoc c x) ->
  create_property fname (h5_name (p ++ [c])) dt data w =
    (w, Raise (match asarray _ dt data with Ok _ => ValueError | Raise e => e end)).
Proof.
  intros Hf Hwf Hx Hc. unfold create_property, bind.
  by rewrite (create_dataset_taken fname w hfile p c x dt data Hf Hwf Hx Hc).
Qed.

(** X11. [create_property] never overwrites: when there is an object at
    the name already, it raises and leaves the file as it is, without
    drawing an identifier or reading the clock.  The exception is the
    ValueError of [create_dataset], unless the conversion of the data to
    the dtype, which comes first, raises its own. *)
Theorem create_property_never_overwrites fname w hfile q n dt data :
  files w !! fname = Some hfile ->
  Forall link_name q ->
  q <> [] ->
  get_node q (Group (root hfile)) = Some n ->
  create_property fname (h5_name q) dt data w =
    (w, Raise (match asarray _ dt data with Ok _ => ValueError | Raise e => e end)).
Proof.
  intros Hf Hwf Hne Hget.
  destruct (exists_last Hne) as (p & c & ->).
  apply get_node_snoc_inv in Hget as (x & Hx & Hc).
  by apply (create_property_taken fname w hfile p c x).
Qed.

End taken.

(** ** A sibling name that is taken *)
Section clash.
Context `{Imports}.
Context (fname : string) (fs : gmap string h5file) (a : gmap string attrval)
        (root0 x0 : list (string * node)) (p : list string) (c : string) (o inp : list string).
Hypothesis Hx0 : members_at p root0 = Some x0.
Hypothesis Hwf : Forall link_name (p ++ [c]).

Local Abbreviation lw := (local_world fname fs a root0 p o inp).

Lemma lw_file s : files (lw s) !! fname = Some (H5File a (graft p s.1.1 root0)).
Proof. unfold local_world. simpl. by rewrite lookup_insert_eq. Qed.

Lemma create_sibling_taken suf dt data arr s :
  suf ∈ suffixes ->
  is_Some (assoc (c +:+ suf) s.1.1) ->
  asarray _ dt data = Ok arr ->
  create_property fname (h5_name (p ++ [c]) +:+ suf) dt data (lw s) = (lw s, Raise ValueError).
Proof.
  intros Hsuf Htaken Harr. rewrite h5_name_suffix.
  rewrite (create_property_taken fname (lw s) _ p (c +:+ suf) s.1.1 dt data (lw_file s)
             (link_name_sibling p c Hwf suf Hsuf) (members_at_graft _ _ _ _ Hx0) Htaken).
  by rewrite Harr.
Qed.

Lemma replaced_in_base values s0 :
  s0.1.1 = x0 -> replaced_in c values x0 (replace_base c values s0).
Proof.
  destruct s0 as [[x i] t]. simpl. intros ->. split; simpl.
  - eexists. apply assoc_snoc_eq, assoc_remove_eq.
  - intros suf [_ Hne]%suffix_ok _.
    assert (c <> c +:+ suf) by (intros E; by apply (sibling_ne c suf)).
    rewrite assoc_snoc_ne by done. by rewrite assoc_remove_ne.
Qed.

Lemma replaced_in_add values suf arr s :
  suf ∈ suffixes ->
  assoc (c +:+ suf) s.1.1 = None ->
  replaced_in c values x0 s -> replaced_in c values x0 (add_sibling c suf arr s).
Proof.
  intros Hsuf Hfree [[b Hb] Hkeep]. destruct s as [[x i] t]. simpl in *. split; simpl.
  - exists b. rewrite assoc_snoc_ne; [done|]. apply sibling_ne. by apply suffix_ok.
  - intros suf' Hsuf' Htaken. rewrite <-(Hkeep suf' Hsuf' Htaken).
    apply assoc_snoc_ne. intros E. apply (sibling_inj c suf suf') in E; [done|].
    intros ->. rewrite (Hkeep suf' Hsuf' Htaken) in Hfree. rewrite Hfree in Htaken.
    by destruct Htaken.
Qed.

Lemma replaced_in_set_attr values key v s :
  replaced_in c values x0 s -> replaced_in c values x0 (set_member_attr c key v s).
Proof.
  intros [[b Hb] Hkeep]. destruct s as [[x i] t]. simpl in *.
  unfold set_member_attr. rewrite Hb. split; simpl.
  - eexists. apply assoc_replace_eq. by rewrite Hb.
  - intros suf Hsuf Htaken. rewrite <-(Hkeep suf Hsuf Htaken).
    apply assoc_replace_ne. intros E. apply (sibling_ne c suf); [by apply suffix_ok|done].
Qed.

Lemma free_in_x0 values suf s :
  suf ∈ suffixes -> replaced_in c values x0 s ->
  assoc (c +:+ suf) s.1.1 = None -> assoc (c +:+ suf) x0 = None.
Proof.
  intros Hsuf [_ Hkeep] Hfree. destruct (assoc (c +:+ suf) x0) as [n|] eqn:E; [|done].
  rewrite (Hkeep suf Hsuf) in Hfree by (by rewrite E). by rewrite E in Hfree.
Qed.

(** A step that makes a sibling of strings: it raises when the sibling is
    called for and its name taken, and goes on otherwise. *)
Lemma sibling_step_any values suf l s :
  suf ∈ suffixes ->
  replaced_in c values x0 s ->
  let m := if any (StrArr l)
           then create_property fname (h5_name (p ++ [c]) +:+ suf) vlen_str (StrArr l)
           else ret tt in
  m (lw s) = (lw s, Raise ValueError) \/
  exists s', m (lw s) = (lw s', Ok tt) /\ replaced_in c values x0 s' /\
             (any (StrArr l) = true -> assoc (c +:+ suf) x0 = None).
Proof.
  intros Hsuf Hrep m. subst m. destruct (any (StrArr l)) eqn:Hany.
  - destruct (assoc (c +:+ suf) s.1.1) as [n|] eqn:Hs.
    + left. apply (create_sibling_taken suf vlen_str (StrArr l) (StrArr l)); [done| |done].
      by rewrite Hs.
    + right. exists (add_sibling c suf (StrArr l) s).
      pose proof (sibling_step fname fs a root0 x0 p c o inp Hx0 Hwf suf l s Hsuf Hs) as Hstep.
      rewrite Hany in Hstep. simpl in Hstep. split; [exact Hstep|].
      split; [by apply replaced_in_add|]. intros _. by apply (free_in_x0 values suf s).
  - right. exists s. split; [done|]. split; [done|]. by intros.
Qed.

Lemma uncertainty_step_any values unc uarr s :
  asarray _ float64 unc = Ok uarr ->
  replaced_in c values x0 s ->
  let propname := h5_name (p ++ [c]) in
  let m := if (1 <? len_set unc)%nat then
             create_property fname (propname +:+ ".uncertainty") float64 unc
           else if any unc then
             u0 <- lift (getitem0 unc);;
             modify fname (set_attr propname "uncertainty" u0)
           else ret tt in
  m (lw s) = (lw s, Raise ValueError) \/
  exists s', m (lw s) = (lw s', Ok tt) /\ replaced_in c values x0 s' /\
             ((1 <? len_set unc)%nat = true -> assoc (c +:+ ".uncertainty") x0 = None).
Proof.
  intros Harr Hrep propname m. subst m propname.
  destruct suffix_members as (Su & _).
  destruct (1 <? len_set unc)%nat eqn:Hmany.
  - destruct (assoc (c +:+ ".uncertainty") s.1.1) as [n|] eqn:Hs.
    + left. apply (create_sibling_taken ".uncertainty" float64 unc uarr); [done| |done].
      by rewrite Hs.
    + right. exists (add_sibling c ".uncertainty" uarr s). split.
      * destruct s as [[x i] t]. rewrite h5_name_suffix.
        apply (create_property_local fname fs a root0 x0 p o inp Hx0);
          [by apply link_name_sibling|done|done|done].
      * split; [by apply replaced_in_add|]. intros _. by apply (free_in_x0 values _ s).
  - right. destruct (any unc) eqn:Hany; [|exists s; split; [done|]; split; [done|]; by intros].
    destruct (any_getitem0 _ Hany) as [u0 Hu0]. rewrite Hu0.
    exists (set_member_attr c "uncertainty" u0 s). split.
    + erewrite bind_ok by reflexivity. destruct Hrep as [[b Hb] _].
      destruct s as [[x i] t].
      eapply (set_attr_local fname fs a root0 x0 p c o inp Hx0);
        [by apply resolve_h5_name|exact Hb].
    + split; [by apply replaced_in_set_attr|done].
Qed.

Lemma update_prop_clash d fields cols suf i t :
  assoc c x0 = Some (Dataset d) ->
  ds_data d = Compound fields ->
  assoc "value" fields = Some (value cols) ->
  assoc "uncertainty" fields = Some (uncertainty cols) ->
  assoc "reference" fields = Some (StrArr (reference cols)) ->
  assoc "filename" fields = Some (StrArr (filename cols)) ->
  assoc "encoder" fields = Some (StrArr (encoder cols)) ->
  assoc "checksum" fields = Some (StrArr (checksum cols)) ->
  dtype_of (uncertainty cols) <> vlen_str ->
  suf ∈ suffixes -> calls_for cols suf = true -> is_Some (assoc (c +:+ suf) x0) ->
  exists s, update_prop fname (h5_name (p ++ [c])) (lw (x0, i, t)) = (lw s, Raise ValueError) /\
            replaced_in c (value cols) x0 s.
Proof.
  intros Hd Hdata Hval Hunc Href Hfn Henc Hchk Hnum Hsuf Hcall Htaken.
  destruct (asarray_as_float (uncertainty cols) Hnum) as (Hfloat & _).
  destruct suffix_members as (Su & Sr & Sf & Se & Sc).
  unfold update_prop.
  unfold local_world at 1. simpl. rewrite (graft_id _ _ _ Hx0).
  erewrite bind_ok by apply open_a_ins.
  unfold getitem. simpl root. rewrite (resolve_h5_name _ Hwf).
  rewrite (get_node_snoc _ _ _ _ Hx0), Hd. simpl of_option.
  erewrite bind_ok by reflexivity.
  unfold getfield. rewrite Hdata, Hunc, Href, Hfn, Henc, Hchk, Hval. simpl of_option.
  do 6 (erewrite bind_ok by reflexivity).
  erewrite bind_ok.
  2:{ apply modify_ins. eapply delitem_ok; [by apply resolve_h5_name|exact Hx0|by rewrite Hd]. }
  simpl attrs. simpl root.
  change (World _ i t o inp) with (lw (assoc_remove c x0, i, t)).
  erewrite bind_ok.
  2:{ apply (create_property_local fname fs a root0 x0 p o inp Hx0);
        [done|apply assoc_remove_eq|apply asarray_same|apply vlen_str_StrArr]. }
  change (_ ++ _, S i, S (S t)) with (replace_base c (value cols) (x0, i, t)).
  pose proof (replaced_in_base (value cols) (x0, i, t) eq_refl) as Hrep0.
  destruct (uncertainty_step_any (value cols) (uncertainty cols) _ _ Hfloat Hrep0)
    as [Hraise|(s1 & Hstep1 & Hrep1 & Hfree1)];
    [erewrite bind_raise by exact Hraise; eauto|erewrite bind_ok by exact Hstep1].
  destruct (sibling_step_any (value cols) ".reference" (reference cols) s1 Sr Hrep1)
    as [Hraise|(s2 & Hstep2 & Hrep2 & Hfree2)];
    [erewrite bind_raise by exact Hraise; eauto|erewrite bind_ok by exact Hstep2].
  destruct (sibling_step_any (value cols) ".filename" (filename cols) s2 Sf Hrep2)
    as [Hraise|(s3 & Hstep3 & Hrep3 & Hfree3)];
    [erewrite bind_raise by exact Hraise; eauto|erewrite bind_ok by exact Hstep3].
  destruct (sibling_step_any (value cols) ".encoder" (encoder cols) s3 Se Hrep3)
    as [Hraise|(s4 & Hstep4 & Hrep4 & Hfree4)];
    [erewrite bind_raise by exact Hraise; eauto|erewrite bind_ok by exact Hstep4].
  destruct (sibling_step_any (value cols) ".checksum" (checksum cols) s4 Sc Hrep4)
    as [Hraise|(s5 & Hstep5 & Hrep5 & Hfree5)]; [rewrite Hraise; eauto|].
  exfalso. unfold suffixes in Hsuf. rewrite !elem_of_cons, elem_of_nil in Hsuf.
  unfold calls_for in Hcall.
  destruct Hsuf as [-> | [-> | [-> | [-> | [-> | []]]]]]; simpl in Hcall;
    [rewrite (Hfree1 Hcall) in Htaken|rewrite (Hfree2 Hcall) in Htaken
    |rewrite (Hfree3 Hcall) in Htaken|rewrite (Hfree4 Hcall) in Htaken
    |rewrite (Hfree5 Hcall) in Htaken]; by destruct Htaken.
Qed.

End clash.

Section lost_columns.
Context `{Imports}.

(** X12. A sibling name that is taken costs the record its columns.  When
    a legacy record calls for a sibling (several distinct uncertainties, or
    a string column with a row that is not empty) whose name already holds
    an object, the loop body raises ValueError after it has replaced the
    record: what is at the path is then a dataset of the value column
    alone, and the object at the sibling name is the one that was there. *)
Theorem update_prop_sibling_name_taken fname w p c cols suf n :
  Forall link_name (p ++ [c]) ->
  (exists d, object_at fname (h5_name (p ++ [c])) w = Ok (Dataset d) /\ is_legacy d cols) ->
  suf ∈ suffixes ->
  calls_for cols suf = true ->
  object_at fname (h5_name (p ++ [c]) +:+ suf) w = Ok n ->
  let w' := (update_prop fname (h5_name (p ++ [c])) w).1 in
  (update_prop fname (h5_name (p ++ [c])) w).2 = Raise ValueError /\
  (exists a, object_at fname (h5_name (p ++ [c])) w' =
             Ok (Dataset (Dset (Simple (value cols)) a))) /\
  object_at fname (h5_name (p ++ [c]) +:+ suf) w' = Ok n.
Proof.
  intros Hwf (d & Hd & fields & Hdata & Hv & Hu & Hr & Hfn & He & Hch & Hnum) Hsuf Hcall Hn w'.
  subst w'.
  unfold object_at, open_r in Hd, Hn. destruct (files w !! fname) as [hfile|] eqn:Hf; [|done].
  simpl in Hd, Hn. unfold getitem in Hd, Hn. rewrite (resolve_h5_name _ Hwf) in Hd.
  destruct (get_node (p ++ [c]) _) as [n0|] eqn:Hget; [|done]. injection Hd as ->.
  apply get_node_snoc_inv in Hget as (x & Hx & Hc).
  pose proof (link_name_sibling p c Hwf suf Hsuf) as Hwf'.
  rewrite h5_name_suffix, (resolve_h5_name _ Hwf'), (get_node_snoc _ _ _ _ Hx) in Hn.
  destruct (assoc (c +:+ suf) x) as [n'|] eqn:Htaken; [|done]. injection Hn as ->.
  destruct (update_prop_clash fname (files w) (attrs hfile) (root hfile) x p c (stdout w) (stdin w)
              Hx Hwf d fields cols suf (ids w) (ticks w)) as (s & Hrun & [[b Hb] Hkeep]);
    try done.
  rewrite <-(world_as_local w fname hfile p x Hf Hx) in Hrun. rewrite Hrun. simpl.
  split; [done|]. split.
  - exists b. rewrite (object_at_local _ _ _ _ _ _ _ _ _ _ Hx Hwf). by rewrite Hb.
  - rewrite h5_name_suffix, (object_at_local _ _ _ _ _ _ _ _ _ _ Hx Hwf').
    rewrite (Hkeep suf Hsuf) by (by rewrite Htaken). by rewrite Htaken.
Qed.

End lost_columns.

End names_taken.

(** ** One file, from the plan to the end *)
Section one_file_end_to_end.
Local Close Scope Z_scope.
Local Open Scope res_scope.
Local Open Scope M_scope.

Lemma Forall2_choice {A B} (R : A -> B -> Prop) (l : list A) :
  (forall y, y ∈ l -> exists r, R y r) -> exists rs, Forall2 R l rs.
Proof.
  induction l as [|y l IH]; intros Hall; [by exists []|].
  destruct (Hall y ltac:(left)) as [r Hr].
  destruct IH as [rs Hrs]; [intros ??; apply Hall; by right|].
  exists (r :: rs). by constructor.
Qed.

Lemma is_legacy_unique d cols cols' : is_legacy d cols -> is_legacy d cols' -> cols = cols'.
Proof.
  intros (f & Hd & Hv & Hu & Hr & Hfn & He & Hc & _) (f' & Hd' & Hv' & Hu' & Hr' & Hfn' & He' & Hc' & _).
  assert (f' = f) as -> by congruence.
  destruct cols, cols'; simpl in *. by simplify_eq.
Qed.

Section what_reads_one_file.
Context `{Imports} (fname : string).
Implicit Types (w : world).

Lemma object_at_reads path w w' :
  files w !! fname = files w' !! fname -> object_at fname path w = object_at fname path w'.
Proof. intros Hf. unfold object_at, open_r. by rewrite Hf. Qed.

Lemma candidate_at_reads p c cols : reads_only fname (fun w => candidate_at w fname p c cols).
Proof.
  intros w w' Hf (Hwf & (d & Hd & Hleg) & Hfree). split; [done|]. split.
  - exists d. by rewrite <-(object_at_reads _ w w' Hf).
  - intros suf Hsuf. rewrite <-(object_at_reads _ w w' Hf). by apply Hfree.
Qed.

Lemma normalized_at_reads p c cols : reads_only fname (fun w => normalized_at w fname p c cols).
Proof.
  intros w w' Hf (s & Hwf & Hfree & Hk). exists s. split; [done|]. split; [done|].
  intros k Hin. rewrite <-(object_at_reads _ w w' Hf). by apply Hk.
Qed.

Lemma collect_tasks_reads w w' :
  files w !! fname = files w' !! fname ->
  (collect_tasks fname w).2 = (collect_tasks fname w').2.
Proof.
  intros Hf.
  assert (get_file_version fname w = get_file_version fname w') as Hver
    by (unfold get_file_version, open_r; by rewrite Hf).
  assert (has_valid_file_id fname w = has_valid_file_id fname w') as Hid
    by (unfold has_valid_file_id, open_r; by rewrite Hf).
  assert (update_property_values fname w = update_property_values fname w') as Hscan
    by (unfold update_property_values, open_r; by rewrite Hf).
  unfold collect_tasks, bind, reading, lift. rewrite Hver.
  destruct (get_file_version fname w') as [ver|]; [|done].
  destruct (tuple_ge _ _) as [[|]|]; [done| |done]. simpl. rewrite Hid.
  destruct (has_valid_file_id fname w') as [[|]|]; simpl; [done| |done].
  rewrite Hscan. by destruct (update_property_values fname w').
Qed.

Lemma legacy_records_reads metadata : reads_only fname (fun w => legacy_records w fname metadata).
Proof.
  intros w w' Hf (Hwf & Hall). split; [done|]. intros cs d Hget Hd.
  destruct (Hall cs d Hget Hd) as (p & c & cols & E & Hcand).
  exists p, c, cols. split; [done|]. by apply (candidate_at_reads p c cols w w').
Qed.

Lemma upgradable_reads : reads_only fname (fun w => upgradable w fname).
Proof.
  intros w w' Hf (hfile & v & Hfile & Hv & Hold). exists hfile, v.
  split; [by rewrite <-Hf|]. split; [done|]. intros Hlt.
  assert (has_valid_file_id fname w = has_valid_file_id fname w') as <-
    by (unfold has_valid_file_id, open_r; by rewrite Hf).
  destruct (Hold Hlt) as [?|(? & metadata & ? & Hleg)]; [by left|right].
  split; [done|]. exists metadata. split; [done|].
  by apply (legacy_records_reads metadata w w').
Qed.

End what_reads_one_file.

Section whole_file.
Context `{Imports} (fname : string).
Implicit Types (w : world) (hfile : h5file) (r : list string * string * legacy_columns).

(** The records the scan of a legacy metadata tree finds. *)
Lemma records_of_scan w metadata :
  legacy_records w fname metadata ->
  exists rs,
    scan (Group metadata) = (fun r => h5_name (record_path r)) <$> rs /\
    NoDup (record_path <$> rs) /\
    (forall r, r ∈ rs -> candidate_at w fname r.1.1 r.1.2 r.2) /\
    (forall cs d,
       get_node cs (Group metadata) = Some (Dataset d) -> (0 < dtype_len d)%nat ->
       exists r, r ∈ rs /\ record_path r = "metadata" :: cs).
Proof.
  intros [Hwf Hall].
  assert (forall cs n, get_node cs (Group metadata) = Some n ->
                       Forall link_name ("metadata" :: cs)) as Hnames.
  { intros cs n Hget. constructor; [by apply link_name_intro|].
    by destruct (get_node_link_names _ _ _ Hwf Hget). }
  assert (forall cs d, get_node cs (Group metadata) = Some (Dataset d) ->
            (0 < dtype_len d)%nat -> h5_name ("metadata" :: cs) ∈ scan (Group metadata)) as Hin.
  { intros cs d Hget Hd. apply scan_elem. exists d. split; [|done].
    apply visit_elem; [done|]. exists cs. split; [by destruct cs|]. by split. }
  destruct (Forall2_choice
              (fun y r => y = h5_name (record_path r) /\ candidate_at w fname r.1.1 r.1.2 r.2)
              (scan (Group metadata))) as [rs Hrs].
  { intros y (d & Hvis & Hd)%scan_elem.
    apply visit_elem in Hvis as (cs & _ & -> & Hget); [|done].
    destruct (Hall cs d Hget Hd) as (p & c & cols & E & Hcand).
    exists (p, c, cols). split; [|done]. unfold record_path. simpl. by rewrite <-E. }
  assert (scan (Group metadata) = (fun r => h5_name (record_path r)) <$> rs) as Hscan.
  { clear -Hrs. induction Hrs as [|y r l rs [-> _] _ IH]; [done|]. simpl. by rewrite IH. }
  assert (forall r, r ∈ rs -> candidate_at w fname r.1.1 r.1.2 r.2) as Hcand.
  { clear -Hrs. induction Hrs as [|y r l rs [_ Hr] _ IH]; intros r' Hin.
    - by apply elem_of_nil in Hin.
    - apply elem_of_cons in Hin as [->|Hin]; [done|by apply IH]. }
  exists rs. split; [done|]. split; [|split; [done|]].
  - pose proof (scan_NoDup (Group metadata) Hwf) as Hnd. rewrite Hscan in Hnd.
    rewrite (list_fmap_compose record_path h5_name) in Hnd. by apply NoDup_fmap_1 in Hnd.
  - intros cs d Hget Hd. specialize (Hin cs d Hget Hd). rewrite Hscan in Hin.
    apply list_elem_of_fmap in Hin as (r & E & Hr). exists r. split; [done|].
    symmetry. apply h5_name_inj; [by eapply Hnames| |done].
    by destruct (Hcand r Hr) as [? _].
Qed.

Lemma collect_tasks_out w : stdin (collect_tasks fname w).1 = stdin w /\
                            files (collect_tasks fname w).1 = files w.
Proof. by destruct (collect_tasks_untouched fname w) as (? & ? & ? & ?). Qed.

(** The full plan of a legacy file, from the scan to the version. *)
Lemma structural_plan_runs w hfile v metadata :
  files w !! fname = Some hfile ->
  attrs hfile !! "version" = Some (AInts v) ->
  lexico v HDF_FF_VERSION ->
  has_valid_file_id fname w = Ok false ->
  assoc "metadata" (root hfile) = Some (Group metadata) ->
  legacy_records w fname metadata ->
  exists tasks,
    (collect_tasks fname w).2 = Ok (Some tasks) /\
    forall w1, files w1 !! fname = files w !! fname ->
      exists w2,
        for_each call tasks w1 = (w2, Ok tt) /\
        (collect_tasks fname w2).2 = Ok None /\
        forall cs d,
          get_node cs (Group metadata) = Some (Dataset d) -> (0 < dtype_len d)%nat ->
          exists p c cols, "metadata" :: cs = p ++ [c] /\ is_legacy d cols /\
                           normalized_at w2 fname p c cols.
Proof.
  intros Hf Hv Hlt Hid Hm Hleg.
  destruct (records_of_scan w metadata Hleg) as (rs & Hscan & Hnd & Hcand & Hfound).
  exists [add_id fname; update_props fname (scan (Group metadata)); update_ver fname].
  split.
  { apply (collect_tasks_structural fname w hfile v); try done.
    by apply (update_property_values_ok fname w hfile). }
  intros w1 Hf1. rewrite Hscan.
  assert (forall r, r ∈ rs -> candidate_at w1 fname r.1.1 r.1.2 r.2) as Hcand1.
  { intros r Hr. apply (candidate_at_reads fname r.1.1 r.1.2 r.2 w w1); [done|by apply Hcand]. }
  destruct (full_plan_upgrades fname w1 hfile v rs) as (w2 & Hrun & Hnorm & Hdone);
    [by rewrite Hf1|done..|].
  exists w2. split; [done|]. split; [done|]. intros cs d Hget Hd.
  destruct (Hfound cs d Hget Hd) as (r & Hr & Hpath).
  destruct r as [[p c] cols]. unfold record_path in Hpath. simpl in Hpath.
  exists p, c, cols. split; [done|]. split; [|by apply (Hnorm _ Hr)].
  destruct (Hcand _ Hr) as (Hwf & (d' & Hd' & Hleg') & _). simpl in *.
  destruct Hleg as [Hwfm _].
  rewrite Hpath in Hd', Hwf.
  rewrite (object_at_get fname w hfile ("metadata" :: cs) Hf Hwf) in Hd'.
  simpl in Hd'. rewrite Hm, Hget in Hd'. simpl in Hd'. by simplify_eq.
Qed.

(** X13. The structural upgrade of one file, end to end.  For a file
    below the target version, without valid identifier, whose metadata is
    in the legacy format throughout, [collect_tasks] returns a plan; run
    on the file as planned, every task of it returns; afterwards each
    dataset of the metadata that had a compound row type is normalized, at
    any depth, and the file is up to date. *)
Theorem structural_upgrade_runs_through w hfile v metadata :
  files w !! fname = Some hfile ->
  attrs hfile !! "version" = Some (AInts v) ->
  lexico v HDF_FF_VERSION ->
  has_valid_file_id fname w = Ok false ->
  assoc "metadata" (root hfile) = Some (Group metadata) ->
  legacy_records w fname metadata ->
  exists tasks w',
    (collect_tasks fname w).2 = Ok (Some tasks) /\
    for_each call tasks (collect_tasks fname w).1 = (w', Ok tt) /\
    (collect_tasks fname w').2 = Ok None /\
    forall cs d,
      get_node cs (Group metadata) = Some (Dataset d) -> (0 < dtype_len d)%nat ->
      exists p c cols, "metadata" :: cs = p ++ [c] /\ is_legacy d cols /\
                       normalized_at w' fname p c cols.
Proof.
  intros Hf Hv Hlt Hid Hm Hleg.
  destruct (structural_plan_runs w hfile v metadata Hf Hv Hlt Hid Hm Hleg) as (tasks & Hplan & Hrun).
  destruct (Hrun (collect_tasks fname w).1) as (w' & Hrun' & Hdone & Hnorm).
  { by destruct (collect_tasks_out w) as [_ ->]. }
  by exists tasks, w'.
Qed.

End whole_file.

End one_file_end_to_end.

(** ** All files of a run *)
Section all_files_end_to_end.
Local Close Scope Z_scope.
Local Open Scope res_scope.
Local Open Scope M_scope.

(** ** The dict of plans *)
Section dict.
Context {A : Type}.
Implicit Types (d : list (string * A)).

Lemma assoc_None k d : assoc k d = None <-> k ∉ d.*1.
Proof.
  induction d as [|[k' v'] d IH]; simpl.
  - split; [intros _ ?%elem_of_nil; done|done].
  - rewrite not_elem_of_cons. destruct (decide (k = k')) as [->|Hne]; [|tauto].
    split; [done|]. by intros [? _].
Qed.

Lemma assoc_replace_keys k v d : (assoc_replace k v d).*1 = d.*1.
Proof.
  induction d as [|[k' v'] d IH]; simpl; [done|].
  destruct (decide (k = k')); simpl; [done|]. f_equal. exact IH.
Qed.

Lemma assoc_replace_elem k v d kv : kv ∈ assoc_replace k v d -> kv = (k, v) \/ kv ∈ d.
Proof.
  induction d as [|[k' v'] d IH]; simpl; [by intros ?%elem_of_nil|].
  destruct (decide (k = k')) as [->|Hne]; rewrite !elem_of_cons; [tauto|].
  intros [->|Hin]; [tauto|]. destruct (IH Hin); tauto.
Qed.

Lemma dict_set_keys k v d k' : k' ∈ (dict_set k v d).*1 <-> k' = k \/ k' ∈ d.*1.
Proof.
  unfold dict_set. destruct (assoc k d) as [v0|] eqn:E.
  - rewrite assoc_replace_keys. split; [tauto|]. intros [->|?]; [|done].
    apply list_elem_of_fmap. exists (k, v0). split; [done|]. by apply assoc_elem.
  - rewrite fmap_app, elem_of_app. simpl. rewrite list_elem_of_singleton. tauto.
Qed.

Lemma dict_set_NoDup k v d : NoDup d.*1 -> NoDup (dict_set k v d).*1.
Proof.
  intros Hnd. unfold dict_set. destruct (assoc k d) as [v0|] eqn:E.
  - by rewrite assoc_replace_keys.
  - rewrite fmap_app. apply NoDup_app. split; [done|]. split; [|apply NoDup_singleton].
    intros k' Hin ->%list_elem_of_singleton. by apply assoc_None in E.
Qed.

Lemma dict_set_elem k v d kv : kv ∈ dict_set k v d -> kv = (k, v) \/ kv ∈ d.
Proof.
  unfold dict_set. destruct (assoc k d).
  - apply assoc_replace_elem.
  - rewrite elem_of_app, list_elem_of_singleton. tauto.
Qed.

End dict.

Section every_file.
Context `{Imports}.
Implicit Types (w : world) (hfile : h5file) (tasks : list (string * list task)) (a : args).

(** The first loop of [main], when every file can be planned: each file to
    upgrade gets one entry, which holds the plan [collect_tasks] makes of
    it. *)
Lemma plan_all_spec w0 filenames tasks0 w :
  files w = files w0 ->
  (forall f, f ∈ filenames -> exists plan, (collect_tasks f w0).2 = Ok plan) ->
  NoDup tasks0.*1 ->
  (forall f tl, (f, tl) ∈ tasks0 -> (collect_tasks f w0).2 = Ok (Some tl)) ->
  exists w1 tasks,
    plan_all filenames tasks0 w = (w1, Ok tasks) /\
    NoDup tasks.*1 /\
    (forall f tl, (f, tl) ∈ tasks -> (collect_tasks f w0).2 = Ok (Some tl)) /\
    (forall f, f ∈ tasks0.*1 -> f ∈ tasks.*1) /\
    (forall f, f ∈ filenames -> (collect_tasks f w0).2 = Ok None \/ f ∈ tasks.*1).
Proof.
  revert tasks0 w. induction filenames as [|fname rest IH]; intros tasks0 w Hf Hplans Hnd Hin.
  { exists w, tasks0. repeat split; try done. by intros f ?%elem_of_nil. }
  destruct (Hplans fname ltac:(left)) as [plan Hplan].
  assert (forall f, f ∈ rest -> exists plan, (collect_tasks f w0).2 = Ok plan) as Hplans'
    by (intros f ?; apply Hplans; by right).
  pose proof (collect_tasks_reads_files fname w w0 Hf) as Hsame.
  pose proof (collect_tasks_untouched fname w) as (Hf1 & _).
  simpl. unfold bind. destruct (collect_tasks fname w) as [w1 r]. simpl in *.
  rewrite Hsame, Hplan. rewrite Hf in Hf1.
  assert (forall tasks1,
    NoDup tasks1.*1 ->
    (forall f tl, (f, tl) ∈ tasks1 -> (collect_tasks f w0).2 = Ok (Some tl)) ->
    (forall f, f ∈ tasks0.*1 -> f ∈ tasks1.*1) ->
    (plan = None \/ fname ∈ tasks1.*1) ->
    exists w2 tasks,
      plan_all rest tasks1 w1 = (w2, Ok tasks) /\
      NoDup tasks.*1 /\
      (forall f tl, (f, tl) ∈ tasks -> (collect_tasks f w0).2 = Ok (Some tl)) /\
      (forall f, f ∈ tasks0.*1 -> f ∈ tasks.*1) /\
      (forall f, f ∈ fname :: rest -> (collect_tasks f w0).2 = Ok None \/ f ∈ tasks.*1)) as Hgo.
  { intros tasks1 Hnd1 Hin1 Hsub Hfname.
    destruct (IH tasks1 w1 Hf1 Hplans' Hnd1 Hin1) as (w2 & tasks & Hrun & ? & ? & Hsub' & Hall).
    exists w2, tasks. do 3 (split; [done|]). split; [by auto|].
    intros f [->|Hrest]%elem_of_cons; [|by apply Hall].
    destruct Hfname as [->|?]; [by left|right; by apply Hsub']. }
  destruct plan as [[|t tl]|].
  - apply collect_tasks_shape in Hplan as [?|(? & ?)]; done.
  - apply Hgo.
    + by apply dict_set_NoDup.
    + intros f tl' [[= -> ->]|?]%dict_set_elem; [done|by apply Hin].
    + intros f ?. apply dict_set_keys. by right.
    + right. apply dict_set_keys. by left.
  - apply Hgo; auto.
Qed.

(** The second loop of [main], from what each plan does to its file. *)
Lemma run_all_tasks_spec (Pre Post : string -> world -> Prop) tasks :
  (forall f, reads_only f (Pre f)) ->
  (forall f, reads_only f (Post f)) ->
  NoDup tasks.*1 ->
  (forall f tl, (f, tl) ∈ tasks ->
     Forall (fun t => task_file t = f) tl /\
     forall w, Pre f w -> exists w', for_each call tl w = (w', Ok tt) /\ Post f w') ->
  forall w,
    (forall f, f ∈ tasks.*1 -> Pre f w) ->
    exists w',
      run_all_tasks tasks w = (w', Ok tt) /\
      (forall f, f ∈ tasks.*1 -> Post f w') /\
      (forall g, g ∉ tasks.*1 -> files w' !! g = files w !! g).
Proof.
  intros HPre HPost. induction tasks as [|[f tl] tasks IH]; intros Hnd Hspec w Hpre.
  { exists w. repeat split; try done. by intros f ?%elem_of_nil. }
  simpl in Hnd. apply NoDup_cons in Hnd as [Hf Hnd].
  destruct (Hspec f tl ltac:(left)) as [Hbound Hrun].
  set (w0 := (print ("Processing " +:+ f +:+ " ") w).1).
  destruct (Hrun w0) as (w1 & Hrun1 & Hpost1).
  { apply (HPre f w w0); [done|]. apply Hpre. simpl. left. }
  set (w2 := (print "done" w1).1).
  assert (forall g, g <> f -> files w2 !! g = files w !! g) as Hframe.
  { intros g Hg. change (files w2) with (files (w1, Ok tt).1). rewrite <-Hrun1.
    apply (preserves_for_each (file_is g (files w !! g)) call tl); [|done].
    intros t Ht. apply file_is_call. rewrite Forall_forall in Hbound.
    rewrite (Hbound t Ht). congruence. }
  destruct (IH Hnd) with (w := w2) as (w' & Hrest & Hpost & Hother).
  { intros f' tl' Hin. apply Hspec. by right. }
  { intros f' Hin. apply (HPre f' w w2).
    - symmetry. apply Hframe. intros ->. by apply Hf.
    - apply Hpre. simpl. by right. }
  exists w'. split; [|split].
  - unfold run_all_tasks in *. cbn [for_each fst snd].
    erewrite (bind_ok _ _ w w2 tt); [exact Hrest|].
    erewrite (bind_ok _ _ w w0 tt) by reflexivity.
    by erewrite (bind_ok _ _ w0 w1 tt) by exact Hrun1.
  - intros f' [->|Hin]%elem_of_cons; [|by apply Hpost].
    apply (HPost f w2 w'); [symmetry; by apply Hother|].
    by apply (HPost f w1 w2).
  - intros g [Hg Hin]%not_elem_of_cons. rewrite (Hother g Hin). by apply Hframe.
Qed.

Lemma records_rewritten_reads w0 f : reads_only f (fun w' => records_rewritten w0 w' f).
Proof.
  intros w w' Hf Hrec hfile v metadata cs d Hfile Hv Hlt Hid Hm Hget Hd.
  destruct (Hrec hfile v metadata cs d Hfile Hv Hlt Hid Hm Hget Hd) as (p & c & cols & ? & ? & Hn).
  exists p, c, cols. split; [done|]. split; [done|].
  by apply (normalized_at_reads f p c cols w w').
Qed.

(** What the plan of an upgradable file does, in whatever state the other
    files are. *)
Lemma plan_runs w0 f tl :
  upgradable w0 f ->
  (collect_tasks f w0).2 = Ok (Some tl) ->
  forall w, files w !! f = files w0 !! f ->
    exists w', for_each call tl w = (w', Ok tt) /\
               (collect_tasks f w').2 = Ok None /\ records_rewritten w0 w' f.
Proof.
  intros (hfile & v & Hf & Hv & Hold) Hplan w Hsame.
  destruct (decide (lexico v HDF_FF_VERSION)) as [Hlt|Hge].
  2:{ by rewrite (collect_tasks_up_to_date f w0 hfile v Hf Hv Hge) in Hplan. }
  destruct (Hold Hlt) as [Hid|(Hid & metadata & Hm & Hleg)].
  - rewrite (collect_tasks_bump_only f w0 hfile v Hf Hv Hlt Hid) in Hplan.
    injection Hplan as <-.
    destruct (call_update_ver f w hfile) as (w' & Hcall & (hfile' & Hf' & Hv'));
      [by rewrite Hsame|].
    exists w'. split; [|split].
    + cbn [for_each]. unfold bind. by rewrite Hcall.
    + apply (collect_tasks_up_to_date f w' hfile' HDF_FF_VERSION Hf' Hv').
      apply irreflexivity, _.
    + intros ???????. congruence.
  - destruct (structural_plan_runs f w0 hfile v metadata Hf Hv Hlt Hid Hm Hleg)
      as (tasks & Hplan' & Hrun).
    rewrite Hplan' in Hplan. injection Hplan as <-.
    destruct (Hrun w Hsame) as (w' & Hrun' & Hdone & Hnorm).
    exists w'. split; [done|]. split; [done|].
    intros hfile' v' metadata' cs d Hfile' _ _ _ Hm' Hget Hd.
    assert (hfile' = hfile) as -> by congruence.
    assert (metadata' = metadata) as -> by congruence. by apply Hnorm.
Qed.

Lemma upgradable_plans w f : upgradable w f -> exists plan, (collect_tasks f w).2 = Ok plan.
Proof.
  intros (hfile & v & Hf & Hv & Hold).
  destruct (decide (lexico v HDF_FF_VERSION)) as [Hlt|Hge].
  2:{ eexists. by apply (collect_tasks_up_to_date f w hfile v). }
  destruct (Hold Hlt) as [Hid|(Hid & metadata & Hm & Hleg)].
  - eexists. by apply (collect_tasks_bump_only f w hfile v).
  - eexists. apply (collect_tasks_structural f w hfile v); try done.
    by apply (update_property_values_ok f w hfile).
Qed.

Lemma main_as_loops a w w1 tasks conf w2 :
  plan_all (file a) [] w = (w1, Ok tasks) ->
  tasks <> [] ->
  (if negb (force a) then print warning;; (fun w => ask (stdin w) w) else ret "yes") w1
    = (w2, Ok conf) ->
  conf ∈ ["y"; "yes"] ->
  main a w = run_all_tasks tasks w2.
Proof.
  intros Hplan Hne Hask Hyes. unfold main. unfold bind at 1. rewrite Hplan.
  destruct tasks as [|ft tasks]; [done|]. unfold bind at 1. rewrite Hask.
  by rewrite bool_decide_eq_true_2.
Qed.

Lemma consent_given a w :
  consents a w ->
  exists w2 conf,
    (if negb (force a) then print warning;; (fun w => ask (stdin w) w) else ret "yes") w
      = (w2, Ok conf) /\
    conf ∈ ["y"; "yes"] /\ files w2 = files w.
Proof.
  intros [Hforce|(skipped & line & rest & Hin & Hskip & Hyes)].
  - rewrite Hforce. simpl. exists w, "yes". split; [done|]. split; [|done].
    rewrite !elem_of_cons. tauto.
  - unfold is_yes in Hyes. apply bool_decide_eq_true_1 in Hyes.
    assert (is_answer (lower line) = true) as Hans.
    { unfold is_answer. apply bool_decide_eq_true_2. revert Hyes. rewrite !elem_of_cons. tauto. }
    destruct (force a); simpl; [exists w, "yes"; split; [done|]; split; [|done];
                                rewrite !elem_of_cons; tauto|].
    unfold bind at 1. unfold print at 1. cbn [stdin]. rewrite Hin.
    rewrite (ask_first skipped line rest _ Hskip Hans). cbn [files].
    by eexists _, _.
Qed.

(** X14. The run as a whole.  Given files that can each be brought up to
    date, and the consent of the user ([--force], or [y] or [yes] as the
    first answer), [main] returns; afterwards every file given is up to
    date, also one given twice, and in each file that was below the target
    version and without valid identifier every dataset of the metadata
    that had a compound row type is normalized. *)
Theorem main_upgrades_every_file a w :
  consents a w ->
  (forall f, f ∈ file a -> upgradable w f) ->
  (main a w).2 = Ok tt /\
  forall f, f ∈ file a ->
    (collect_tasks f (main a w).1).2 = Ok None /\ records_rewritten w (main a w).1 f.
Proof.
  intros Hyes Hup.
  destruct (plan_all_spec w (file a) [] w eq_refl) as (w1 & tasks & Hplan & Hnd & Hin & _ & Hall).
  { intros f Hf. by apply upgradable_plans, Hup. }
  { constructor. }
  { by intros f tl ?%elem_of_nil. }
  pose proof (plan_all_untouched (file a) [] w) as (Hf1 & _ & _ & Hin1).
  rewrite Hplan in Hf1, Hin1. simpl in Hf1, Hin1.
  assert (forall f, f ∈ file a -> f ∉ tasks.*1 ->
            forall w', files w' !! f = files w !! f ->
              (collect_tasks f w').2 = Ok None /\ records_rewritten w w' f) as Hskip.
  { intros f Hf Hnot w' Hsame. destruct (Hall f Hf) as [Hnone|?]; [|done].
    split; [by rewrite (collect_tasks_reads f w' w Hsame)|].
    intros hfile v metadata cs d Hfile Hv Hlt Hid Hm Hget Hd.
    destruct (collect_tasks_below f w hfile v Hfile Hv Hlt Hnone). }
  destruct (decide (tasks = [])) as [->|Hne].
  { unfold main, bind. rewrite Hplan. simpl. split; [done|]. intros f Hf.
    apply (Hskip f Hf); [by intros ?%elem_of_nil|by rewrite Hf1]. }
  assert (consents a w1) as Hyes1.
  { destruct Hyes as [?|Hans]; [by left|right]. by rewrite Hin1. }
  destruct (consent_given a w1 Hyes1) as (w2 & conf & Hask & Hconf & Hf2).
  rewrite (main_as_loops a w w1 tasks conf w2 Hplan Hne Hask Hconf).
  pose proof (plan_all_bound (file a) (file a) [] w tasks ltac:(done) ltac:(constructor)) as Hb.
  rewrite Hplan in Hb. specialize (Hb eq_refl). unfold bound_to in Hb.
  rewrite Forall_forall in Hb.
  destruct (run_all_tasks_spec
              (fun f w' => files w' !! f = files w !! f)
              (fun f w' => (collect_tasks f w').2 = Ok None /\ records_rewritten w w' f)
              tasks) with (w := w2) as (w' & Hrun & Hpost & Hother); try done.
  - intros f w3 w4 Hsame E. by rewrite <-Hsame.
  - intros f w3 w4 Hsame [Hnone Hrec]. split.
    + by rewrite <-(collect_tasks_reads f w3 w4 Hsame).
    + by apply (records_rewritten_reads w f w3 w4).
  - intros f tl Hft. destruct (Hb (f, tl) Hft) as [Hfa _]. simpl in Hfa. split.
    + apply (collect_tasks_bound f w). by apply Hin.
    + intros w3 Hsame. apply (plan_runs w f tl); [by apply Hup|by apply Hin|done].
  - intros f _. by rewrite Hf2, Hf1.
  - rewrite Hrun. simpl. split; [done|]. intros f Hf.
    destruct (decide (f ∈ tasks.*1)) as [Hft|Hft]; [by apply Hpost|].
    apply (Hskip f Hf Hft). by rewrite (Hother f Hft), Hf2, Hf1.
Qed.

End every_file.

End all_files_end_to_end.

(** ** A task called again *)
Section second_call.
Local Close Scope Z_scope.
Local Open Scope res_scope.
Local Open Scope M_scope.

Section again.
Context `{Imports} (fname : string).
Implicit Types (w : world) (r : list string * string * legacy_columns).

(** X15. The task [update_props] cannot be run twice.  On the legacy
    records of a file it returns; called again, with the same list, it
    finds a dataset of a simple row type at the first name, raises
    ValueError there and leaves the file as the first call made it. *)
Theorem update_props_not_repeatable r rs w :
  NoDup (record_path <$> (r :: rs)) ->
  (forall r', r' ∈ r :: rs -> candidate_at w fname r'.1.1 r'.1.2 r'.2) ->
  let t := update_props fname ((fun r => h5_name (record_path r)) <$> (r :: rs)) in
  (call t w).2 = Ok tt /\
  call t (call t w).1 = ((call t w).1, Raise ValueError).
Proof.
  intros Hnd Hcand t. subst t.
  destruct (update_props_normalizes_all fname (r :: rs) w Hnd Hcand) as (w1 & Hrun & Hnorm).
  rewrite Hrun. simpl fst. simpl snd. split; [done|].
  destruct (Hnorm r ltac:(left)) as (s & Hs).
  pose proof (outcome_base w1 fname r.1.1 r.1.2 r.2 s Hs) as Hbase.
  unfold object_at, open_r in Hbase.
  destruct (files w1 !! fname) as [hfile|] eqn:Hf; [|done]. simpl in Hbase.
  destruct (update_prop_unreadable fname w1 hfile (h5_name (record_path r)) Hf) as [_ Hstop].
  cbn [call fmap list_fmap for_each]. unfold bind.
  by rewrite (Hstop _ Hbase I).
Qed.

End again.

End second_call.

(** ** The properties above on the sample files *)
Section sample_runs.
Local Open Scope res_scope.
Local Open Scope M_scope.

Ltac link_names := repeat first [apply Forall_nil_2 | apply Forall_cons_2 | by apply link_name_intro].

(** An upgraded file, given twice. *)
Lemma main_up_to_date_only_reports_witness :
  main (Args false ["new.nix"; "new.nix"]) Sample.w0 =
    (World Sample.disk 0 0
       (up_to_date_line Sample.w0 <$> ["new.nix"; "new.nix"]) [], Ok tt).
Proof.
  apply (main_up_to_date_only_reports (Args false ["new.nix"; "new.nix"]) Sample.w0).
  intros fname Hin. exists Sample.current_file, [1; 2; 0].
  assert (fname = "new.nix") as ->.
  { simpl in Hin. rewrite !elem_of_cons, elem_of_nil in Hin. tauto. }
  split; [reflexivity|]. split; [reflexivity|]. apply irreflexivity, _.
Defined.

(** A legacy file, and a user who ends up declining. *)
Lemma main_writes_only_on_yes_witness :
  let w := Sample.w_asked ["maybe"; "No"] in
  files (main (Args false ["old.nix"]) w).1 = files w /\
  ids (main (Args false ["old.nix"]) w).1 = ids w /\
  ticks (main (Args false ["old.nix"]) w).1 = ticks w.
Proof.
  apply (main_writes_only_on_yes (Args false ["old.nix"]) (Sample.w_asked ["maybe"; "No"]));
    [reflexivity|repeat constructor].
Defined.

(** One line that is no answer, then an answer in capitals. *)
Lemma ask_takes_first_answer_witness :
  let w := Sample.w_asked ["maybe"; "YES"; "n"] in
  ask (stdin w) w = (World Sample.disk 0 0 [prompt; prompt] ["n"], Ok "yes").
Proof.
  apply (ask_takes_first_answer (Sample.w_asked ["maybe"; "YES"; "n"]) ["maybe"] "YES" ["n"]);
    [reflexivity|repeat constructor|reflexivity].
Defined.

(** A legacy file, and an input that ends before an answer. *)
Lemma main_input_exhausted_witness :
  let w := Sample.w_asked ["maybe"] in
  (main (Args false ["old.nix"]) w).2 = Raise EOFError /\
  stdin (main (Args false ["old.nix"]) w).1 = [] /\
  files (main (Args false ["old.nix"]) w).1 = files w.
Proof.
  apply (main_input_exhausted (Args false ["old.nix"]) (Sample.w_asked ["maybe"])
           [("old.nix",
             [add_id "old.nix";
              update_props "old.nix"
                ["/metadata/session/zeros"; "/metadata/session/fives"; "/metadata/session/mixed"];
              update_ver "old.nix"])]);
    [reflexivity|vm_compute; reflexivity|discriminate|repeat constructor].
Defined.

(** The run on one file leaves another, which needs the upgrade as well, alone. *)
Lemma main_only_named_files_witness :
  files (main (Args true ["old.nix"]) Sample.w0).1 !! "stale.nix" = Some Sample.stale_file.
Proof.
  apply (main_only_named_files (Args true ["old.nix"]) Sample.w0 "stale.nix").
  simpl. intros Hin. apply list_elem_of_singleton in Hin. discriminate Hin.
Defined.

(** A line waiting on the input is still there after a forced run. *)
Lemma main_force_takes_no_input_witness :
  stdin (main (Args true ["old.nix"]) (Sample.w_asked ["n"])).1 = ["n"].
Proof.
  apply (main_force_takes_no_input (Args true ["old.nix"]) (Sample.w_asked ["n"])). reflexivity.
Defined.

(** A legacy file with nothing in it. *)
Lemma plan_needs_metadata_witness :
  collect_tasks "bare.nix" Sample.w_bare = (Sample.w_bare, Raise KeyError).
Proof.
  destruct (plan_needs_metadata "bare.nix" Sample.w_bare Sample.bare_file [1; 1; 0])
    as [Hplan _]; [reflexivity|reflexivity|exact below_target|reflexivity|].
  apply Hplan. reflexivity.
Defined.

(** A run that stops at its second record, a dataset of a simple row type. *)
Lemma interrupted_run_is_not_resumed_witness :
  let props := ["/metadata/session/zeros"; "/metadata/session/plain"; "/metadata/session/fives"] in
  let w' := (for_each call [add_id "old.nix"; update_props "old.nix" props] Sample.w0).1 in
  (collect_tasks "old.nix" w').2 = Ok (Some [update_ver "old.nix"]).
Proof.
  apply (interrupted_run_is_not_resumed "old.nix" Sample.w0 Sample.legacy_file [1; 1; 0]);
    [reflexivity|reflexivity|exact below_target|reflexivity|].
  intros E. vm_compute in E. discriminate E.
Defined.

(** The version update on a name that is not on disk. *)
Lemma tasks_create_a_missing_file_witness :
  exists w', call (update_ver "gone.nix") Sample.w0 = (w', Ok tt) /\
             files w' = <["gone.nix" := H5File {["version" := AInts [1; 2; 0]]} []]> Sample.disk.
Proof.
  destruct (tasks_create_a_missing_file "gone.nix" Sample.w0) as (Hver & _ & _);
    [reflexivity|exact Hver].
Defined.

(** The loop body on a dataset of a simple row type. *)
Lemma update_prop_checks_before_writing_witness :
  update_prop "old.nix" "/metadata/session/plain" Sample.w0 = (Sample.w0, Raise ValueError).
Proof.
  destruct (update_prop_checks_before_writing "old.nix" Sample.w0 Sample.legacy_file
              "/metadata/session/plain") as [_ Hstop]; [reflexivity|].
  apply (Hstop (Dset (Simple (IntArr [1])) ∅)); [reflexivity|exact I].
Defined.

(** A name of the sample file that is taken. *)
Lemma create_property_never_overwrites_witness :
  create_property "old.nix" "/metadata/session/plain" int64 (IntArr [7]) Sample.w0 =
    (Sample.w0, Raise ValueError).
Proof.
  apply (create_property_never_overwrites "old.nix" Sample.w0 Sample.legacy_file
           ["metadata"; "session"; "plain"] (Dataset (Dset (Simple (IntArr [1])) ∅))
           int64 (IntArr [7]));
    [reflexivity|link_names|discriminate|reflexivity].
Defined.

(** A record with several uncertainties, beside a dataset that has the name of its sibling. *)
Lemma update_prop_sibling_name_taken_witness :
  let w' := (update_prop "crowded.nix" "/metadata/session/mixed" Sample.w_crowded).1 in
  (update_prop "crowded.nix" "/metadata/session/mixed" Sample.w_crowded).2 = Raise ValueError /\
  (exists a, object_at "crowded.nix" "/metadata/session/mixed" w' =
             Ok (Dataset (Dset (Simple (IntArr [10; 20; 30])) a))) /\
  object_at "crowded.nix" "/metadata/session/mixed.uncertainty" w' =
    Ok (Dataset (Dset (Simple (IntArr [0])) ∅)).
Proof.
  apply (update_prop_sibling_name_taken "crowded.nix" Sample.w_crowded ["metadata"; "session"]
           "mixed" (Sample.columns (IntArr [1; 2; 2]) [""; "b"; ""]) ".uncertainty"
           (Dataset (Dset (Simple (IntArr [0])) ∅))).
  - link_names.
  - eexists. split; [reflexivity|]. eexists. repeat split; done.
  - left.
  - reflexivity.
  - reflexivity.
Defined.

(** The metadata of the sample file is in the legacy format throughout. *)
Lemma sample_legacy_records : legacy_records Sample.w0 "old.nix" Sample.metadata.
Proof.
  split; [exact sample_metadata_wf|]. intros cs d Hget Hd.
  destruct cs as [|k cs]; [done|]. simpl in Hget.
  destruct (decide (k = "session")) as [->|]; [|done].
  destruct cs as [|c cs]; [done|]. simpl in Hget.
  repeat (destruct (decide (c = _)) as [->|]);
    try done; (destruct cs; [|done]); injection Hget as <-; try (by vm_compute in Hd; lia).
  - exists ["metadata"; "session"], "zeros", (Sample.columns (FloatArr [Sample.zero; Sample.zero; Sample.zero]) [""; "a"; ""]).
    split; [done|]. by apply sample_candidate; [apply zeros_member|].
  - exists ["metadata"; "session"], "fives", (Sample.columns (IntArr [5; 5; 5]) [""; ""; ""]).
    split; [done|]. by apply sample_candidate; [apply fives_member|].
  - exists ["metadata"; "session"], "mixed", (Sample.columns (IntArr [1; 2; 2]) [""; ""; ""]).
    split; [done|]. by apply sample_candidate; [apply mixed_member|].
Qed.

Lemma sample_no_valid_id : has_valid_file_id "old.nix" Sample.w0 = Ok false.
Proof. reflexivity. Qed.

(** The legacy file of the samples. *)
Lemma structural_upgrade_runs_through_witness :
  exists tasks w',
    (collect_tasks "old.nix" Sample.w0).2 = Ok (Some tasks) /\
    for_each call tasks (collect_tasks "old.nix" Sample.w0).1 = (w', Ok tt) /\
    (collect_tasks "old.nix" w').2 = Ok None /\
    forall cs d,
      get_node cs (Group Sample.metadata) = Some (Dataset d) -> (0 < dtype_len d)%nat ->
      exists p c cols, "metadata" :: cs = p ++ [c] /\ is_legacy d cols /\
                       normalized_at w' "old.nix" p c cols.
Proof.
  apply (structural_upgrade_runs_through "old.nix" Sample.w0 Sample.legacy_file [1; 1; 0]
           Sample.metadata);
    [reflexivity|reflexivity|exact below_target|exact sample_no_valid_id|reflexivity
    |exact sample_legacy_records].
Defined.

Lemma sample_upgradable fname :
  fname ∈ ["old.nix"; "new.nix"; "stale.nix"; "old.nix"] -> upgradable Sample.w0 fname.
Proof.
  rewrite !elem_of_cons, elem_of_nil. intros [-> | [-> | [-> | [-> | []]]]].
  - exists Sample.legacy_file, [1; 1; 0]. split; [reflexivity|]. split; [reflexivity|].
    intros _. right. split; [reflexivity|]. exists Sample.metadata.
    split; [reflexivity|exact sample_legacy_records].
  - exists Sample.current_file, [1; 2; 0]. split; [reflexivity|]. split; [reflexivity|].
    intros Hlt. by apply irreflexivity in Hlt; [|apply _].
  - exists Sample.stale_file, [1; 1; 0]. split; [reflexivity|]. split; [reflexivity|].
    intros _. by left.
  - exists Sample.legacy_file, [1; 1; 0]. split; [reflexivity|]. split; [reflexivity|].
    intros _. right. split; [reflexivity|]. exists Sample.metadata.
    split; [reflexivity|exact sample_legacy_records].
Qed.

(** Three files, one of them given twice, and a user who answers the second time. *)
Lemma main_upgrades_every_file_witness :
  let a := Args false ["old.nix"; "new.nix"; "stale.nix"; "old.nix"] in
  let w := Sample.w_asked ["what?"; "Yes"] in
  (main a w).2 = Ok tt /\
  forall f, f ∈ file a ->
    (collect_tasks f (main a w).1).2 = Ok None /\ records_rewritten w (main a w).1 f.
Proof.
  apply (main_upgrades_every_file (Args false ["old.nix"; "new.nix"; "stale.nix"; "old.nix"])
           (Sample.w_asked ["what?"; "Yes"])).
  - right. exists ["what?"], "Yes", []. split; [reflexivity|].
    split; [repeat constructor|reflexivity].
  - intros f Hf. apply (upgradable_reads f Sample.w0); [reflexivity|].
    by apply sample_upgradable.
Defined.

Lemma sample_records_apart : NoDup (record_path <$> Sample.records).
Proof.
  unfold Sample.records, record_path. simpl.
  repeat (apply NoDup_cons; split; [rewrite ?elem_of_cons, elem_of_nil; intros H; repeat (destruct H as [H|H]; try discriminate H); done|]).
  apply NoDup_nil_2.
Qed.

Lemma sample_records_legacy r :
  r ∈ Sample.records -> candidate_at Sample.w0 "old.nix" r.1.1 r.1.2 r.2.
Proof.
  unfold Sample.records. rewrite !elem_of_cons, elem_of_nil.
  intros [-> | [-> | [-> | []]]]; simpl; apply sample_candidate;
    first [apply zeros_member | apply fives_member | apply mixed_member | done].
Qed.

(** The task of the sample file, called twice. *)
Lemma update_props_not_repeatable_witness :
  let t := update_props "old.nix"
             ["/metadata/session/zeros"; "/metadata/session/fives"; "/metadata/session/mixed"] in
  (call t Sample.w0).2 = Ok tt /\
  call t (call t Sample.w0).1 = ((call t Sample.w0).1, Raise ValueError).
Proof.
  apply (update_props_not_repeatable "old.nix"
           (["metadata"; "session"], "zeros",
            Sample.columns (FloatArr [Sample.zero; Sample.zero; Sample.zero]) [""; "a"; ""])
           [(["metadata"; "session"], "fives", Sample.columns (IntArr [5; 5; 5]) [""; ""; ""]);
            (["metadata"; "session"], "mixed", Sample.columns (IntArr [1; 2; 2]) [""; ""; ""])]
           Sample.w0);
    [exact sample_records_apart|exact sample_records_legacy].
Defined.

(** The version update on the legacy file. *)
Lemma header_tasks_write_one_attribute_witness :
  call (update_ver "old.nix") Sample.w0 =
    (World (<["old.nix" := H5File (<["version" := AInts [1; 2; 0]]> (attrs Sample.legacy_file))
                             (root Sample.legacy_file)]> Sample.disk) 0 0 [] [], Ok tt).
Proof.
  destruct (header_tasks_write_one_attribute "old.nix" Sample.w0 Sample.legacy_file)
    as (Hver & _ & _); [reflexivity|exact Hver].
Defined.

End sample_runs.
